(** * Sonic investment service: a shallow embedding of the Express server

    The server is one TypeScript file: six route handlers over a Mongoose
    model [User], an axios client and the wallet service.  Each handler is
    an [async] function whose whole body sits in a [try]/[catch]; here it is
    a function from the world before the request to the response sent and
    the world after it.

    What the handlers await is outside the file and is given per request
    by an [Env]: the clock, the answer of the price provider, the outcome
    of [sendTransaction] and of [analyzeTokenRisk], and whether MongoDB
    executes or rejects the command it is sent.

    Numbers are rationals (JSON cannot carry NaN or an infinity), dates are
    milliseconds since the epoch, strings are byte strings and
    [toLowerCase] acts on the ASCII letters (a wallet address is
    hexadecimal).

    The database is the collection of User documents, a list in natural
    order.  [findOneAndUpdate] is Mongoose's: the update is cast against
    the schema of the model, which is strict by default, so a key that is
    not a path of the schema is dropped; the first document that matches
    the filter is updated; with [upsert] and no match a document is made
    from the filter and the update, with the defaults of the schema when
    [setDefaultsOnInsert] holds; with [new] the document after the update
    is returned, and [null] when there is none.  What a query returns is
    a Mongoose document of the stored record: a path with a default that
    the record does not store has the default in the document, [Date.now]
    read when the document is made, and the record stays as it is.

    Requests are served one after the other: a handler runs from the
    world it finds to the world it leaves. *)

From Stdlib Require Import String Ascii List ZArith QArith Bool Lia.
Import ListNotations.
Open Scope string_scope.
Open Scope Z_scope.
Set Warnings "-register-all".

(** ** JavaScript values *)

Inductive jsval : Type :=
| JUndefined
| JNull
| JBool (b : bool)
| JNum (q : Q)
| JStr (s : string)
| JDate (t : option Z)          (* [None] is the Invalid Date *)
| JArr (items : list jsval)
| JObj (fields : list (string * jsval)).

(** An object literal, a request body and a stored document are all lists
    of fields in insertion order. *)
Definition fieldsT := list (string * jsval).

Fixpoint lookup (k : string) (fs : fieldsT) : option jsval :=
  match fs with
  | [] => None
  | (k', v) :: rest => if String.eqb k k' then Some v else lookup k rest
  end.

Definition hasKey (k : string) (fs : fieldsT) : bool :=
  match lookup k fs with Some _ => true | None => false end.

(** [obj.k] on an object: the value, or [undefined]. *)
Definition field (fs : fieldsT) (k : string) : jsval :=
  match lookup k fs with
  | Some v => v
  | None => JUndefined
  end.

(** JavaScript truthiness, as [!x] and [x ? a : b] and [x || y] use it. *)
Definition truthy (v : jsval) : bool :=
  match v with
  | JUndefined | JNull => false
  | JBool b => b
  | JNum q => negb (Qnum q =? 0)
  | JStr s => negb (String.eqb s EmptyString)
  | JDate _ | JArr _ | JObj _ => true
  end.

Definition falsy (v : jsval) : bool := negb (truthy v).

(** [v === undefined] *)
Definition isUndefined (v : jsval) : bool :=
  match v with
  | JUndefined => true
  | _ => false
  end.

(** [a || b] *)
Definition js_or (a b : jsval) : jsval := if truthy a then a else b.

Definition lowerAscii (c : ascii) : ascii :=
  let n := nat_of_ascii c in
  if (Nat.leb 65 n && Nat.leb n 90)%bool then ascii_of_nat (n + 32) else c.

Fixpoint toLowerCase (s : string) : string :=
  match s with
  | EmptyString => EmptyString
  | String c rest => String (lowerAscii c) (toLowerCase rest)
  end.

(** ** Exceptions, the world, and the handler monad *)

Inductive exn : Type :=
| JsError (message : string)                        (* an instance of Error *)
| HttpError (message : string) (response : option jsval)   (* axios' error *)
| JsThrown (v : jsval).                   (* anything else that was thrown *)

(** [error instanceof Error ? error.message : 'Unknown error occurred'] *)
Definition errorMessage (e : exn) : string :=
  match e with
  | JsError m => m
  | HttpError m _ => m
  | JsThrown _ => "Unknown error occurred"
  end.

Record txArgs : Type := mkTxArgs {
  tx_amount : jsval;
  tx_tokenPrice : jsval;
  tx_walletAddress : string;
  tx_riskLevel : jsval
}.

(** What a handler does to the outside, in order. *)
Inductive event : Type :=
| EvPriceApi (ids : string)              (* axios.get on the CoinGecko API *)
| EvLoopback (path : string)             (* axios.get on this server *)
| EvAnalyze (tokenId : string)           (* analyzeTokenRisk *)
| EvSendTransaction (args : txArgs)      (* sendTransaction *)
| EvDbRead (walletAddress : string)      (* User.findOne *)
| EvDbWrite (walletAddress : string)     (* User.findOneAndUpdate *)
| EvConsoleLog (label : string)
| EvConsoleError (label : string).

Definition document := fieldsT.

Record world : Type := mkWorld {
  users : list document;        (* the User collection, in natural order *)
  clockReads : nat;             (* how many times the clock was read *)
  trace : list event            (* most recent event last *)
}.

Inductive outcome (A : Type) : Type :=
| Ok (a : A)
| Throw (e : exn).
Arguments Ok {A} a.
Arguments Throw {A} e.

Definition M (A : Type) : Type := world -> outcome A * world.

Definition ret {A} (a : A) : M A := fun w => (Ok a, w).

Definition bind {A B} (m : M A) (k : A -> M B) : M B :=
  fun w =>
    match m w with
    | (Ok a, w') => k a w'
    | (Throw e, w') => (Throw e, w')
    end.

Definition throw {A} (e : exn) : M A := fun w => (Throw e, w).

(** [try { body } catch (e) { handler }] *)
Definition tryCatch {A} (body : M A) (handler : exn -> M A) : M A :=
  fun w =>
    match body w with
    | (Ok a, w') => (Ok a, w')
    | (Throw e, w') => handler e w'
    end.

Declare Scope js_scope.
Delimit Scope js_scope with js.
Notation "x <- c ;; k" := (bind c (fun x => k))
  (at level 100, c at next level, right associativity) : js_scope.
Notation "c ;;; k" := (bind c (fun _ => k))
  (at level 100, right associativity) : js_scope.
Open Scope js_scope.

Definition emit (ev : event) : M unit :=
  fun w => (Ok tt, mkWorld (users w) (clockReads w) (trace w ++ [ev])).

Definition getUsers : M (list document) := fun w => (Ok (users w), w).

Definition putUsers (us : list document) : M unit :=
  fun w => (Ok tt, mkWorld us (clockReads w) (trace w)).

Definition liftOutcome {A} (o : outcome A) : M A := fun w => (o, w).

(** [v[k]]: a TypeError on undefined and null, the field of an object,
    undefined on the other values (none of the keys read here is a
    property of a string, a number or an array). *)
Definition getProp (v : jsval) (k : string) : M jsval :=
  match v with
  | JUndefined | JNull =>
      throw (JsError ("Cannot read properties of undefined (reading '" ++ k ++ "')"))
  | JObj fs => ret (field fs k)
  | _ => ret JUndefined
  end.

(** [v.toLowerCase()] *)
Definition callToLowerCase (v : jsval) : M string :=
  match v with
  | JStr s => ret (toLowerCase s)
  | JUndefined | JNull =>
      throw (JsError "Cannot read properties of undefined (reading 'toLowerCase')")
  | _ => throw (JsError "walletAddress.toLowerCase is not a function")
  end.

(** ** Responses *)

Record response : Type := mkResponse {
  status : Z;
  body : fieldsT
}.

(** ** What each request meets outside the server *)

Record Env : Type := mkEnv {
  clock : nat -> Z;                      (* the n-th reading of the clock *)
  priceApi : outcome jsval;              (* response.data of the price API *)
  analyzeTokenRisk : outcome jsval;
  sendTransaction : txArgs -> outcome string;
  mongo : option exn                     (* [Some e]: MongoDB rejects with e *)
}.

(** [new Date()] and [Date.now()] read the clock. *)
Definition now (env : Env) : M Z :=
  fun w => (Ok (clock env (clockReads w)),
            mkWorld (users w) (S (clockReads w)) (trace w)).

(** ** Mongoose schemas *)

Inductive schemaType : Type := TString | TNumber | TDate | TDocArray.

Record schemaPath : Type := mkPath {
  sp_name : string;
  sp_type : schemaType;
  sp_required : bool;
  sp_unique : bool;
  sp_lowercase : bool;
  sp_defaultNow : bool                   (* default: Date.now *)
}.

Definition schema := list schemaPath.

Definition plainPath (name : string) (ty : schemaType) : schemaPath :=
  mkPath name ty false false false false.

Definition investmentSchema : schema :=
  [ plainPath "amount" TNumber;
    plainPath "riskLevel" TString;
    plainPath "transactionHash" TString;
    plainPath "timestamp" TDate;
    plainPath "tokenPrice" TNumber ].

Definition userSchema : schema :=
  [ mkPath "walletAddress" TString true true true false;
    mkPath "firstSeen" TDate false false false true;
    mkPath "lastSeen" TDate false false false true ].

Fixpoint schemaPathOf (sch : schema) (k : string) : option schemaPath :=
  match sch with
  | [] => None
  | p :: rest => if String.eqb k (sp_name p) then Some p else schemaPathOf rest k
  end.

(** An update document: the top-level keys that are not operators (Mongoose
    wraps them in [$set]) and the keys under [$push]. *)
Record update : Type := mkUpdate {
  u_set : fieldsT;
  u_push : fieldsT
}.

Record queryOptions : Type := mkOptions {
  o_new : bool;
  o_upsert : bool;
  o_setDefaultsOnInsert : option bool    (* [None]: the option is not given *)
}.

(** ** The collection *)

Definition matchesWallet (a : string) (d : document) : bool :=
  match field d "walletAddress" with
  | JStr s => String.eqb s a
  | _ => false
  end.

Fixpoint findDoc (a : string) (c : list document) : option document :=
  match c with
  | [] => None
  | d :: rest => if matchesWallet a d then Some d else findDoc a rest
  end.

Fixpoint replaceFirst (a : string) (d' : document) (c : list document)
  : list document :=
  match c with
  | [] => []
  | d :: rest =>
      if matchesWallet a d then d' :: rest else d :: replaceFirst a d' rest
  end.

Fixpoint setField (k : string) (v : jsval) (d : document) : document :=
  match d with
  | [] => [(k, v)]
  | (k', v') :: rest =>
      if String.eqb k k' then (k, v) :: rest else (k', v') :: setField k v rest
  end.

(** [$push]: appends to the array at the path, creates the array when the
    path is absent, and is an error on a value that is not an array. *)
Definition pushField (k : string) (v : jsval) (d : document) : outcome document :=
  match lookup k d with
  | None => Ok (setField k (JArr [v]) d)
  | Some (JArr items) => Ok (setField k (JArr (items ++ [v])) d)
  | Some _ => Throw (JsError ("The field '" ++ k ++ "' must be an array"))
  end.

Fixpoint applySets (fs : fieldsT) (d : document) : document :=
  match fs with
  | [] => d
  | (k, v) :: rest => applySets rest (setField k v d)
  end.

Fixpoint applyPushes (fs : fieldsT) (d : document) : outcome document :=
  match fs with
  | [] => Ok d
  | (k, v) :: rest =>
      match pushField k v d with
      | Ok d' => applyPushes rest d'
      | Throw e => Throw e
      end
  end.

Definition applyUpdate (u : update) (d : document) : outcome document :=
  applyPushes (u_push u) (applySets (u_set u) d).

(** The array of investment records a stored document carries. *)
Definition investmentsOf (d : document) : list jsval :=
  match lookup "investments" d with
  | Some (JArr items) => items
  | _ => []
  end.

Definition firstSeenOf (d : document) : jsval := field d "firstSeen".
Definition lastSeenOf (d : document) : jsval := field d "lastSeen".

(** ** The JavaScript runtime and the Mongoose version

    What the server takes from its platform and does not define. *)

Record Runtime : Type := mkRuntime {
  (** [String(v)], as a template literal applies it. *)
  rt_ToString : jsval -> string;
  (** [Date.prototype.toISOString]. *)
  rt_toISOString : Z -> string;
  (** [new Date(v)]: the time value, [None] for the Invalid Date. *)
  rt_DateOf : jsval -> option Z;
  (** Mongoose's cast of a value to a schema type, for the values that are
      not already a Date at a Date path; [None] is a CastError. *)
  rt_castTo : schemaType -> jsval -> option jsval;
  (** The value Mongoose gives [setDefaultsOnInsert] when an upsert does
      not pass the option (false before Mongoose 6, true since). *)
  rt_setDefaultsOnInsertDefault : bool
}.

(** ** Mongoose and the handlers *)

Section Server.

Variable rt : Runtime.

Local Abbreviation ToString := (rt_ToString rt).
Local Abbreviation toISOString := (rt_toISOString rt).
Local Abbreviation DateOf := (rt_DateOf rt).
Local Abbreviation castTo := (rt_castTo rt).
Local Abbreviation setDefaultsOnInsertDefault := (rt_setDefaultsOnInsertDefault rt).

(** [res.json]: a Date becomes its ISO string (null when invalid), a field
    holding undefined is left out, undefined in an array becomes null. *)
Fixpoint toJSON (v : jsval) : jsval :=
  match v with
  | JDate (Some t) => JStr (toISOString t)
  | JDate None => JNull
  | JArr items =>
      JArr (map (fun x => match x with
                          | JUndefined => JNull
                          | _ => toJSON x
                          end) items)
  | JObj fs =>
      JObj ((fix go (l : list (string * jsval)) : list (string * jsval) :=
               match l with
               | [] => []
               | (k, x) :: rest =>
                   match x with
                   | JUndefined => go rest
                   | _ => (k, toJSON x) :: go rest
                   end
               end) fs)
  | _ => v
  end.

Definition jsonBody (fs : fieldsT) : fieldsT :=
  match toJSON (JObj fs) with
  | JObj fs' => fs'
  | _ => []
  end.

(** [res.status(code).json(obj)] *)
Definition send (code : Z) (obj : fieldsT) : response :=
  mkResponse code (jsonBody obj).

Definition castError (p : schemaPath) : exn :=
  JsError ("Cast failed at path '" ++ sp_name p ++ "'").

Definition applySetters (p : schemaPath) (v : jsval) : jsval :=
  match v with
  | JStr s => if sp_lowercase p then JStr (toLowerCase s) else v
  | _ => v
  end.

Definition castValue (p : schemaPath) (v : jsval) : outcome jsval :=
  match sp_type p, v with
  | TDate, JDate (Some _) => Ok v
  | TDate, JDate None => Throw (castError p)
  | ty, _ =>
      match castTo ty v with
      | Some v' => Ok (applySetters p v')
      | None => Throw (castError p)
      end
  end.

(** The schema is strict (the default): a key of the update that is not a
    path of the schema is dropped; the others are cast to their type. *)
Fixpoint castSets (sch : schema) (fs : fieldsT) : outcome fieldsT :=
  match fs with
  | [] => Ok []
  | (k, v) :: rest =>
      match schemaPathOf sch k with
      | None => castSets sch rest
      | Some p =>
          match castValue p v with
          | Throw e => Throw e
          | Ok v' =>
              match castSets sch rest with
              | Throw e => Throw e
              | Ok rest' => Ok ((k, v') :: rest')
              end
          end
      end
  end.

(** Under [$push] the path has to be an array of the schema; the pushed
    element is stored as it is given. *)
Fixpoint castPushes (sch : schema) (fs : fieldsT) : outcome fieldsT :=
  match fs with
  | [] => Ok []
  | (k, v) :: rest =>
      match schemaPathOf sch k with
      | None => castPushes sch rest
      | Some p =>
          match sp_type p with
          | TDocArray =>
              match castPushes sch rest with
              | Throw e => Throw e
              | Ok rest' => Ok ((k, v) :: rest')
              end
          | _ => Throw (castError p)
          end
      end
  end.

Definition castUpdate (sch : schema) (u : update) : outcome update :=
  match castSets sch (u_set u) with
  | Throw e => Throw e
  | Ok s =>
      match castPushes sch (u_push u) with
      | Throw e => Throw e
      | Ok p => Ok (mkUpdate s p)
      end
  end.

(** [setDefaultsOnInsert]: a [$setOnInsert] entry for every path with a
    default that neither the filter nor the update names. *)
Fixpoint defaultsOnInsert (env : Env) (sch : schema) (u : update)
  : M fieldsT :=
  match sch with
  | [] => ret []
  | p :: rest =>
      if (sp_defaultNow p
          && negb (String.eqb (sp_name p) "walletAddress")
          && negb (hasKey (sp_name p) (u_set u))
          && negb (hasKey (sp_name p) (u_push u)))%bool
      then t <- now env ;;
           more <- defaultsOnInsert env rest u ;;
           ret ((sp_name p, JDate (Some t)) :: more)
      else defaultsOnInsert env rest u
  end.

(** What MongoDB does with [findOneAndUpdate] on the filter
    [{walletAddress: a}]. *)
Definition mongoFindOneAndUpdate (env : Env) (a : string) (u : update)
    (setOnInsert : fieldsT) (opts : queryOptions) : M (option document) :=
  emit (EvDbWrite a) ;;;
  match mongo env with
  | Some e => throw e
  | None =>
      us <- getUsers ;;
      match findDoc a us with
      | Some d =>
          d' <- liftOutcome (applyUpdate u d) ;;
          putUsers (replaceFirst a d' us) ;;;
          ret (Some (if o_new opts then d' else d))
      | None =>
          if o_upsert opts
          then d' <- liftOutcome (applyUpdate u [("walletAddress", JStr a)]) ;;
               let d'' := applySets setOnInsert d' in
               putUsers (us ++ [d'']) ;;;
               ret (if o_new opts then Some d'' else None)
          else ret None
      end
  end.

(** The Mongoose document made of a record that a query returns: a path
    of the schema with a default that the record leaves undefined gets the
    default, path by path in the order of the schema, each [Date.now] a
    reading of the clock.  The stored record is not touched. *)
Fixpoint hydrate (env : Env) (sch : schema) (d : document) : M document :=
  match sch with
  | [] => ret d
  | p :: rest =>
      if (sp_defaultNow p && isUndefined (field d (sp_name p)))%bool
      then t <- now env ;;
           hydrate env rest (setField (sp_name p) (JDate (Some t)) d)
      else hydrate env rest d
  end.

(** The result of a query for one document: null, or the document of the
    record. *)
Definition hydrateResult (env : Env) (sch : schema) (r : option document)
  : M (option document) :=
  match r with
  | None => ret None
  | Some d => d' <- hydrate env sch d ;; ret (Some d')
  end.

(** [Model.findOneAndUpdate({walletAddress: a}, u, opts)] for the model of
    schema [sch].  The [_id] and [__v] of a document are left out. *)
Definition findOneAndUpdate (sch : schema) (env : Env) (a : string)
    (u : update) (opts : queryOptions) : M (option document) :=
  u' <- liftOutcome (castUpdate sch u) ;;
  soi <- (if (o_upsert opts
              && match o_setDefaultsOnInsert opts with
                 | Some b => b
                 | None => setDefaultsOnInsertDefault
                 end)%bool
          then defaultsOnInsert env sch u'
          else ret []) ;;
  r <- mongoFindOneAndUpdate env a u' soi opts ;;
  hydrateResult env sch r.

(** [Model.findOne({walletAddress: a})] for the model of schema [sch]. *)
Definition findOne (sch : schema) (env : Env) (a : string)
  : M (option document) :=
  emit (EvDbRead a) ;;;
  match mongo env with
  | Some e => throw e
  | None => us <- getUsers ;; hydrateResult env sch (findDoc a us)
  end.

(** [const User = mongoose.model('User', userSchema)] *)
Definition User_findOneAndUpdate := findOneAndUpdate userSchema.
Definition User_findOne := findOne userSchema.

(** *** The route handlers *)

Definition RECIPIENT_WALLET : string :=
  "0x486BEa6B90243d2Ff3EE2723a47605C3361c3d95".

Definition consoleLog (label : string) (w : world) : world :=
  mkWorld (users w) (clockReads w) (trace w ++ [EvConsoleLog label]).

Definition consoleError (label : string) (w : world) : world :=
  mkWorld (users w) (clockReads w) (trace w ++ [EvConsoleError label]).

(** The outer [try]/[catch] of a handler: whatever the body throws, the
    catch block logs it and sends the response. *)
Definition catchAll (body : M response)
    (handler : exn -> world -> response * world) (w : world)
  : response * world :=
  match body w with
  | (Ok r, w') => (r, w')
  | (Throw e, w') => handler e w'
  end.

(** [error && typeof error === 'object' && 'response' in error] *)
Definition hasResponse (e : exn) : bool :=
  match e with
  | HttpError _ (Some _) => true
  | JsThrown (JObj fs) => hasKey "response" fs
  | _ => false
  end.

Definition failure (publicMessage : string) (e : exn) : response :=
  send 500 [ ("success", JBool false);
             ("message", JStr publicMessage);
             ("error", JStr (errorMessage e)) ].

(** GET /api/fetchsonicprice *)
Definition fetchsonicprice (env : Env) : world -> response * world :=
  catchAll
    (let tokenId := "sonic-3" in
     emit (EvPriceApi tokenId) ;;;
     data <- liftOutcome (priceApi env) ;;
     emit (EvConsoleLog "API Response:") ;;;
     entry <- getProp data tokenId ;;
     sonicPrice <- getProp entry "usd" ;;
     t <- now env ;;
     ret (send 200 [ ("success", JBool true);
                     ("price", sonicPrice);
                     ("currency", JStr "USD");
                     ("token_id", JStr tokenId);
                     ("timestamp", JStr (toISOString t)) ]))
    (fun e w =>
       let w1 := consoleError "Error fetching Sonic price:" w in
       let w2 := if hasResponse e then consoleError "Error details:" w1 else w1 in
       (failure "Failed to fetch Sonic token price" e, w2)).

(** GET /api/analyze *)
Definition analyze (env : Env) : world -> response * world :=
  catchAll
    (let tokenId := "sonic-3" in
     emit (EvAnalyze tokenId) ;;;
     analysis <- liftOutcome (analyzeTokenRisk env) ;;
     t <- now env ;;
     ret (send 200 [ ("success", JBool true);
                     ("token_id", JStr tokenId);
                     ("analysis", analysis);
                     ("timestamp", JStr (toISOString t)) ]))
    (fun e w =>
       (failure "Failed to analyze token" e,
        consoleError "Error analyzing token:" w)).

(** [axios.get('http://localhost:' + PORT + '/api/fetchsonicprice')]: the
    request is served by this server's own handler; axios rejects on a
    status outside 2xx. *)
Definition axiosGetPrice (env : Env) : M fieldsT :=
  emit (EvLoopback "/api/fetchsonicprice") ;;;
  fun w =>
    let (r, w') := fetchsonicprice env w in
    if ((200 <=? status r) && (status r <? 300))%bool
    then (Ok (body r), w')
    else (Throw (HttpError ("Request failed with status code "
                            ++ ToString (JNum (inject_Z (status r))))
                           (Some (JObj (body r)))), w').

(** POST /api/invest *)
Definition invest (env : Env) (reqBody : fieldsT) : world -> response * world :=
  catchAll
    (let amount := field reqBody "amount" in
     let riskLevel := field reqBody "riskLevel" in
     let walletAddress := field reqBody "walletAddress" in
     if (falsy amount || falsy riskLevel)%bool
     then ret (send 400 [ ("success", JBool false);
                          ("message", JStr "Missing required fields: amount and riskLevel") ])
     else
       data <- axiosGetPrice env ;;
       let tokenPrice := field data "price" in
       if falsy tokenPrice
       then throw (JsError "Failed to get current token price")
       else
         let args := mkTxArgs amount tokenPrice RECIPIENT_WALLET riskLevel in
         emit (EvSendTransaction args) ;;;
         txHash <- liftOutcome (sendTransaction env args) ;;
         (if truthy walletAddress
          then tryCatch
                 (a <- callToLowerCase walletAddress ;;
                  t1 <- now env ;;
                  t2 <- now env ;;
                  _ <- User_findOneAndUpdate env a
                         (mkUpdate
                            [ ("lastSeen", JDate (Some t2)) ]
                            [ ("investments",
                               JObj [ ("amount", amount);
                                      ("riskLevel", riskLevel);
                                      ("tokenPrice", tokenPrice);
                                      ("transactionHash", JStr txHash);
                                      ("timestamp", JDate (Some t1)) ]) ])
                         (mkOptions true true None) ;;
                  emit (EvConsoleLog "Investment recorded for user:"))
                 (fun dbError =>
                    emit (EvConsoleError "Error recording investment in database:"))
          else ret tt) ;;;
         t3 <- now env ;;
         ret (send 200 [ ("success", JBool true);
                         ("message", JStr ("Successfully invested $" ++ ToString amount
                                           ++ " at " ++ ToString riskLevel
                                           ++ " risk level"));
                         ("transactionHash", JStr txHash);
                         ("timestamp", JStr (toISOString t3)) ]))
    (fun e w =>
       (failure "Failed to process investment" e,
        consoleError "Error processing investment:" w)).

Definition docValue (user : option document) : jsval :=
  match user with
  | Some d => JObj d
  | None => JNull
  end.

(** The [user] object of a response: three properties read off the
    Mongoose document that the query returned. *)
Definition userView (user : option document) : M jsval :=
  wa <- getProp (docValue user) "walletAddress" ;;
  fs <- getProp (docValue user) "firstSeen" ;;
  ls <- getProp (docValue user) "lastSeen" ;;
  ret (JObj [ ("walletAddress", wa); ("firstSeen", fs); ("lastSeen", ls) ]).

(** POST /api/user *)
Definition postUser (env : Env) (reqBody : fieldsT) : world -> response * world :=
  catchAll
    (let walletAddress := field reqBody "walletAddress" in
     let lastSeen := field reqBody "lastSeen" in
     let chainId := field reqBody "chainId" in
     if falsy walletAddress
     then ret (send 400 [ ("success", JBool false);
                          ("message", JStr "Wallet address is required") ])
     else
       a <- callToLowerCase walletAddress ;;
       seen <- (if truthy lastSeen
                then ret (JDate (DateOf lastSeen))
                else t <- now env ;; ret (JDate (Some t))) ;;
       user <- User_findOneAndUpdate env a
                 (mkUpdate [ ("lastSeen", seen);
                             ("chainId", js_or chainId JNull) ] [])
                 (mkOptions true true (Some true)) ;;
       view <- userView user ;;
       ret (send 200 [ ("success", JBool true); ("user", view) ]))
    (fun e w =>
       (failure "Error saving user data" e,
        consoleError "Error saving user data:" w)).

(** POST /api/user/investment *)
Definition postUserInvestment (env : Env) (reqBody : fieldsT)
  : world -> response * world :=
  catchAll
    (let walletAddress := field reqBody "walletAddress" in
     let investment := field reqBody "investment" in
     if (falsy walletAddress || falsy investment)%bool
     then ret (send 400 [ ("success", JBool false);
                          ("message", JStr "Wallet address and investment details are required") ])
     else
       a <- callToLowerCase walletAddress ;;
       t <- now env ;;
       user <- User_findOneAndUpdate env a
                 (mkUpdate [ ("lastSeen", JDate (Some t)) ]
                           [ ("investments", investment) ])
                 (mkOptions true false None) ;;
       match user with
       | None => ret (send 404 [ ("success", JBool false);
                                 ("message", JStr "User not found") ])
       | Some _ => ret (send 200 [ ("success", JBool true);
                                   ("message", JStr "Investment history updated") ])
       end)
    (fun e w =>
       (failure "Error updating investment history" e,
        consoleError "Error updating investment history:" w)).

(** GET /api/user/:walletAddress *)
Definition getUser (env : Env) (walletAddress : string)
  : world -> response * world :=
  catchAll
    (if String.eqb walletAddress EmptyString
     then ret (send 400 [ ("success", JBool false);
                          ("message", JStr "Wallet address is required") ])
     else
       user <- User_findOne env (toLowerCase walletAddress) ;;
       match user with
       | None => ret (send 404 [ ("success", JBool false);
                                 ("message", JStr "User not found") ])
       | Some _ =>
           view <- userView user ;;
           ret (send 200 [ ("success", JBool true); ("user", view) ])
       end)
    (fun e w =>
       (failure "Error fetching user data" e,
        consoleError "Error fetching user data:" w)).

(** The routes of the API, each with what its handler reads of the
    request: the body as [express.json()] parsed it, or the parameter of
    the path.  What the server answers before a handler runs or without
    one (the page at GET /, the static files, the rejection of a body
    that does not parse) is not a request here. *)
Inductive request : Type :=
| GetFetchSonicPrice
| GetAnalyze
| PostInvest (reqBody : fieldsT)
| PostUser (reqBody : fieldsT)
| PostUserInvestment (reqBody : fieldsT)
| GetUser (walletAddress : string).

Definition handle (env : Env) (req : request) : world -> response * world :=
  match req with
  | GetFetchSonicPrice => fetchsonicprice env
  | GetAnalyze => analyze env
  | PostInvest b => invest env b
  | PostUser b => postUser env b
  | PostUserInvestment b => postUserInvestment env b
  | GetUser a => getUser env a
  end.

End Server.

(** ** Reading the collection *)

(** The stored wallet address, compared without regard to letter case. *)
Definition sameWalletCI (a : string) (d : document) : bool :=
  match field d "walletAddress" with
  | JStr s => String.eqb (toLowerCase s) (toLowerCase a)
  | _ => false
  end.

Definition countWalletCI (a : string) (c : list document) : nat :=
  length (filter (sameWalletCI a) c).

(** A document as the schema saves it: its wallet address is a lower-case
    string. *)
Definition lowerKeyed (d : document) : Prop :=
  exists s, field d "walletAddress" = JStr s /\ toLowerCase s = s.

(** The collection under its unique index. *)
Definition wellFormed (c : list document) : Prop :=
  Forall lowerKeyed c /\
  NoDup (map (fun d => field d "walletAddress") c).

(** The three ways a request changes the collection: not at all, by
    setting [lastSeen] of one document, by adding a document for a wallet
    address that had none. *)
Inductive usersStep (stamp : Z -> Prop) (c c' : list document) : Prop :=
| step_same : c' = c -> usersStep stamp c c'
| step_touch (a : string) (d : document) (t : Z) :
    findDoc a c = Some d ->
    stamp t ->
    c' = replaceFirst a (setField "lastSeen" (JDate (Some t)) d) c ->
    usersStep stamp c c'
| step_insert (a : string) (d : document) :
    findDoc a c = None ->
    field d "walletAddress" = JStr a ->
    toLowerCase a = a ->
    lookup "investments" d = None ->
    c' = (c ++ [d])%list ->
    usersStep stamp c c'.

(** A runtime and a collection to run the handlers on. *)
Definition demoRuntime : Runtime :=
  mkRuntime
    (fun v => match v with JStr s => s | _ => "100" end)
    (fun t => "2025-01-01T00:00:00.000Z")
    (fun v => match v with JNum q => Some (Qnum q) | _ => None end)
    (fun ty v => Some v)
    false.

Definition demoUser : document :=
  [ ("walletAddress", JStr "0xabc");
    ("lastSeen", JDate (Some 1000));
    ("firstSeen", JDate (Some 900)) ].

Definition demoWorld : world := mkWorld [demoUser] 0 [].

(** A record that stores no [firstSeen]. *)
Definition bareUser : document :=
  [ ("walletAddress", JStr "0xdef");
    ("lastSeen", JDate (Some 1000)) ].

Definition bareWorld : world := mkWorld [bareUser] 0 [].

Definition emptyWorld : world := mkWorld [] 0 [].

Definition priceData (usd : jsval) : jsval :=
  JObj [ ("sonic-3", JObj [ ("usd", usd) ]) ].

Definition demoEnv : Env :=
  mkEnv (fun n => 2000 + Z.of_nat n)
        (Ok (priceData (JNum (1 # 2))))
        (Ok (JObj [ ("riskLevel", JStr "low") ]))
        (fun _ => Ok "0xhash")
        None.

Definition demoInvestment : jsval :=
  JObj [ ("amount", JNum 100);
         ("riskLevel", JStr "low");
         ("transactionHash", JStr "0xhash");
         ("timestamp", JStr "2025-01-01T00:00:00.000Z");
         ("tokenPrice", JNum (1 # 2)) ].

(** ** Notions the properties are stated with *)

(** The one change the handlers make to a stored document. *)
Definition touch (t : Z) (d : document) : document :=
  setField "lastSeen" (JDate (Some t)) d.

Definition seenUpdate (t : Z) : update :=
  mkUpdate [ ("lastSeen", JDate (Some t)) ] [].

(** The document an upsert inserts. *)
Definition inserted (a : string) (t : Z) (soi : fieldsT) : document :=
  applySets soi [ ("walletAddress", JStr a); ("lastSeen", JDate (Some t)) ].

(** The Mongoose document of a stored record, made when the clock has
    been read [n] times: [firstSeen] and then [lastSeen] are the record's
    where it has them and a reading of the clock where it has not. *)
Definition hydrated (env : Env) (n : nat) (d : document) : document :=
  let d1 := if isUndefined (firstSeenOf d)
            then setField "firstSeen" (JDate (Some (clock env n))) d
            else d in
  let n1 := if isUndefined (firstSeenOf d) then S n else n in
  if isUndefined (lastSeenOf d)
  then setField "lastSeen" (JDate (Some (clock env n1))) d1
  else d1.

(** A date of the schema as a response shows it: the stored one, or the
    default [Date.now], read as [t], when the record has none. *)
Definition seenOr (stored : jsval) (t : Z) : jsval :=
  if isUndefined stored then JDate (Some t) else stored.

(** How many defaults Mongoose takes for the record. *)
Definition defaultsTaken (d : document) : nat :=
  ((if isUndefined (firstSeenOf d) then 1 else 0)
   + (if isUndefined (lastSeenOf d) then 1 else 0))%nat.

(** A record that stores both dates: its Mongoose document is the record
    itself. *)
Definition storesDates (d : document) : Prop :=
  isUndefined (firstSeenOf d) = false /\ isUndefined (lastSeenOf d) = false.

(** [findOneAndUpdate] of the User model once the update is cast and the
    defaults of an insert are taken: the command to MongoDB, and the
    document of what it returns. *)
Definition userWrite (env : Env) (a : string) (u : update)
    (setOnInsert : fieldsT) (opts : queryOptions) : M (option document) :=
  r <- mongoFindOneAndUpdate env a u setOnInsert opts ;;
  hydrateResult env userSchema r.

Definition clockStamp (env : Env) (w : world) (t : Z) : Prop :=
  exists n, (clockReads w <= n)%nat /\ t = clock env n.

(** What POST /api/invest has when it reaches the database: the fields
    are there, the price came back as a number that is not zero, and the
    transfer went through with hash [txHash]. *)
Record transferred (env : Env) (b : fieldsT) (price : Q) (txHash : string)
  : Prop := mkTransferred {
  tr_amount : truthy (field b "amount") = true;
  tr_riskLevel : truthy (field b "riskLevel") = true;
  tr_quote : exists dfs efs,
      priceApi env = Ok (JObj dfs) /\
      field dfs "sonic-3" = JObj efs /\
      field efs "usd" = JNum price;
  tr_price : Qnum price <> 0;
  tr_sent : sendTransaction env
              (mkTxArgs (field b "amount") (JNum price) RECIPIENT_WALLET
                        (field b "riskLevel")) = Ok txHash
}.

Definition sentTrace (b : fieldsT) (price : Q) (w : world) : list event :=
  ((((trace w ++ [EvLoopback "/api/fetchsonicprice"])
     ++ [EvPriceApi "sonic-3"]) ++ [EvConsoleLog "API Response:"])
   ++ [EvSendTransaction
         (mkTxArgs (field b "amount") (JNum price) RECIPIENT_WALLET
                   (field b "riskLevel"))])%list.

(** How many times the clock has been read when Mongoose takes the
    default of [firstSeen]. *)
Definition readsBeforeDefault (b : fieldsT) (w : world) : nat :=
  if truthy (field b "lastSeen") then clockReads w else S (clockReads w).

(** A provider that knows the token and quotes no [usd] for it. *)
Definition unquotedEnv : Env :=
  mkEnv (clock demoEnv) (Ok (JObj [ ("sonic-3", JObj []) ]))
        (analyzeTokenRisk demoEnv) (sendTransaction demoEnv) None.

(** A provider that quotes zero. *)
Definition zeroQuoteEnv : Env :=
  mkEnv (clock demoEnv) (Ok (priceData (JNum 0)))
        (analyzeTokenRisk demoEnv) (sendTransaction demoEnv) None.

(** Mongoose 6 and later: an upsert sets the defaults of the schema. *)
Definition demoRuntime6 : Runtime :=
  mkRuntime (rt_ToString demoRuntime) (rt_toISOString demoRuntime)
            (rt_DateOf demoRuntime) (rt_castTo demoRuntime) true.

Section Notions.

Variable rt : Runtime.

(** Whether an upsert with these options sets the schema's defaults. *)
Definition setsDefaults (opts : queryOptions) : bool :=
  (o_upsert opts
   && match o_setDefaultsOnInsert opts with
      | Some b => b
      | None => rt_setDefaultsOnInsertDefault rt
      end)%bool.

Definition postUserStamp (env : Env) (b : fieldsT) (w : world) (t : Z) : Prop :=
  if truthy (field b "lastSeen")
  then rt_DateOf rt (field b "lastSeen") = Some t
  else t = clock env (clockReads w).

(** The times a request may write into a [lastSeen]: a reading of the
    clock taken while it is served, or the [lastSeen] that the body of a
    POST /api/user carries. *)
Definition requestStamp (env : Env) (req : request) (w : world) (t : Z) : Prop :=
  match req with
  | PostUser b => postUserStamp env b w t
  | _ => clockStamp env w t
  end.

(** The [lastSeen] of the body is absent, or a date that [new Date] reads. *)
Definition validSeen (b : fieldsT) : Prop :=
  truthy (field b "lastSeen") = true ->
  rt_DateOf rt (field b "lastSeen") <> None.

Definition investReply (b : fieldsT) (txHash : string) (t : Z) : response :=
  send rt 200
    [ ("success", JBool true);
      ("message", JStr ("Successfully invested $" ++ rt_ToString rt (field b "amount")
                        ++ " at " ++ rt_ToString rt (field b "riskLevel")
                        ++ " risk level"));
      ("transactionHash", JStr txHash);
      ("timestamp", JStr (rt_toISOString rt t)) ].

Definition userReply (doc : document) : response :=
  send rt 200
    [ ("success", JBool true);
      ("user", JObj [ ("walletAddress", field doc "walletAddress");
                      ("firstSeen", field doc "firstSeen");
                      ("lastSeen", field doc "lastSeen") ]) ].

(** The server serving requests one after the other, each in its own
    environment. *)
Fixpoint serve (reqs : list (Env * request)) (w : world) : world :=
  match reqs with
  | [] => w
  | (env, req) :: rest => serve rest (snd (handle rt env req w))
  end.

End Notions.

(** The [usd] value that the answer of the price provider holds for the
    token, [data['sonic-3'].usd]: undefined when the entry of the token is
    not an object with that property. *)
Definition providerQuote (data : fieldsT) : jsval :=
  match field data "sonic-3" with
  | JObj entry => field entry "usd"
  | _ => JUndefined
  end.

(** C6 as first stated: every successful answer carries a positive
    number as [price]. *)
Definition price_positive_on_success (rt : Runtime) : Prop :=
  forall env w,
    status (fst (fetchsonicprice rt env w)) = 200 ->
    exists q,
      field (body (fst (fetchsonicprice rt env w))) "price" = JNum q /\
      (0 < q)%Q.


(** ** What a handler answers and emits, whatever the request *)

(** The events a run adds to the trace all satisfy [P]. *)
Definition emitsOnly {X : Type} (P : event -> Prop) (f : world -> X * world)
  : Prop :=
  forall w, exists evs,
    trace (snd (f w)) = (trace w ++ evs)%list /\ Forall P evs.

Definition isTransfer (ev : event) : Prop :=
  match ev with EvSendTransaction _ => True | _ => False end.

Definition isDbWrite (ev : event) : Prop :=
  match ev with EvDbWrite _ => True | _ => False end.

Definition isDbAccess (ev : event) : Prop :=
  match ev with EvDbRead _ | EvDbWrite _ => True | _ => False end.

(** The transfers POST /api/invest may ask for, given the body. *)
Definition investEvent (b : fieldsT) (ev : event) : Prop :=
  match ev with
  | EvSendTransaction args =>
      tx_walletAddress args = RECIPIENT_WALLET /\
      tx_amount args = field b "amount" /\
      tx_riskLevel args = field b "riskLevel" /\
      truthy (tx_amount args) = true /\
      truthy (tx_riskLevel args) = true /\
      truthy (tx_tokenPrice args) = true
  | EvAnalyze _ | EvDbRead _ => False
  | _ => True
  end.

Section Replies.

Variable rt : Runtime.

(** A response as every route builds it: one of four status codes, and a
    [success] flag that is true on 200 and false otherwise. *)
Definition wellFormedReply (r : response) : Prop :=
  In (status r) [200; 400; 404; 500] /\
  field (body r) "success" = JBool (status r =? 200).

(** The computations whose every result is such a response. *)
Definition returnsReply (m : M response) : Prop :=
  forall w r w', m w = (Ok r, w') -> wellFormedReply r.

End Replies.

(** The routes that are served under GET. *)
Definition isGet (req : request) : bool :=
  match req with
  | GetFetchSonicPrice | GetAnalyze | GetUser _ => true
  | _ => false
  end.

(** The routes other than POST /api/invest. *)
Definition isInvest (req : request) : bool :=
  match req with
  | PostInvest _ => true
  | _ => false
  end.

(** What POST /api/invest has when it calls [sendTransaction]: the two
    fields are there and the price came back as a number that is not
    zero. *)
Record quoted (env : Env) (b : fieldsT) (price : Q) : Prop := mkQuoted {
  qt_amount : truthy (field b "amount") = true;
  qt_riskLevel : truthy (field b "riskLevel") = true;
  qt_quote : exists dfs efs,
      priceApi env = Ok (JObj dfs) /\
      field dfs "sonic-3" = JObj efs /\
      field efs "usd" = JNum price;
  qt_price : Qnum price <> 0
}.

(** The arguments of the call. *)
Definition transferArgs (b : fieldsT) (price : Q) : txArgs :=
  mkTxArgs (field b "amount") (JNum price) RECIPIENT_WALLET
           (field b "riskLevel").

(** Neither a transfer nor a command to MongoDB. *)
Definition isQuiet (ev : event) : Prop :=
  ~ isTransfer ev /\ ~ isDbAccess ev.

(** * The page: the script of the single-page client

    The client keeps its state in four globals and in the elements of the
    page.  Here the state is a record, [page]; an element is what the
    script reads and writes of it.  The wallet provider, the clock of the
    browser and the network are given by a [Browser]; a [fetch] is served
    by the handlers above.  Strings are taken by code unit, and
    [toUpperCase] acts on the ASCII letters. *)

Module Client.

Definition nl : string := String (ascii_of_nat 10) EmptyString.
Definition dq : string := String (ascii_of_nat 34) EmptyString.

(** ** Strings *)

Definition clampIndex (n : Z) (len : nat) : nat :=
  Z.to_nat (Z.min (Z.max n 0) (Z.of_nat len)).

(** [s.substring(start, stop)]: both ends are clamped to the string and
    swapped when out of order; without [stop] the end is the length. *)
Definition jsSubstring (s : string) (start : Z) (stop : option Z) : string :=
  let len := String.length s in
  let a := clampIndex start len in
  let b := match stop with
           | Some e => clampIndex e len
           | None => len
           end in
  String.substring (Nat.min a b) (Nat.max a b - Nat.min a b) s.

(** [s.charAt(0)] *)
Definition charAt0 (s : string) : string :=
  match s with
  | EmptyString => EmptyString
  | String c _ => String c EmptyString
  end.

Definition upperAscii (c : ascii) : ascii :=
  let n := nat_of_ascii c in
  if (Nat.leb 97 n && Nat.leb n 122)%bool then ascii_of_nat (n - 32) else c.

Fixpoint toUpperCase (s : string) : string :=
  match s with
  | EmptyString => EmptyString
  | String c rest => String (upperAscii c) (toUpperCase rest)
  end.

Definition getRiskAlertClass (riskLevel : jsval) : string :=
  match riskLevel with
  | JStr s =>
      if String.eqb s "low" then "success"
      else if String.eqb s "medium" then "warning"
      else if String.eqb s "high" then "danger"
      else "info"
  | _ => "info"
  end.

Definition capitalizeFirstLetter (s : string) : string :=
  toUpperCase (charAt0 s) ++ jsSubstring s 1 None.

(** [formatAddress]: [address] is the global [walletAddress], null or a
    string. *)
Definition formatAddress (address : option string) : string :=
  match address with
  | None => EmptyString
  | Some s =>
      if String.eqb s EmptyString then EmptyString
      else jsSubstring s 0 (Some 6) ++ "..."
           ++ jsSubstring s (Z.of_nat (String.length s) - 4) None
  end.

(** ** Elements *)

(** [classList.add]: a token that is there is not added again. *)
Definition classAdd (c : string) (l : list string) : list string :=
  if existsb (String.eqb c) l then l else (l ++ [c])%list.

(** [classList.remove], of one token or more. *)
Definition classRemove (cs : list string) (l : list string) : list string :=
  filter (fun x => negb (existsb (String.eqb x) cs)) l.

Definition classContains (c : string) (l : list string) : bool :=
  existsb (String.eqb c) l.

Record element : Type := mkElement {
  textContent : string;
  innerHTML : string;
  classList : list string;
  disabled : bool
}.

Definition setText (t : string) (e : element) : element :=
  mkElement t (innerHTML e) (classList e) (disabled e).

Definition setHTML (h : string) (e : element) : element :=
  mkElement (textContent e) h (classList e) (disabled e).

Definition setClasses (l : list string) (e : element) : element :=
  mkElement (textContent e) (innerHTML e) l (disabled e).

Definition setDisabled (b : bool) (e : element) : element :=
  mkElement (textContent e) (innerHTML e) (classList e) b.

(** ** The state of the page *)

Record page : Type := mkPage {
  walletAddress : option string;       (* let walletAddress = null *)
  chainId : jsval;                     (* let chainId = null *)
  currentPrice : jsval;                (* let currentPrice = 0 *)
  web3 : bool;                         (* whether [new Web3] was made *)
  connectWalletBtn : element;
  disconnectWalletBtn : element;
  walletStatusElement : element;
  investButtons : list element;
  transactionContainer : element;
  transactionStatus : element;
  modalMessage : element;
  txModalShown : bool;                 (* txModal.show() and .hide() *)
  alerts : list string;                (* the calls of [alert], in order *)
  consoleErrors : list string          (* the labels of [console.error] *)
}.

(** What the wallet provider answers with when it refuses. *)
Inductive thrown : Type :=
| RpcError (code : Z) (message : string)   (* the provider's error *)
| OtherError (message : string).           (* any other Error *)

Definition thrownMessage (f : thrown) : string :=
  match f with
  | RpcError _ m => m
  | OtherError m => m
  end.

Inductive result (A : Type) : Type :=
| Done (a : A)
| Failed (f : thrown).
Arguments Done {A} a.
Arguments Failed {A} f.

(** [window.ethereum.request], method by method. *)
Record Wallet : Type := mkWallet {
  eth_accounts : result (list string);
  eth_requestAccounts : result (list string);
  eth_chainId : result jsval;
  wallet_switchEthereumChain : result unit;
  wallet_addEthereumChain : result unit
}.

Record Browser : Type := mkBrowser {
  ethereum : option Wallet;            (* window.ethereum *)
  browserClock : Z;                    (* new Date() in the browser *)
  network : request -> option thrown; (* [Some f]: the fetch rejects *)
  serverEnv : request -> Env           (* what the server meets *)
}.

(** The page, the server behind it, and the requests made to the wallet. *)
Record site : Type := mkSite {
  pg : page;
  server : world;
  walletCalls : list string
}.

Definition C (A : Type) : Type := site -> result A * site.

Definition cret {A} (a : A) : C A := fun s => (Done a, s).

Definition cbind {A B} (m : C A) (k : A -> C B) : C B :=
  fun s =>
    match m s with
    | (Done a, s') => k a s'
    | (Failed f, s') => (Failed f, s')
    end.

Definition cthrow {A} (f : thrown) : C A := fun s => (Failed f, s).

Definition ctry {A} (body : C A) (handler : thrown -> C A) : C A :=
  fun s =>
    match body s with
    | (Done a, s') => (Done a, s')
    | (Failed f, s') => handler f s'
    end.

Definition onPage (f : page -> page) : C unit :=
  fun s => (Done tt, mkSite (f (pg s)) (server s) (walletCalls s)).

Definition getPage : C page := fun s => (Done (pg s), s).

Declare Scope client_scope.
Delimit Scope client_scope with client.
Notation "x <- c ;; k" := (cbind c (fun x => k))
  (at level 100, c at next level, right associativity) : client_scope.
Notation "c ;;; k" := (cbind c (fun _ => k))
  (at level 100, right associativity) : client_scope.

(** ** What the page shows *)

Definition connectedStatus (shown : string) : string :=
  nl ++ "      <div class=" ++ dq ++ "alert alert-success" ++ dq ++ ">" ++
  nl ++ "        <small>Connected Address: " ++ shown ++ "</small>" ++ nl ++
  "        <small class=" ++ dq ++ "d-block mt-1" ++ dq ++
  ">Network: Sonic Chain</small>" ++ nl ++ "      </div>" ++ nl ++ "    ".

Definition pleaseConnectStatus : string :=
  nl ++ "      <div class=" ++ dq ++ "alert alert-secondary" ++ dq ++ ">" ++
  nl ++ "        Please connect your wallet to invest." ++ nl ++
  "      </div>" ++ nl ++ "    ".

Definition disconnectedStatus : string :=
  nl ++ "    <div class=" ++ dq ++ "alert alert-secondary" ++ dq ++ ">" ++
  nl ++ "      Wallet disconnected. Connect again to invest." ++ nl ++
  "    </div>" ++ nl ++ "  ".

Definition switchChainStatus : string :=
  nl ++ "      <div class=" ++ dq ++ "alert alert-warning" ++ dq ++ ">" ++
  nl ++ "        Please switch to Sonic Chain in your wallet." ++ nl ++
  "      </div>" ++ nl ++ "    ".

Definition connectFailedStatus (message : string) : string :=
  nl ++ "      <div class=" ++ dq ++ "alert alert-danger" ++ dq ++ ">" ++
  nl ++ "        Failed to connect wallet: " ++ message ++ nl ++
  "      </div>" ++ nl ++ "    ".

Definition successStatus (amount riskLevel hash : string) : string :=
  nl ++ "        <h5>Investment Successful!</h5>" ++ nl ++
  "        <p>You have invested $" ++ amount ++ " at " ++ riskLevel ++
  " risk level.</p>" ++ nl ++ "        <p>Transaction Hash: <a href=" ++
  dq ++ "https://explorer.blaze.soniclabs.com/tx/" ++ hash ++ dq ++
  " target=" ++ dq ++ "_blank" ++ dq ++ ">" ++ nl ++ "          " ++
  jsSubstring hash 0 (Some 10) ++ "..." ++
  jsSubstring hash (Z.of_nat (String.length hash) - 8) None ++ nl ++
  "        </a></p>" ++ nl ++ "      ".

Definition failedStatus (message : string) : string :=
  nl ++ "      <h5>Investment Failed</h5>" ++ nl ++ "      <p>" ++ message ++
  "</p>" ++ nl ++ "      <p>Please try again later.</p>" ++ nl ++ "    ".

(** ** Writing the globals and the elements *)

Definition withWalletAddress (a : option string) (p : page) : page :=
  mkPage a (chainId p) (currentPrice p) (web3 p) (connectWalletBtn p)
    (disconnectWalletBtn p) (walletStatusElement p) (investButtons p)
    (transactionContainer p) (transactionStatus p) (modalMessage p)
    (txModalShown p) (alerts p) (consoleErrors p).

Definition withChainId (c : jsval) (p : page) : page :=
  mkPage (walletAddress p) c (currentPrice p) (web3 p) (connectWalletBtn p)
    (disconnectWalletBtn p) (walletStatusElement p) (investButtons p)
    (transactionContainer p) (transactionStatus p) (modalMessage p)
    (txModalShown p) (alerts p) (consoleErrors p).

Definition withWeb3 (p : page) : page :=
  mkPage (walletAddress p) (chainId p) (currentPrice p) true
    (connectWalletBtn p) (disconnectWalletBtn p) (walletStatusElement p)
    (investButtons p) (transactionContainer p) (transactionStatus p)
    (modalMessage p) (txModalShown p) (alerts p) (consoleErrors p).

Definition withConnectWalletBtn (e : element) (p : page) : page :=
  mkPage (walletAddress p) (chainId p) (currentPrice p) (web3 p) e
    (disconnectWalletBtn p) (walletStatusElement p) (investButtons p)
    (transactionContainer p) (transactionStatus p) (modalMessage p)
    (txModalShown p) (alerts p) (consoleErrors p).

Definition withDisconnectWalletBtn (e : element) (p : page) : page :=
  mkPage (walletAddress p) (chainId p) (currentPrice p) (web3 p)
    (connectWalletBtn p) e (walletStatusElement p) (investButtons p)
    (transactionContainer p) (transactionStatus p) (modalMessage p)
    (txModalShown p) (alerts p) (consoleErrors p).

Definition withWalletStatus (e : element) (p : page) : page :=
  mkPage (walletAddress p) (chainId p) (currentPrice p) (web3 p)
    (connectWalletBtn p) (disconnectWalletBtn p) e (investButtons p)
    (transactionContainer p) (transactionStatus p) (modalMessage p)
    (txModalShown p) (alerts p) (consoleErrors p).

Definition withInvestButtons (l : list element) (p : page) : page :=
  mkPage (walletAddress p) (chainId p) (currentPrice p) (web3 p)
    (connectWalletBtn p) (disconnectWalletBtn p) (walletStatusElement p) l
    (transactionContainer p) (transactionStatus p) (modalMessage p)
    (txModalShown p) (alerts p) (consoleErrors p).

Definition withTransactionContainer (e : element) (p : page) : page :=
  mkPage (walletAddress p) (chainId p) (currentPrice p) (web3 p)
    (connectWalletBtn p) (disconnectWalletBtn p) (walletStatusElement p)
    (investButtons p) e (transactionStatus p) (modalMessage p)
    (txModalShown p) (alerts p) (consoleErrors p).

Definition withTransactionStatus (e : element) (p : page) : page :=
  mkPage (walletAddress p) (chainId p) (currentPrice p) (web3 p)
    (connectWalletBtn p) (disconnectWalletBtn p) (walletStatusElement p)
    (investButtons p) (transactionContainer p) e (modalMessage p)
    (txModalShown p) (alerts p) (consoleErrors p).

Definition withModalMessage (e : element) (p : page) : page :=
  mkPage (walletAddress p) (chainId p) (currentPrice p) (web3 p)
    (connectWalletBtn p) (disconnectWalletBtn p) (walletStatusElement p)
    (investButtons p) (transactionContainer p) (transactionStatus p) e
    (txModalShown p) (alerts p) (consoleErrors p).

Definition withModalShown (b : bool) (p : page) : page :=
  mkPage (walletAddress p) (chainId p) (currentPrice p) (web3 p)
    (connectWalletBtn p) (disconnectWalletBtn p) (walletStatusElement p)
    (investButtons p) (transactionContainer p) (transactionStatus p)
    (modalMessage p) b (alerts p) (consoleErrors p).

(** [alert(message)] *)
Definition alert (message : string) (p : page) : page :=
  mkPage (walletAddress p) (chainId p) (currentPrice p) (web3 p)
    (connectWalletBtn p) (disconnectWalletBtn p) (walletStatusElement p)
    (investButtons p) (transactionContainer p) (transactionStatus p)
    (modalMessage p) (txModalShown p) (alerts p ++ [message])
    (consoleErrors p).

(** [console.error(label, ...)] *)
Definition logError (label : string) (p : page) : page :=
  mkPage (walletAddress p) (chainId p) (currentPrice p) (web3 p)
    (connectWalletBtn p) (disconnectWalletBtn p) (walletStatusElement p)
    (investButtons p) (transactionContainer p) (transactionStatus p)
    (modalMessage p) (txModalShown p) (alerts p)
    (consoleErrors p ++ [label]).

(** [!walletAddress] *)
Definition noWallet (p : page) : bool :=
  match walletAddress p with
  | None => true
  | Some a => String.eqb a EmptyString
  end.

(** The global [walletAddress] as a value. *)
Definition walletValue (p : page) : jsval :=
  match walletAddress p with
  | None => JNull
  | Some a => JStr a
  end.

(** ** The wallet and its buttons *)

Definition SONIC_CHAIN_ID : string := "57054".

Definition updateWalletUI (connected : bool) (p : page) : page :=
  if connected
  then
    let p1 := withConnectWalletBtn
                (setDisabled true
                   (setClasses
                      (classAdd "btn-success"
                         (classRemove [ "btn-light"; "btn-primary" ]
                            (classList (connectWalletBtn p))))
                      (setText "Wallet Connected" (connectWalletBtn p)))) p in
    let p2 := withDisconnectWalletBtn
                (setClasses (classRemove [ "d-none" ]
                               (classList (disconnectWalletBtn p1)))
                            (disconnectWalletBtn p1)) p1 in
    let p3 := withWalletStatus
                (setHTML (connectedStatus (formatAddress (walletAddress p2)))
                         (walletStatusElement p2)) p2 in
    withInvestButtons (map (setDisabled false) (investButtons p3)) p3
  else
    let p1 := withConnectWalletBtn
                (setDisabled false
                   (setClasses
                      (classAdd "btn-light"
                         (classRemove [ "btn-success" ]
                            (classList (connectWalletBtn p))))
                      (setText "Connect Wallet" (connectWalletBtn p)))) p in
    let p2 := withDisconnectWalletBtn
                (setClasses (classAdd "d-none"
                               (classList (disconnectWalletBtn p1)))
                            (disconnectWalletBtn p1)) p1 in
    let p3 := withWalletStatus
                (setHTML pleaseConnectStatus (walletStatusElement p2)) p2 in
    withInvestButtons (map (setDisabled true) (investButtons p3)) p3.

Definition handleAccountsChanged (accounts : list string) (p : page) : page :=
  match accounts with
  | [] => updateWalletUI false (withWalletAddress None p)
  | first :: _ => updateWalletUI true (withWalletAddress (Some first) p)
  end.

Definition disconnectWallet (p : page) : page :=
  let p1 := updateWalletUI false (withWalletAddress None p) in
  let p2 := withWalletStatus
              (setHTML disconnectedStatus (walletStatusElement p1)) p1 in
  alert "Wallet disconnected from this site. Note that you may still be connected in your MetaMask extension." p2.

(** [await window.ethereum.request({ method, ... })] *)
Definition ethereumRequest {A : Type} (br : Browser) (method : string)
    (answer : Wallet -> result A) : C A :=
  fun s =>
    match ethereum br with
    | None =>
        (Failed (OtherError "Cannot read properties of undefined (reading 'request')"), s)
    | Some provider =>
        (answer provider,
         mkSite (pg s) (server s) (walletCalls s ++ [method]))
    end.

(** [chainId !== SONIC_CHAIN_ID] *)
Definition notSonic (c : jsval) : bool :=
  match c with
  | JStr x => negb (String.eqb x SONIC_CHAIN_ID)
  | _ => true
  end.

Definition checkAndSwitchChain (br : Browser) : C bool :=
  ctry
    ((c <- ethereumRequest br "eth_chainId" eth_chainId ;;
      onPage (withChainId c) ;;;
      (if notSonic c
       then ctry
              (ethereumRequest br "wallet_switchEthereumChain" wallet_switchEthereumChain)
              (fun switchError =>
                 match switchError with
                 | RpcError 4902 _ =>
                     ethereumRequest br "wallet_addEthereumChain" wallet_addEthereumChain
                 | _ => cthrow switchError
                 end)
       else cret tt) ;;;
      cret true)%client)
    (fun error =>
       (onPage (logError "Error switching chain:") ;;;
        onPage (fun p => withWalletStatus
                           (setHTML switchChainStatus (walletStatusElement p)) p) ;;;
        cret false)%client).

Definition checkWalletConnection (br : Browser) : C unit :=
  match ethereum br with
  | None => cret tt
  | Some _ =>
      ctry
        ((onPage withWeb3 ;;;
          accounts <- ethereumRequest br "eth_accounts" eth_accounts ;;
          match accounts with
          | [] => cret tt
          | _ => onPage (handleAccountsChanged accounts)
          end)%client)
        (fun error => onPage (logError "Error checking wallet connection:"))
  end.

(** ** Talking to the server *)

Section WithServer.

Variable rt : Runtime.

(** [const response = await fetch(url, ...); const data = await
    response.json()]: the request is served by the handler of its route
    and [data] is the body of the response. *)
Definition fetch (br : Browser) (req : request) : C fieldsT :=
  fun s =>
    match network br req with
    | Some f => (Failed f, s)
    | None =>
        let (r, w') := handle rt (serverEnv br req) req (server s) in
        (Done (body r), mkSite (pg s) w' (walletCalls s))
    end.

Definition saveUserData (br : Browser) : C unit :=
  (p <- getPage ;;
   if noWallet p
   then cret tt
   else
     ctry
       (data <- fetch br
                  (PostUser
                     (jsonBody rt
                        [ ("walletAddress", walletValue p);
                          ("lastSeen",
                           JStr (rt_toISOString rt (browserClock br)));
                          ("chainId", chainId p) ])) ;;
        if falsy (field data "success")
        then onPage (logError "Error saving user data:")
        else cret tt)
       (fun error => onPage (logError "Error saving user data:")))%client.

Definition updateUserInvestment (br : Browser)
    (amount riskLevel transactionHash : jsval) : C unit :=
  (p <- getPage ;;
   if noWallet p
   then cret tt
   else
     ctry
       (data <- fetch br
                  (PostUserInvestment
                     (jsonBody rt
                        [ ("walletAddress", walletValue p);
                          ("investment",
                           JObj [ ("amount", amount);
                                  ("riskLevel", riskLevel);
                                  ("transactionHash", transactionHash);
                                  ("timestamp",
                                   JStr (rt_toISOString rt (browserClock br)));
                                  ("tokenPrice", currentPrice p) ]) ])) ;;
        if falsy (field data "success")
        then onPage (logError "Error updating investment history:")
        else cret tt)
       (fun error => onPage (logError "Error updating investment history:")))%client.

(** [connectWallet] returns nothing without a provider, true when the
    accounts were granted, false when anything was thrown. *)
Definition connectWallet (br : Browser) : C (option bool) :=
  match ethereum br with
  | None =>
      (onPage (alert "Please install MetaMask to use this feature") ;;;
       cret None)%client
  | Some _ =>
      ctry
        ((onPage withWeb3 ;;;
          accounts <- ethereumRequest br "eth_requestAccounts" eth_requestAccounts ;;
          onPage (handleAccountsChanged accounts) ;;;
          _ <- checkAndSwitchChain br ;;
          saveUserData br ;;;
          cret (Some true))%client)
        (fun error =>
           (onPage (logError "Error connecting to wallet:") ;;;
            onPage (fun p => withWalletStatus
                               (setHTML (connectFailedStatus (thrownMessage error))
                                        (walletStatusElement p)) p) ;;;
            cret (Some false))%client)
  end.

(** [new Error(data.message || 'Transaction failed')] *)
Definition transactionError (data : fieldsT) : thrown :=
  OtherError
    (match js_or (field data "message") (JStr "Transaction failed") with
     | JStr m => m
     | v => rt_ToString rt v
     end).

(** [error.message || 'An error occurred while processing your
    investment.'] *)
Definition shownMessage (error : thrown) : string :=
  if String.eqb (thrownMessage error) EmptyString
  then "An error occurred while processing your investment."
  else thrownMessage error.

(** The success branch of [processInvestment], up to the history. *)
Definition showSuccess (amount riskLevel : jsval) (data : fieldsT) : C unit :=
  (onPage (fun p => withTransactionContainer
                      (setClasses (classRemove [ "d-none" ]
                                     (classList (transactionContainer p)))
                                  (transactionContainer p)) p) ;;;
   onPage (fun p => withTransactionStatus
                      (setClasses
                         (classAdd "alert-success"
                            (classRemove [ "alert-danger" ]
                               (classList (transactionStatus p))))
                         (transactionStatus p)) p) ;;;
   match field data "transactionHash" with
   | JStr hash =>
       onPage (fun p => withTransactionStatus
                          (setHTML (successStatus (rt_ToString rt amount)
                                      (rt_ToString rt riskLevel) hash)
                                   (transactionStatus p)) p)
   | JUndefined | JNull =>
       cthrow (OtherError "Cannot read properties of undefined (reading 'substring')")
   | _ => cthrow (OtherError "data.transactionHash.substring is not a function")
   end)%client.

(** The catch block of [processInvestment]. *)
Definition showFailure (error : thrown) : C unit :=
  (onPage (logError "Investment error:") ;;;
   onPage (withModalShown false) ;;;
   onPage (fun p => withTransactionContainer
                      (setClasses (classRemove [ "d-none" ]
                                     (classList (transactionContainer p)))
                                  (transactionContainer p)) p) ;;;
   onPage (fun p => withTransactionStatus
                      (setHTML (failedStatus (shownMessage error))
                         (setClasses
                            (classAdd "alert-danger"
                               (classRemove [ "alert-success" ]
                                  (classList (transactionStatus p))))
                            (transactionStatus p))) p))%client.

Definition processInvestment (br : Browser) (amount riskLevel : jsval)
  : C unit :=
  (p <- getPage ;;
   proceed <- (if noWallet p
               then connected <- connectWallet br ;;
                    match connected with
                    | Some true => cret true
                    | _ =>
                        onPage (alert "Please connect your wallet to invest.") ;;;
                        cret false
                    end
               else cret true) ;;
   if negb proceed
   then cret tt
   else
     ctry
       (correctChain <- checkAndSwitchChain br ;;
        if negb correctChain
        then cret tt
        else
          onPage (fun p => withModalMessage
                             (setText ("Processing your $" ++ rt_ToString rt amount
                                       ++ " investment at "
                                       ++ rt_ToString rt riskLevel
                                       ++ " risk level...")
                                      (modalMessage p)) p) ;;;
          onPage (withModalShown true) ;;;
          p' <- getPage ;;
          data <- fetch br
                    (PostInvest
                       (jsonBody rt [ ("amount", amount);
                                      ("riskLevel", riskLevel);
                                      ("walletAddress", walletValue p') ])) ;;
          onPage (withModalShown false) ;;;
          if truthy (field data "success")
          then showSuccess amount riskLevel data ;;;
               updateUserInvestment br amount riskLevel
                 (field data "transactionHash")
          else cthrow (transactionError data))
       showFailure)%client.

End WithServer.

End Client.

(** The buttons and the status of the page agree with the wallet: the
    investment buttons are enabled, the connect button is disabled and
    green, and the disconnect button is shown exactly when a wallet
    address is set. *)
Definition walletShown (p : Client.page) : Prop :=
  let connected := match Client.walletAddress p with
                   | Some _ => true
                   | None => false
                   end in
  Forall (fun b => Client.disabled b = negb connected) (Client.investButtons p) /\
  Client.disabled (Client.connectWalletBtn p) = connected /\
  Client.classContains "d-none"
    (Client.classList (Client.disconnectWalletBtn p)) = negb connected /\
  Client.classContains "btn-success"
    (Client.classList (Client.connectWalletBtn p)) = connected /\
  Client.classContains "btn-light"
    (Client.classList (Client.connectWalletBtn p)) = negb connected.

(** A computation of the page that leaves one reading of the page as it
    is. *)
Definition keeps {X A : Type} (f : Client.page -> X) (m : Client.C A) : Prop :=
  forall s, f (Client.pg (snd (m s))) = f (Client.pg s).

(** A computation of the page that does not throw. *)
Definition completes {A : Type} (m : Client.C A) : Prop :=
  forall s, exists a, fst (m s) = Client.Done a.

(** What [walletShown] reads of a page. *)
Definition walletView (p : Client.page)
  : option string * list Client.element * Client.element * Client.element :=
  (Client.walletAddress p, Client.investButtons p,
   Client.connectWalletBtn p, Client.disconnectWalletBtn p).


(** The body of the POST /api/invest that the page sends for a numeric
    amount, a risk level and a wallet address. *)
Definition investBody (q : Q) (r a : string) : fieldsT :=
  [ ("amount", JNum q); ("riskLevel", JStr r); ("walletAddress", JStr a) ].

(** A page, a wallet and a browser to run the script on. *)
Definition demoButton (label : string) (classes : list string) : Client.element :=
  Client.mkElement label EmptyString classes true.

Definition demoPage : Client.page :=
  Client.mkPage None JNull (JNum 0) false
    (Client.mkElement "Connect Wallet" EmptyString [ "btn"; "btn-light" ] false)
    (Client.mkElement "Disconnect" EmptyString [ "btn"; "d-none" ] false)
    (Client.mkElement EmptyString EmptyString [] false)
    [ demoButton "Invest $100" [ "invest-btn" ];
      demoButton "Invest $500" [ "invest-btn" ] ]
    (Client.mkElement EmptyString EmptyString [ "d-none" ] false)
    (Client.mkElement EmptyString EmptyString [ "alert" ] false)
    (Client.mkElement EmptyString EmptyString [] false)
    false [] [].

Definition demoWallet : Client.Wallet :=
  Client.mkWallet (Client.Done [ "0xABC" ]) (Client.Done [ "0xABC" ])
    (Client.Done (JStr "57054")) (Client.Done tt) (Client.Done tt).

Definition demoBrowser : Client.Browser :=
  Client.mkBrowser (Some demoWallet) 5000 (fun _ => None) (fun _ => demoEnv).

(** A runtime whose [new Date] reads back the time of [demoBrowser]. *)
Definition browserRuntime : Runtime :=
  mkRuntime (rt_ToString demoRuntime) (rt_toISOString demoRuntime)
            (fun v => match v with
                      | JStr _ => Some 5000
                      | JNum q => Some (Qnum q)
                      | _ => None
                      end)
            (rt_castTo demoRuntime) true.

Definition demoSite : Client.site := Client.mkSite demoPage emptyWorld [].

(** The page once the wallet has given its account. *)
Definition connectedSite : Client.site :=
  Client.mkSite (Client.handleAccountsChanged [ "0xABC" ] demoPage)
                emptyWorld [].

(** A wallet service that refuses the transfer. *)
Definition refusingEnv : Env :=
  mkEnv (clock demoEnv) (priceApi demoEnv) (analyzeTokenRisk demoEnv)
        (fun _ => Throw (JsError "insufficient funds")) None.

(** A database that is down. *)
Definition downEnv : Env :=
  mkEnv (clock demoEnv) (priceApi demoEnv) (analyzeTokenRisk demoEnv)
        (sendTransaction demoEnv) (Some (JsError "connection refused")).

(** A price provider that is down, and an analysis that fails. *)
Definition offlineEnv : Env :=
  mkEnv (clock demoEnv) (Throw (JsError "Network Error"))
        (Throw (JsError "no data")) (sendTransaction demoEnv) None.

(** * Properties *)

(** ** Fields and documents *)

Lemma lookup_setField_same (k : string) (v : jsval) (d : document) :
  lookup k (setField k v d) = Some v.
Proof.
  induction d as [|[k' v'] rest IH]; simpl.
  - now rewrite String.eqb_refl.
  - destruct (String.eqb k k') eqn:E; simpl.
    + now rewrite String.eqb_refl.
    + now rewrite E.
Qed.

Lemma lookup_setField_other (k k' : string) (v : jsval) (d : document) :
  k <> k' -> lookup k' (setField k v d) = lookup k' d.
Proof.
  intros Hne.
  induction d as [|[k0 v0] rest IH]; simpl.
  - destruct (String.eqb k' k) eqn:E; [|reflexivity].
    apply String.eqb_eq in E. congruence.
  - destruct (String.eqb k k0) eqn:E; simpl.
    + apply String.eqb_eq in E. subst k0.
      destruct (String.eqb k' k) eqn:E'; [|reflexivity].
      apply String.eqb_eq in E'. congruence.
    + now rewrite IH.
Qed.

Lemma field_setField_other (k k' : string) (v : jsval) (d : document) :
  k <> k' -> field (setField k v d) k' = field d k'.
Proof.
  intros Hne. unfold field. now rewrite lookup_setField_other.
Qed.

Lemma field_setField_same (k : string) (v : jsval) (d : document) :
  field (setField k v d) k = v.
Proof.
  unfold field. now rewrite lookup_setField_same.
Qed.

Lemma matchesWallet_touch (a : string) (v : jsval) (d : document) :
  matchesWallet a (setField "lastSeen" v d) = matchesWallet a d.
Proof.
  unfold matchesWallet. now rewrite field_setField_other.
Qed.

Lemma matchesWallet_field (a : string) (d : document) :
  matchesWallet a d = true <-> field d "walletAddress" = JStr a.
Proof.
  unfold matchesWallet. split.
  - destruct (field d "walletAddress"); try discriminate.
    intros E. apply String.eqb_eq in E. now subst.
  - intros ->. apply String.eqb_refl.
Qed.

Lemma matchesWallet_unique (a b : string) (d : document) :
  matchesWallet a d = true -> matchesWallet b d = true -> a = b.
Proof.
  rewrite !matchesWallet_field. congruence.
Qed.

(** ** Looking a wallet up *)

Lemma findDoc_matches (a : string) (c : list document) (d : document) :
  findDoc a c = Some d -> In d c /\ matchesWallet a d = true.
Proof.
  induction c as [|x rest IH]; simpl; [discriminate|].
  destruct (matchesWallet a x) eqn:E.
  - intros [= <-]. auto.
  - intros H. destruct (IH H). auto.
Qed.

Lemma findDoc_none (a : string) (c : list document) :
  findDoc a c = None <-> Forall (fun d => matchesWallet a d = false) c.
Proof.
  induction c as [|x rest IH]; simpl.
  - split; auto.
  - destruct (matchesWallet a x) eqn:E; split.
    + discriminate.
    + intros H. inversion H; congruence.
    + intros H. constructor; [assumption | now apply IH].
    + intros H. inversion H. now apply IH.
Qed.

Lemma findDoc_app (a : string) (c : list document) (d : document) :
  findDoc a (c ++ [d])%list =
  match findDoc a c with
  | Some x => Some x
  | None => if matchesWallet a d then Some d else None
  end.
Proof.
  induction c as [|x rest IH]; simpl.
  - reflexivity.
  - destruct (matchesWallet a x); [reflexivity | apply IH].
Qed.

Lemma findDoc_replaceFirst_same (a : string) (c : list document)
    (d d' : document) :
  findDoc a c = Some d ->
  matchesWallet a d' = true ->
  findDoc a (replaceFirst a d' c) = Some d'.
Proof.
  induction c as [|x rest IH]; simpl; [discriminate|].
  destruct (matchesWallet a x) eqn:E; simpl.
  - intros _ ->. reflexivity.
  - intros H H'. rewrite E. now apply IH.
Qed.

Lemma findDoc_replaceFirst_other (a b : string) (c : list document)
    (d d' : document) :
  findDoc a c = Some d ->
  matchesWallet b d' = matchesWallet b d ->
  a <> b ->
  findDoc b (replaceFirst a d' c) = findDoc b c.
Proof.
  intros Hfind Hsame Hne.
  induction c as [|x rest IH]; simpl in *; [reflexivity|].
  destruct (matchesWallet a x) eqn:E; simpl.
  - injection Hfind as <-. rewrite Hsame.
    destruct (matchesWallet b x) eqn:E'; [|reflexivity].
    exfalso. apply Hne. eapply matchesWallet_unique; eassumption.
  - destruct (matchesWallet b x); [reflexivity | now apply IH].
Qed.

Lemma length_replaceFirst (a : string) (d' : document) (c : list document) :
  length (replaceFirst a d' c) = length c.
Proof.
  induction c as [|x rest IH]; simpl; [reflexivity|].
  destruct (matchesWallet a x); simpl; congruence.
Qed.

Lemma map_replaceFirst {A} (f : document -> A) (a : string)
    (d d' : document) (c : list document) :
  findDoc a c = Some d -> f d' = f d ->
  map f (replaceFirst a d' c) = map f c.
Proof.
  induction c as [|x rest IH]; simpl; [reflexivity|].
  destruct (matchesWallet a x); simpl.
  - intros [= ->] ->. reflexivity.
  - intros H H'. now rewrite IH.
Qed.

(** ** What MongoDB does with an update of [lastSeen] alone *)

Lemma mongo_write_rejected (env : Env) (a : string) (u : update)
    (soi : fieldsT) (opts : queryOptions) (w : world) (e : exn) :
  mongo env = Some e ->
  mongoFindOneAndUpdate env a u soi opts w =
  (Throw e, mkWorld (users w) (clockReads w) (trace w ++ [EvDbWrite a])).
Proof.
  intros H. unfold mongoFindOneAndUpdate, bind, emit. simpl.
  now rewrite H.
Qed.

Lemma mongo_write_found (env : Env) (a : string) (t : Z) (soi : fieldsT)
    (opts : queryOptions) (w : world) (d : document) :
  mongo env = None ->
  findDoc a (users w) = Some d ->
  mongoFindOneAndUpdate env a (seenUpdate t) soi opts w =
  (Ok (Some (if o_new opts then touch t d else d)),
   mkWorld (replaceFirst a (touch t d) (users w)) (clockReads w)
           (trace w ++ [EvDbWrite a])).
Proof.
  intros Hm Hf.
  unfold mongoFindOneAndUpdate, bind, emit, getUsers, putUsers, liftOutcome, ret.
  simpl. rewrite Hm. simpl. rewrite Hf. reflexivity.
Qed.

Lemma mongo_write_absent (env : Env) (a : string) (t : Z) (soi : fieldsT)
    (opts : queryOptions) (w : world) :
  mongo env = None ->
  findDoc a (users w) = None ->
  o_upsert opts = false ->
  mongoFindOneAndUpdate env a (seenUpdate t) soi opts w =
  (Ok None,
   mkWorld (users w) (clockReads w) (trace w ++ [EvDbWrite a])).
Proof.
  intros Hm Hf Hu.
  unfold mongoFindOneAndUpdate, bind, emit, getUsers, putUsers, liftOutcome, ret.
  simpl. rewrite Hm. simpl. rewrite Hf, Hu. reflexivity.
Qed.

Lemma mongo_write_upsert (env : Env) (a : string) (t : Z) (soi : fieldsT)
    (opts : queryOptions) (w : world) :
  mongo env = None ->
  findDoc a (users w) = None ->
  o_upsert opts = true ->
  mongoFindOneAndUpdate env a (seenUpdate t) soi opts w =
  (Ok (if o_new opts then Some (inserted a t soi) else None),
   mkWorld (users w ++ [inserted a t soi]) (clockReads w)
           (trace w ++ [EvDbWrite a])).
Proof.
  intros Hm Hf Hu.
  unfold mongoFindOneAndUpdate, bind, emit, getUsers, putUsers, liftOutcome, ret.
  simpl. rewrite Hm. simpl. rewrite Hf, Hu. reflexivity.
Qed.

(** ** The Mongoose document of a record of the User model *)

Lemma hydrate_User (env : Env) (d : document) (w : world) :
  hydrate env userSchema d w =
  (Ok (hydrated env (clockReads w) d),
   mkWorld (users w) (defaultsTaken d + clockReads w) (trace w)).
Proof.
  unfold hydrate, hydrated, defaultsTaken, userSchema, firstSeenOf, lastSeenOf.
  cbn [sp_defaultNow sp_name andb].
  destruct (isUndefined (field d "firstSeen")) eqn:Hf.
  - unfold bind at 1. unfold now at 1.
    rewrite field_setField_other by discriminate.
    destruct (isUndefined (field d "lastSeen")); reflexivity.
  - destruct (isUndefined (field d "lastSeen")); [reflexivity|].
    destruct w; reflexivity.
Qed.

Lemma hydrate_keeps (env : Env) (sch : schema) (d : document) (w : world) :
  exists d' w',
    hydrate env sch d w = (Ok d', w') /\
    users w' = users w /\ trace w' = trace w /\
    (clockReads w <= clockReads w')%nat /\
    forall k,
      (forall p, In p sch -> sp_defaultNow p = true -> sp_name p <> k) ->
      lookup k d' = lookup k d.
Proof.
  revert d w. induction sch as [|p rest IH]; intros d w; simpl.
  - exists d, w. repeat split; auto.
  - destruct (sp_defaultNow p && isUndefined (field d (sp_name p)))%bool eqn:E.
    + unfold bind at 1. unfold now at 1.
      destruct (IH (setField (sp_name p)
                             (JDate (Some (clock env (clockReads w)))) d)
                   (mkWorld (users w) (S (clockReads w)) (trace w)))
        as [d' [w' [Hrun [Hu [Ht [Hc Hk]]]]]].
      exists d', w'. simpl in *.
      split; [assumption|]. split; [assumption|]. split; [assumption|].
      split; [lia|].
      intros k Hno. rewrite Hk by (intros q Hq; apply Hno; now right).
      apply lookup_setField_other.
      apply andb_prop in E as [E _].
      intros <-. now apply (Hno p (or_introl eq_refl) E).
    + destruct (IH d w) as [d' [w' [Hrun [Hu [Ht [Hc Hk]]]]]].
      exists d', w'. (split; [assumption|]). (split; [assumption|]).
      (split; [assumption|]). (split; [assumption|]).
      intros k Hno. apply Hk. intros q Hq. apply Hno. now right.
Qed.

Lemma hydrated_storesDates (env : Env) (n : nat) (d : document) :
  storesDates d -> hydrated env n d = d /\ defaultsTaken d = 0%nat.
Proof.
  intros [Hf Hl]. unfold hydrated, defaultsTaken. now rewrite Hf, Hl.
Qed.

Lemma hydrated_fields (env : Env) (n : nat) (d : document) (k : string) :
  k <> "firstSeen" -> k <> "lastSeen" ->
  field (hydrated env n d) k = field d k.
Proof.
  intros Hf Hl. unfold hydrated.
  destruct (isUndefined (firstSeenOf d)), (isUndefined (lastSeenOf d));
    repeat rewrite field_setField_other by congruence; reflexivity.
Qed.

Lemma hydrated_seen (env : Env) (n : nat) (d : document) :
  firstSeenOf (hydrated env n d) = seenOr (firstSeenOf d) (clock env n) /\
  lastSeenOf (hydrated env n d) =
    seenOr (lastSeenOf d)
           (clock env (if isUndefined (firstSeenOf d) then S n else n)).
Proof.
  unfold hydrated, seenOr, firstSeenOf, lastSeenOf.
  destruct (isUndefined (field d "firstSeen")) eqn:Hf,
           (isUndefined (field d "lastSeen")) eqn:Hl;
    repeat first [ rewrite field_setField_same
                 | rewrite field_setField_other by discriminate ];
    rewrite ?Hf, ?Hl; split; try reflexivity;
    destruct (field d "firstSeen"), (field d "lastSeen");
    try discriminate; reflexivity.
Qed.

Lemma storesDates_touch (t : Z) (d : document) :
  isUndefined (firstSeenOf d) = false -> storesDates (touch t d).
Proof.
  intros H. split.
  - unfold touch, firstSeenOf in *.
    now rewrite field_setField_other by discriminate.
  - unfold touch, lastSeenOf. now rewrite field_setField_same.
Qed.

Lemma userWrite_rejected (env : Env) (a : string) (u : update)
    (soi : fieldsT) (opts : queryOptions) (w : world) (e : exn) :
  mongo env = Some e ->
  userWrite env a u soi opts w =
  (Throw e, mkWorld (users w) (clockReads w) (trace w ++ [EvDbWrite a])).
Proof.
  intros H. unfold userWrite, bind.
  now rewrite (mongo_write_rejected _ _ _ _ _ _ _ H).
Qed.

Lemma userWrite_found (env : Env) (a : string) (t : Z) (soi : fieldsT)
    (opts : queryOptions) (w : world) (d : document) :
  mongo env = None ->
  findDoc a (users w) = Some d ->
  userWrite env a (seenUpdate t) soi opts w =
  (Ok (Some (hydrated env (clockReads w) (if o_new opts then touch t d else d))),
   mkWorld (replaceFirst a (touch t d) (users w))
           (defaultsTaken (if o_new opts then touch t d else d) + clockReads w)
           (trace w ++ [EvDbWrite a])).
Proof.
  intros Hm Hf. unfold userWrite. unfold bind at 1.
  rewrite (mongo_write_found _ _ _ _ _ _ _ Hm Hf).
  unfold hydrateResult, bind. rewrite hydrate_User. reflexivity.
Qed.

Lemma userWrite_absent (env : Env) (a : string) (t : Z) (soi : fieldsT)
    (opts : queryOptions) (w : world) :
  mongo env = None ->
  findDoc a (users w) = None ->
  o_upsert opts = false ->
  userWrite env a (seenUpdate t) soi opts w =
  (Ok None,
   mkWorld (users w) (clockReads w) (trace w ++ [EvDbWrite a])).
Proof.
  intros Hm Hf Hu. unfold userWrite. unfold bind at 1.
  now rewrite (mongo_write_absent _ _ _ _ _ _ Hm Hf Hu).
Qed.

Lemma userWrite_upsert (env : Env) (a : string) (t : Z) (soi : fieldsT)
    (opts : queryOptions) (w : world) :
  mongo env = None ->
  findDoc a (users w) = None ->
  o_upsert opts = true ->
  o_new opts = true ->
  userWrite env a (seenUpdate t) soi opts w =
  (Ok (Some (hydrated env (clockReads w) (inserted a t soi))),
   mkWorld (users w ++ [inserted a t soi])
           (defaultsTaken (inserted a t soi) + clockReads w)
           (trace w ++ [EvDbWrite a])).
Proof.
  intros Hm Hf Hu Hn. unfold userWrite. unfold bind at 1.
  rewrite (mongo_write_upsert _ _ _ _ _ _ Hm Hf Hu), Hn.
  unfold hydrateResult, bind. rewrite hydrate_User. reflexivity.
Qed.

Lemma lowerAscii_idem (c : ascii) : lowerAscii (lowerAscii c) = lowerAscii c.
Proof.
  destruct c as [[] [] [] [] [] [] [] []]; reflexivity.
Qed.

Lemma toLowerCase_idem (s : string) : toLowerCase (toLowerCase s) = toLowerCase s.
Proof.
  induction s as [|c rest IH]; simpl; [reflexivity|].
  now rewrite lowerAscii_idem, IH.
Qed.

(** ** What a step keeps *)

Lemma Forall_replaceFirst (Q : document -> Prop) (a : string)
    (d' : document) (c : list document) :
  Forall Q c -> Q d' -> Forall Q (replaceFirst a d' c).
Proof.
  intros Hc Hd. induction Hc as [|x rest Hx Hrest IH]; simpl.
  - constructor.
  - destruct (matchesWallet a x); constructor; assumption.
Qed.

Lemma firstSeenOf_touch (t : Z) (d : document) :
  firstSeenOf (touch t d) = firstSeenOf d.
Proof.
  unfold firstSeenOf, touch. now rewrite field_setField_other.
Qed.

Lemma investmentsOf_touch (t : Z) (d : document) :
  investmentsOf (touch t d) = investmentsOf d.
Proof.
  unfold investmentsOf, touch. now rewrite lookup_setField_other.
Qed.

Lemma lastSeenOf_touch (t : Z) (d : document) :
  lastSeenOf (touch t d) = JDate (Some t).
Proof.
  unfold lastSeenOf, touch. apply field_setField_same.
Qed.

Lemma walletAddress_touch (t : Z) (d : document) :
  field (touch t d) "walletAddress" = field d "walletAddress".
Proof.
  unfold touch. now rewrite field_setField_other.
Qed.

(** A step keeps every document there was, up to its [lastSeen]. *)
Lemma step_lookup (P : Z -> Prop) (c c' : list document) (a : string)
    (d : document) :
  usersStep P c c' ->
  findDoc a c = Some d ->
  exists d', findDoc a c' = Some d' /\
             (d' = d \/ exists t, P t /\ d' = touch t d).
Proof.
  intros [H | a0 d0 t Hf Ht H | a0 d0 Hf Hw Hl Hi H] Hd; subst c'.
  - exists d. auto.
  - destruct (String.eqb a0 a) eqn:E.
    + apply String.eqb_eq in E. subst a0.
      assert (d0 = d) by congruence. subst d0.
      exists (touch t d). split; [|right; eauto].
      eapply findDoc_replaceFirst_same; [eassumption|].
      unfold touch. rewrite matchesWallet_touch.
      now apply findDoc_matches in Hd.
    + apply String.eqb_neq in E.
      exists d. split; [|now left].
      rewrite findDoc_replaceFirst_other with (d := d0); auto.
      apply matchesWallet_touch.
  - exists d. split; [|now left].
    rewrite findDoc_app. now rewrite Hd.
Qed.


Lemma lowerKeyed_touch (t : Z) (d : document) :
  lowerKeyed d -> lowerKeyed (touch t d).
Proof.
  intros [s [Hs Hl]]. exists s. now rewrite walletAddress_touch.
Qed.

(** A step keeps the collection within its unique index. *)
Lemma step_wellFormed (P : Z -> Prop) (c c' : list document) :
  usersStep P c c' -> wellFormed c -> wellFormed c'.
Proof.
  intros [H | a d t Hf Ht H | a d Hf Hw Hl Hi H] [Hlow Hnd]; subst c'.
  - split; assumption.
  - split.
    + apply Forall_replaceFirst; [assumption|].
      apply lowerKeyed_touch.
      apply findDoc_matches in Hf as [Hin _].
      rewrite Forall_forall in Hlow. now apply Hlow.
    + rewrite map_replaceFirst with (d := d); auto.
      apply walletAddress_touch.
  - split.
    + apply Forall_app. split; [assumption|].
      constructor; [|constructor]. exists a. auto.
    + rewrite map_app. simpl. apply NoDup_app.
      * assumption.
      * constructor; [intros []|constructor].
      * intros k Hk [Hk'|[]]. subst k.
        apply in_map_iff in Hk as [x [Hx Hin]].
        apply findDoc_none in Hf. rewrite Forall_forall in Hf.
        specialize (Hf x Hin).
        rewrite Hw in Hx. apply matchesWallet_field in Hx. congruence.
Qed.

Lemma sameWalletCI_lowerKeyed (a : string) (d : document) :
  lowerKeyed d -> sameWalletCI a d = matchesWallet (toLowerCase a) d.
Proof.
  intros [s [Hs Hl]]. unfold sameWalletCI, matchesWallet.
  rewrite Hs, Hl. reflexivity.
Qed.

Lemma countWalletCI_none (a : string) (c : list document) :
  Forall lowerKeyed c ->
  findDoc (toLowerCase a) c = None ->
  countWalletCI a c = 0%nat.
Proof.
  unfold countWalletCI.
  induction 1 as [|x rest Hx Hrest IH]; simpl; [reflexivity|].
  rewrite (sameWalletCI_lowerKeyed a x Hx).
  destruct (matchesWallet (toLowerCase a) x); [discriminate | assumption].
Qed.

(** Within the unique index a wallet address, whatever its letter case,
    names one document at most. *)
Lemma wellFormed_count (a : string) (c : list document) :
  wellFormed c ->
  countWalletCI a c =
  match findDoc (toLowerCase a) c with Some _ => 1%nat | None => 0%nat end.
Proof.
  intros [Hlow Hnd].
  induction Hlow as [|x rest Hx Hrest IH]; simpl; [reflexivity|].
  inversion Hnd as [|k ks Hnotin Hnd']; subst.
  unfold countWalletCI in *. simpl.
  rewrite (sameWalletCI_lowerKeyed a x Hx).
  destruct (matchesWallet (toLowerCase a) x) eqn:E.
  - simpl. f_equal.
    apply (countWalletCI_none a rest Hrest).
    apply findDoc_none. rewrite Forall_forall. intros y Hy.
    destruct (matchesWallet (toLowerCase a) y) eqn:E'; [|reflexivity].
    exfalso. apply Hnotin.
    apply matchesWallet_field in E, E'. rewrite E, <- E'.
    exact (in_map (fun d : document => field d "walletAddress") rest y Hy).
  - now apply IH.
Qed.

Section Properties.

Variable rt : Runtime.

(** *** The cast of the three updates the handlers send *)

Lemma cast_push_investments (t : Z) (inv : jsval) :
  castUpdate rt userSchema
    (mkUpdate [ ("lastSeen", JDate (Some t)) ] [ ("investments", inv) ])
  = Ok (seenUpdate t).
Proof. reflexivity. Qed.

Lemma cast_user_update (seen : option Z) (chainId : jsval) :
  castUpdate rt userSchema
    (mkUpdate [ ("lastSeen", JDate seen); ("chainId", chainId) ] [])
  = match seen with
    | Some t => Ok (seenUpdate t)
    | None => Throw (castError (mkPath "lastSeen" TDate false false false true))
    end.
Proof. destruct seen; reflexivity. Qed.

Lemma User_update_run (env : Env) (a : string) (u : update) (t : Z)
    (opts : queryOptions) (w : world) :
  castUpdate rt userSchema u = Ok (seenUpdate t) ->
  User_findOneAndUpdate rt env a u opts w =
  if setsDefaults rt opts
  then userWrite env a (seenUpdate t)
         [ ("firstSeen", JDate (Some (clock env (clockReads w)))) ] opts
         (mkWorld (users w) (S (clockReads w)) (trace w))
  else userWrite env a (seenUpdate t) [] opts w.
Proof.
  intros Hc.
  unfold User_findOneAndUpdate, findOneAndUpdate, setsDefaults.
  unfold bind at 1. unfold liftOutcome at 1. rewrite Hc.
  unfold bind at 1.
  destruct (o_upsert opts && _)%bool.
  - reflexivity.
  - reflexivity.
Qed.

Lemma fetchsonicprice_frame (env : Env) (w : world) :
  users (snd (fetchsonicprice rt env w)) = users w /\
  (clockReads w <= clockReads (snd (fetchsonicprice rt env w)))%nat.
Proof.
  unfold fetchsonicprice, catchAll, bind, emit, liftOutcome. simpl.
  destruct (priceApi env) as [data|e]; simpl.
  - destruct data as [ | |x|q|s|t|l|fs]; simpl;
      try solve [split; (reflexivity || lia)].
    destruct (field fs "sonic-3") as [ | |x|q|s|t|l|fs']; simpl;
      split; (reflexivity || lia).
  - destruct (hasResponse e); simpl; split; (reflexivity || lia).
Qed.

Lemma analyze_frame (env : Env) (w : world) :
  users (snd (analyze rt env w)) = users w /\
  (clockReads w <= clockReads (snd (analyze rt env w)))%nat.
Proof.
  unfold analyze, catchAll, bind, emit, liftOutcome. simpl.
  destruct (analyzeTokenRisk env); simpl; split; (reflexivity || lia).
Qed.

Lemma User_findOne_run (env : Env) (a : string) (w : world) :
  User_findOne env a w =
  match mongo env with
  | Some e =>
      (Throw e, mkWorld (users w) (clockReads w) (trace w ++ [EvDbRead a]))
  | None =>
      match findDoc a (users w) with
      | Some d =>
          (Ok (Some (hydrated env (clockReads w) d)),
           mkWorld (users w) (defaultsTaken d + clockReads w)
                   (trace w ++ [EvDbRead a]))
      | None =>
          (Ok None,
           mkWorld (users w) (clockReads w) (trace w ++ [EvDbRead a]))
      end
  end.
Proof.
  unfold User_findOne, findOne. unfold bind at 1. unfold emit at 1.
  destruct (mongo env) as [e|]; [reflexivity|].
  unfold bind at 1. unfold getUsers at 1. cbn [users].
  destruct (findDoc a (users w)) as [d|]; [|reflexivity].
  unfold hydrateResult, bind. rewrite hydrate_User. reflexivity.
Qed.

Lemma getUser_frame (env : Env) (a : string) (w : world) :
  users (snd (getUser rt env a w)) = users w /\
  (clockReads w <= clockReads (snd (getUser rt env a w)))%nat.
Proof.
  unfold getUser, catchAll.
  destruct (String.eqb a EmptyString); [split; reflexivity|].
  split;
    (unfold bind at 1; rewrite User_findOne_run;
     destruct (mongo env); simpl; [reflexivity|];
     destruct (findDoc (toLowerCase a) (users w)); simpl;
     (reflexivity || lia)).
Qed.

Lemma postUserInvestment_step (env : Env) (b : fieldsT) (w : world) :
  usersStep (clockStamp env w) (users w)
            (users (snd (postUserInvestment rt env b w))).
Proof.
  unfold postUserInvestment, catchAll.
  destruct (falsy (field b "walletAddress") || falsy (field b "investment"))%bool.
  { now apply step_same. }
  unfold bind at 1.
  destruct (field b "walletAddress") as [ | |x|q|s|t|l|fs]; simpl;
    try (now apply step_same).
  unfold bind at 1. unfold now at 1. 
  unfold bind at 1.
  rewrite (User_update_run _ _ _ _ _ _ (cast_push_investments _ _)).
  simpl.
  destruct (mongo env) as [e|] eqn:Hm.
  - rewrite (userWrite_rejected _ _ _ _ _ _ _ Hm). simpl. now apply step_same.
  - destruct (findDoc (toLowerCase s) (users w)) as [d|] eqn:Hf.
    + rewrite userWrite_found with (d := d); auto. simpl.
      apply step_touch with (a := toLowerCase s) (d := d)
                            (t := clock env (clockReads w));
        [assumption | exists (clockReads w); split; [lia | reflexivity]
        | reflexivity].
    + rewrite userWrite_absent; auto. simpl. now apply step_same.
Qed.

Lemma User_update_cast_fail (env : Env) (a : string) (u : update)
    (opts : queryOptions) (w : world) (e : exn) :
  castUpdate rt userSchema u = Throw e ->
  User_findOneAndUpdate rt env a u opts w = (Throw e, w).
Proof.
  intros Hc.
  unfold User_findOneAndUpdate, findOneAndUpdate.
  unfold bind at 1. unfold liftOutcome at 1. now rewrite Hc.
Qed.

Lemma postUser_step (env : Env) (b : fieldsT) (w : world) :
  usersStep (postUserStamp rt env b w)
            (users w) (users (snd (postUser rt env b w))).
Proof.
  unfold postUser, catchAll, postUserStamp.
  destruct (falsy (field b "walletAddress")).
  { now apply step_same. }
  unfold bind at 1.
  destruct (field b "walletAddress") as [ | |x|q|s|t|l|fs]; simpl;
    try (now apply step_same).
  unfold bind at 1.
  destruct (truthy (field b "lastSeen")) eqn:Hls.
  - unfold ret at 1. unfold bind at 1.
    destruct (rt_DateOf rt (field b "lastSeen")) as [t|] eqn:Hd.
    + rewrite (User_update_run _ _ _ _ _ _ (cast_user_update (Some t) _)).
      simpl.
      destruct (mongo env) as [e|] eqn:Hm.
      * rewrite (userWrite_rejected _ _ _ _ _ _ _ Hm). simpl. now apply step_same.
      * destruct (findDoc (toLowerCase s) (users w)) as [d|] eqn:Hf.
        -- rewrite userWrite_found with (d := d); auto. simpl.
           apply step_touch with (a := toLowerCase s) (d := d) (t := t);
             [assumption | reflexivity | reflexivity].
        -- rewrite userWrite_upsert; auto. simpl.
           eapply step_insert;
             [eassumption | | apply toLowerCase_idem | | reflexivity];
             reflexivity.
    + rewrite (User_update_cast_fail _ _ _ _ _ _ (cast_user_update None _)).
      simpl. now apply step_same.
  - unfold bind at 1. unfold now at 1. unfold ret at 1. unfold bind at 1.
    rewrite (User_update_run _ _ _ _ _ _ (cast_user_update (Some _) _)).
    simpl.
    destruct (mongo env) as [e|] eqn:Hm.
    + rewrite (userWrite_rejected _ _ _ _ _ _ _ Hm). simpl. now apply step_same.
    + destruct (findDoc (toLowerCase s) (users w)) as [d|] eqn:Hf.
      * rewrite userWrite_found with (d := d); auto. simpl.
        apply step_touch with (a := toLowerCase s) (d := d)
                              (t := clock env (clockReads w));
          [assumption | reflexivity | reflexivity].
      * rewrite userWrite_upsert; auto. simpl.
        eapply step_insert;
          [eassumption | | apply toLowerCase_idem | | reflexivity];
          reflexivity.
Qed.

Lemma invest_step (env : Env) (b : fieldsT) (w : world) :
  usersStep (clockStamp env w) (users w) (users (snd (invest rt env b w))).
Proof.
  unfold invest, catchAll.
  destruct (falsy (field b "amount") || falsy (field b "riskLevel"))%bool.
  { now apply step_same. }
  unfold bind at 1. unfold axiosGetPrice. unfold bind at 1. unfold emit at 1.
  match goal with
  | |- context [fetchsonicprice rt env ?w0] =>
      pose proof (fetchsonicprice_frame env w0) as [Hus Hck];
      destruct (fetchsonicprice rt env w0) as [r w1]
  end.
  simpl in Hus, Hck.
  destruct ((200 <=? status r) && (status r <? 300))%bool;
    [| simpl; apply step_same; assumption].
  destruct (falsy (field (body r) "price"));
    [simpl; apply step_same; assumption|].
  unfold bind at 1. unfold bind at 1. unfold emit at 1. unfold liftOutcome at 1.
  destruct (sendTransaction env _) as [txHash|e];
    [| simpl; apply step_same; assumption].
  unfold bind at 1.
  destruct (truthy (field b "walletAddress"));
    [| simpl; apply step_same; assumption].
  unfold tryCatch. unfold bind at 1.
  destruct (field b "walletAddress") as [ | |x|q|s|t|l|fs]; simpl;
    try (apply step_same; assumption).
  unfold bind at 1. unfold now at 1. unfold bind at 1. unfold now at 1.
  unfold bind at 1.
  rewrite (User_update_run _ _ _ _ _ _ (cast_push_investments _ _)).
  unfold setsDefaults. simpl.
  destruct (mongo env) as [e|] eqn:Hm.
  { destruct (rt_setDefaultsOnInsertDefault rt);
      rewrite (userWrite_rejected _ _ _ _ _ _ _ Hm); simpl;
      apply step_same; assumption. }
  destruct (findDoc (toLowerCase s) (users w)) as [d|] eqn:Hf.
  - destruct (rt_setDefaultsOnInsertDefault rt);
      rewrite userWrite_found with (d := d);
      try assumption; try (simpl; congruence); simpl; rewrite Hus;
      (apply step_touch with (a := toLowerCase s) (d := d)
                             (t := clock env (S (clockReads w1)));
       [assumption | exists (S (clockReads w1)); split; [lia | reflexivity]
       | reflexivity]).
  - destruct (rt_setDefaultsOnInsertDefault rt);
      rewrite userWrite_upsert;
      try assumption; try reflexivity; try (simpl; congruence);
      simpl; rewrite Hus;
      (eapply step_insert;
       [eassumption | | apply toLowerCase_idem | | reflexivity];
       reflexivity).
Qed.

Lemma usersStep_weaken (P Q : Z -> Prop) (c c' : list document) :
  (forall t, P t -> Q t) -> usersStep P c c' -> usersStep Q c c'.
Proof.
  intros HPQ [H | a d t Hf Ht H | a d Hf Hw Hl Hi H].
  - now apply step_same.
  - eapply step_touch; eauto.
  - eapply step_insert; eauto.
Qed.

Lemma handle_step (env : Env) (req : request) (w : world) :
  usersStep (requestStamp rt env req w)
            (users w) (users (snd (handle rt env req w))).
Proof.
  destruct req as [ | |b|b|b|a]; simpl.
  - apply step_same. apply fetchsonicprice_frame.
  - apply step_same. apply analyze_frame.
  - apply invest_step.
  - apply postUser_step.
  - apply postUserInvestment_step.
  - apply step_same. apply getUser_frame.
Qed.

(** Whatever the requests, a collection that starts empty stays within
    its unique index. *)
Lemma serve_wellFormed (reqs : list (Env * request)) (w : world) :
  wellFormed (users w) -> wellFormed (users (serve rt reqs w)).
Proof.
  revert w. induction reqs as [|[env req] rest IH]; intros w Hw; simpl.
  - assumption.
  - apply IH. eapply step_wellFormed; [apply handle_step | assumption].
Qed.

Lemma reachable_wellFormed (reqs : list (Env * request)) :
  wellFormed (users (serve rt reqs emptyWorld)).
Proof.
  apply serve_wellFormed. split; constructor.
Qed.

(** ** POST /api/invest: the guard on the required fields *)

Lemma invest_guard (env : Env) (b : fieldsT) (w : world) :
  (falsy (field b "amount") || falsy (field b "riskLevel"))%bool = true ->
  invest rt env b w =
  (send rt 400 [ ("success", JBool false);
                 ("message", JStr "Missing required fields: amount and riskLevel") ],
   w).
Proof.
  intros H. unfold invest, catchAll. rewrite H. reflexivity.
Qed.

(** C5.  POST /api/invest whose body has no [amount] or no [riskLevel] is
    answered 400 and nothing else happens: the world after the request is
    the world before it, so no price was fetched, no transaction sent and
    nothing written to the database. *)
Theorem invest_missing_field_400 (env : Env) (b : fieldsT) (w : world) :
  field b "amount" = JUndefined \/ field b "riskLevel" = JUndefined ->
  status (fst (invest rt env b w)) = 400 /\
  field (body (fst (invest rt env b w))) "success" = JBool false /\
  snd (invest rt env b w) = w.
Proof.
  intros H. rewrite invest_guard.
  - repeat split.
  - destruct H as [H | H]; rewrite H; simpl.
    + reflexivity.
    + apply orb_true_r.
Qed.

(** C10.  An [amount] of zero, or the empty string as [riskLevel], is
    falsy and so is taken for a missing field: the answer is 400 and the
    world is untouched, hence a zero investment reaches neither the price
    fetch nor [sendTransaction]. *)
Theorem invest_zero_amount_400 (env : Env) (b : fieldsT) (w : world) :
  (exists q, field b "amount" = JNum q /\ (q == 0)%Q) \/
  field b "riskLevel" = JStr EmptyString ->
  status (fst (invest rt env b w)) = 400 /\
  snd (invest rt env b w) = w.
Proof.
  intros H. rewrite invest_guard.
  - split; reflexivity.
  - destruct H as [[q [Hq Hz]] | H].
    + rewrite Hq. unfold falsy, truthy.
      unfold Qeq in Hz. simpl in Hz.
      replace (Qnum q) with 0 by lia. reflexivity.
    + rewrite H. simpl. apply orb_true_r.
Qed.

(** ** A price request that the provider answers *)

Lemma fetchsonicprice_ok (env : Env) (w : world) (dfs efs : fieldsT) :
  priceApi env = Ok (JObj dfs) ->
  field dfs "sonic-3" = JObj efs ->
  fetchsonicprice rt env w =
  (send rt 200 [ ("success", JBool true);
                 ("price", field efs "usd");
                 ("currency", JStr "USD");
                 ("token_id", JStr "sonic-3");
                 ("timestamp", JStr (rt_toISOString rt (clock env (clockReads w)))) ],
   mkWorld (users w) (S (clockReads w))
           ((trace w ++ [EvPriceApi "sonic-3"]) ++ [EvConsoleLog "API Response:"])).
Proof.
  intros Hp He.
  unfold fetchsonicprice, catchAll, bind, emit, liftOutcome. simpl.
  rewrite Hp. simpl. rewrite He. reflexivity.
Qed.

Lemma quoted_price (q : Q) (stamp : string) :
  field (jsonBody rt [ ("success", JBool true);
                       ("price", JNum q);
                       ("currency", JStr "USD");
                       ("token_id", JStr "sonic-3");
                       ("timestamp", JStr stamp) ]) "price" = JNum q.
Proof. reflexivity. Qed.

(** The handler up to the database: what is left to run is the recording
    of the investment and the reply. *)
Lemma invest_transferred (env : Env) (b : fieldsT) (w : world)
    (price : Q) (txHash : string) :
  transferred env b price txHash ->
  invest rt env b w =
  match
    (if truthy (field b "walletAddress")
     then tryCatch
            (a <- callToLowerCase (field b "walletAddress") ;;
             t1 <- now env ;;
             t2 <- now env ;;
             _ <- User_findOneAndUpdate rt env a
                    (mkUpdate
                       [ ("lastSeen", JDate (Some t2)) ]
                       [ ("investments",
                          JObj [ ("amount", field b "amount");
                                 ("riskLevel", field b "riskLevel");
                                 ("tokenPrice", JNum price);
                                 ("transactionHash", JStr txHash);
                                 ("timestamp", JDate (Some t1)) ]) ])
                    (mkOptions true true None) ;;
             emit (EvConsoleLog "Investment recorded for user:"))
            (fun dbError =>
               emit (EvConsoleError "Error recording investment in database:"))
     else ret tt)
      (mkWorld (users w) (S (clockReads w)) (sentTrace b price w))
  with
  | (Ok _, w') =>
      (investReply rt b txHash (clock env (clockReads w')),
       mkWorld (users w') (S (clockReads w')) (trace w'))
  | (Throw e, w') =>
      (failure rt "Failed to process investment" e,
       consoleError "Error processing investment:" w')
  end.
Proof.
  intros [Ha Hr [dfs [efs [Hp [He Hu]]]] Hq Htx].
  unfold invest, catchAll.
  unfold falsy. rewrite Ha, Hr. simpl.
  unfold bind at 1. unfold axiosGetPrice. unfold bind at 1. unfold emit at 1.
  rewrite (fetchsonicprice_ok _ _ _ _ Hp He). rewrite Hu. simpl.
  destruct (Qnum price =? 0) eqn:E; [apply Z.eqb_eq in E; contradiction|].
  simpl.
  unfold bind at 1. unfold bind at 1. unfold emit at 1. unfold liftOutcome at 1.
  simpl. rewrite !quoted_price. rewrite Htx.
  unfold bind at 1. unfold sentTrace.
  match goal with
  | |- context [(if ?c then ?x else ?y) ?w0] => destruct (((if c then x else y) w0)) as [[u|e] w']
  end; reflexivity.
Qed.

(** ** POST /api/user/investment on a database that answers *)

Lemma postUserInvestment_run (env : Env) (b : fieldsT) (w : world) (s : string) :
  field b "walletAddress" = JStr s ->
  truthy (JStr s) = true ->
  truthy (field b "investment") = true ->
  mongo env = None ->
  postUserInvestment rt env b w =
  match findDoc (toLowerCase s) (users w) with
  | Some d =>
      (send rt 200 [ ("success", JBool true);
                     ("message", JStr "Investment history updated") ],
       mkWorld (replaceFirst (toLowerCase s)
                  (touch (clock env (clockReads w)) d) (users w))
               (defaultsTaken (touch (clock env (clockReads w)) d)
                + S (clockReads w))
               (trace w ++ [EvDbWrite (toLowerCase s)]))
  | None =>
      (send rt 404 [ ("success", JBool false);
                     ("message", JStr "User not found") ],
       mkWorld (users w) (S (clockReads w))
               (trace w ++ [EvDbWrite (toLowerCase s)]))
  end.
Proof.
  intros Hw Hs Hi Hm.
  unfold postUserInvestment, catchAll, falsy.
  rewrite Hw, Hs, Hi. simpl.
  unfold bind at 1. unfold ret at 1.
  unfold bind at 1. unfold now at 1. unfold bind at 1.
  rewrite (User_update_run _ _ _ _ _ _ (cast_push_investments _ _)).
  simpl.
  destruct (findDoc (toLowerCase s) (users w)) as [d|] eqn:Hf.
  - rewrite userWrite_found with (d := d); auto.
  - rewrite userWrite_absent; auto.
Qed.

(** C3.  POST /api/user/investment for a wallet address that has no User
    document is answered 404 and the collection is what it was: no
    document is made for the address. *)
Theorem postUserInvestment_unknown_wallet_404 (env : Env) (b : fieldsT)
    (w : world) (s : string) :
  field b "walletAddress" = JStr s ->
  truthy (JStr s) = true ->
  truthy (field b "investment") = true ->
  mongo env = None ->
  findDoc (toLowerCase s) (users w) = None ->
  status (fst (postUserInvestment rt env b w)) = 404 /\
  users (snd (postUserInvestment rt env b w)) = users w /\
  findDoc (toLowerCase s) (users (snd (postUserInvestment rt env b w))) = None.
Proof.
  intros Hw Hs Hi Hm Hf.
  rewrite (postUserInvestment_run env b w s Hw Hs Hi Hm), Hf. simpl.
  auto.
Qed.

(** ** POST /api/invest after the transfer *)

(** C2.  When the transfer has gone through and MongoDB rejects the write
    that records it, POST /api/invest with a wallet address still answers
    200 with [success: true] and the transaction hash; the database error
    goes to [console.error] and the response carries no [error]. *)
Theorem invest_db_failure_swallowed (env : Env) (b : fieldsT) (w : world)
    (price : Q) (txHash : string) (e : exn) :
  transferred env b price txHash ->
  truthy (field b "walletAddress") = true ->
  mongo env = Some e ->
  status (fst (invest rt env b w)) = 200 /\
  field (body (fst (invest rt env b w))) "success" = JBool true /\
  field (body (fst (invest rt env b w))) "transactionHash" = JStr txHash /\
  lookup "error" (body (fst (invest rt env b w))) = None /\
  users (snd (invest rt env b w)) = users w /\
  In (EvConsoleError "Error recording investment in database:")
     (trace (snd (invest rt env b w))).
Proof.
  intros Ht Hwa Hm.
  rewrite (invest_transferred env b w price txHash Ht). rewrite Hwa.
  destruct (field b "walletAddress") as [ | |x|q|s|t|l|fs];
    try discriminate;
    try (simpl; repeat split; apply in_or_app; right; left; reflexivity).
  cbv [tryCatch bind callToLowerCase now ret].
  rewrite (User_update_run _ _ _ _ _ _ (cast_push_investments _ _)).
  destruct (setsDefaults rt _);
    rewrite (userWrite_rejected _ _ _ _ _ _ _ Hm); simpl;
    repeat split; apply in_or_app; right; left; reflexivity.
Qed.

(** C9.  POST /api/invest with a wallet address that has no User document
    makes one: the upsert adds a document for the lower-cased address at
    the end of the collection.  POST /api/user/investment for the same
    address answers 404 and adds nothing. *)
Theorem invest_upserts_unknown_wallet (env : Env) (b : fieldsT) (w : world)
    (price : Q) (txHash : string) (s : string) :
  transferred env b price txHash ->
  field b "walletAddress" = JStr s ->
  truthy (JStr s) = true ->
  mongo env = None ->
  findDoc (toLowerCase s) (users w) = None ->
  (status (fst (invest rt env b w)) = 200 /\
   exists d,
     users (snd (invest rt env b w)) = (users w ++ [d])%list /\
     field d "walletAddress" = JStr (toLowerCase s) /\
     findDoc (toLowerCase s) (users (snd (invest rt env b w))) = Some d) /\
  (forall b',
     field b' "walletAddress" = JStr s ->
     truthy (field b' "investment") = true ->
     status (fst (postUserInvestment rt env b' w)) = 404 /\
     users (snd (postUserInvestment rt env b' w)) = users w).
Proof.
  intros Ht Hw Hs Hm Hf. split.
  - rewrite (invest_transferred env b w price txHash Ht). rewrite Hw, Hs.
    cbv [tryCatch bind callToLowerCase now ret].
    rewrite (User_update_run _ _ _ _ _ _ (cast_push_investments _ _)).
    destruct (setsDefaults rt _);
      rewrite userWrite_upsert by (assumption || reflexivity); simpl;
      (split; [reflexivity|]);
      eexists; (split; [reflexivity|]);
      (split; [reflexivity|]);
      rewrite findDoc_app, Hf;
      match goal with
      | |- context [matchesWallet ?a ?d] =>
          replace (matchesWallet a d) with true
            by (symmetry; apply matchesWallet_field; reflexivity)
      end; reflexivity.
  - intros b' Hw' Hi'.
    rewrite (postUserInvestment_run env b' w s Hw' Hs Hi' Hm), Hf. simpl.
    auto.
Qed.

(** ** POST /api/user on a database that answers *)

Lemma validSeen_stamp (env : Env) (b : fieldsT) (w : world) :
  validSeen rt b -> exists t, postUserStamp rt env b w t.
Proof.
  unfold validSeen, postUserStamp. intros H.
  destruct (truthy (field b "lastSeen")).
  - destruct (rt_DateOf rt (field b "lastSeen")) as [t|].
    + now exists t.
    + exfalso. now apply H.
  - eexists. reflexivity.
Qed.

Lemma postUser_run (env : Env) (b : fieldsT) (w : world) (s : string) (t : Z) :
  field b "walletAddress" = JStr s ->
  truthy (JStr s) = true ->
  mongo env = None ->
  postUserStamp rt env b w t ->
  postUser rt env b w =
  match findDoc (toLowerCase s) (users w) with
  | Some d =>
      (userReply rt (hydrated env (S (readsBeforeDefault b w)) (touch t d)),
       mkWorld (replaceFirst (toLowerCase s) (touch t d) (users w))
               (defaultsTaken (touch t d) + S (readsBeforeDefault b w))
               (trace w ++ [EvDbWrite (toLowerCase s)]))
  | None =>
      let doc := inserted (toLowerCase s) t
                   [ ("firstSeen",
                      JDate (Some (clock env (readsBeforeDefault b w)))) ] in
      (userReply rt doc,
       mkWorld (users w ++ [doc])
               (S (readsBeforeDefault b w))
               (trace w ++ [EvDbWrite (toLowerCase s)]))
  end.
Proof.
  intros Hw Hs Hm Ht.
  unfold postUser, catchAll, falsy, postUserStamp, readsBeforeDefault in *.
  rewrite Hw, Hs.
  destruct (truthy (field b "lastSeen")).
  - cbv [bind callToLowerCase now ret negb]. rewrite Ht.
    rewrite (User_update_run _ _ _ _ _ _ (cast_user_update (Some t) _)).
    simpl.
    destruct (findDoc (toLowerCase s) (users w)) as [d|] eqn:Hf.
    + rewrite userWrite_found with (d := d); auto.
    + rewrite userWrite_upsert; auto.
  - cbv [bind callToLowerCase now ret negb]. subst t.
    rewrite (User_update_run _ _ _ _ _ _ (cast_user_update (Some _) _)).
    simpl.
    destruct (findDoc (toLowerCase s) (users w)) as [d|] eqn:Hf.
    + rewrite userWrite_found with (d := d); auto.
    + rewrite userWrite_upsert; auto.
Qed.

Lemma postUser_found (env : Env) (b : fieldsT) (w : world) (s : string)
    (t : Z) (d : document) :
  field b "walletAddress" = JStr s ->
  truthy (JStr s) = true ->
  mongo env = None ->
  postUserStamp rt env b w t ->
  findDoc (toLowerCase s) (users w) = Some d ->
  status (fst (postUser rt env b w)) = 200 /\
  users (snd (postUser rt env b w)) =
    replaceFirst (toLowerCase s) (touch t d) (users w) /\
  findDoc (toLowerCase s) (users (snd (postUser rt env b w))) = Some (touch t d).
Proof.
  intros Hw Hs Hm Ht Hf.
  rewrite (postUser_run env b w s t Hw Hs Hm Ht), Hf. simpl.
  repeat split.
  eapply findDoc_replaceFirst_same; [eassumption|].
  unfold touch. rewrite matchesWallet_touch.
  now apply findDoc_matches in Hf.
Qed.

Lemma postUser_created (env : Env) (b : fieldsT) (w : world) (s : string)
    (t : Z) :
  field b "walletAddress" = JStr s ->
  truthy (JStr s) = true ->
  mongo env = None ->
  postUserStamp rt env b w t ->
  findDoc (toLowerCase s) (users w) = None ->
  let doc := inserted (toLowerCase s) t
               [ ("firstSeen", JDate (Some (clock env (readsBeforeDefault b w)))) ] in
  status (fst (postUser rt env b w)) = 200 /\
  users (snd (postUser rt env b w)) = (users w ++ [doc])%list /\
  findDoc (toLowerCase s) (users (snd (postUser rt env b w))) = Some doc /\
  clockReads (snd (postUser rt env b w)) = S (readsBeforeDefault b w).
Proof.
  intros Hw Hs Hm Ht Hf.
  rewrite (postUser_run env b w s t Hw Hs Hm Ht), Hf. simpl.
  repeat split.
  rewrite findDoc_app, Hf.
  match goal with
  | |- context [matchesWallet ?a ?d] =>
      replace (matchesWallet a d) with true
        by (symmetry; apply matchesWallet_field; reflexivity)
  end.
  reflexivity.
Qed.

(** C4.  Two POST /api/user requests whose wallet addresses differ in
    letter case only leave one User document for the address: the second
    request sets [lastSeen] of the document the first one made or found,
    the collection does not grow, and it stays within the unique index,
    where an address names one document at most whatever its case. *)
Theorem postUser_case_insensitive_single_record
    (env1 env2 : Env) (b1 b2 : fieldsT) (w : world) (s1 s2 : string) :
  wellFormed (users w) ->
  field b1 "walletAddress" = JStr s1 ->
  field b2 "walletAddress" = JStr s2 ->
  truthy (JStr s1) = true ->
  truthy (JStr s2) = true ->
  toLowerCase s1 = toLowerCase s2 ->
  mongo env1 = None ->
  mongo env2 = None ->
  validSeen rt b1 ->
  validSeen rt b2 ->
  let w1 := snd (postUser rt env1 b1 w) in
  let w2 := snd (postUser rt env2 b2 w1) in
  status (fst (postUser rt env1 b1 w)) = 200 /\
  status (fst (postUser rt env2 b2 w1)) = 200 /\
  wellFormed (users w2) /\
  countWalletCI s1 (users w2) = 1%nat /\
  countWalletCI s2 (users w2) = 1%nat /\
  length (users w2) = length (users w1) /\
  (findDoc (toLowerCase s1) (users w) = None ->
   length (users w1) = S (length (users w))) /\
  exists d1 t2,
    findDoc (toLowerCase s1) (users w1) = Some d1 /\
    findDoc (toLowerCase s2) (users w2) = Some (touch t2 d1) /\
    users w2 = replaceFirst (toLowerCase s2) (touch t2 d1) (users w1).
Proof.
  intros Hwf Hb1 Hb2 Hs1 Hs2 Hlow Hm1 Hm2 Hv1 Hv2 w1 w2.
  destruct (validSeen_stamp env1 b1 w Hv1) as [t1 Ht1].
  destruct (validSeen_stamp env2 b2 w1 Hv2) as [t2 Ht2].
  assert (Hwf1 : wellFormed (users w1)).
  { eapply step_wellFormed; [apply postUser_step | assumption]. }
  assert (Hwf2 : wellFormed (users w2)).
  { eapply step_wellFormed; [apply postUser_step | assumption]. }
  assert (H1 : status (fst (postUser rt env1 b1 w)) = 200 /\
               (findDoc (toLowerCase s1) (users w) = None ->
                length (users w1) = S (length (users w))) /\
               exists d1, findDoc (toLowerCase s1) (users w1) = Some d1).
  { destruct (findDoc (toLowerCase s1) (users w)) as [d|] eqn:Hf.
    - destruct (postUser_found env1 b1 w s1 t1 d Hb1 Hs1 Hm1 Ht1 Hf)
        as [Hst [_ Hfd]].
      split; [assumption|]. split; [discriminate|]. eauto.
    - destruct (postUser_created env1 b1 w s1 t1 Hb1 Hs1 Hm1 Ht1 Hf)
        as [Hst [Hus [Hfd _]]].
      split; [assumption|]. split; [|eauto].
      intros _. unfold w1. rewrite Hus, length_app. simpl. lia. }
  destruct H1 as [Hst1 [Hgrow [d1 Hd1]]].
  assert (Hd1' : findDoc (toLowerCase s2) (users w1) = Some d1)
    by (now rewrite <- Hlow).
  destruct (postUser_found env2 b2 w1 s2 t2 d1 Hb2 Hs2 Hm2 Ht2 Hd1')
    as [Hst2 [Hus2 Hfd2]].
  fold w2 in Hus2, Hfd2.
  split; [assumption|]. split; [assumption|]. split; [assumption|].
  split. { rewrite (wellFormed_count s1 _ Hwf2), Hlow, Hfd2. reflexivity. }
  split. { rewrite (wellFormed_count s2 _ Hwf2), Hfd2. reflexivity. }
  split. { rewrite Hus2. apply length_replaceFirst. }
  split; [assumption|].
  exists d1, t2. auto.
Qed.

(** ** POST /api/invest on a database that answers *)

Lemma invest_recorded (env : Env) (b : fieldsT) (w : world)
    (price : Q) (txHash : string) (s : string) :
  transferred env b price txHash ->
  field b "walletAddress" = JStr s ->
  truthy (JStr s) = true ->
  mongo env = None ->
  let a := toLowerCase s in
  let t := clock env (S (S (clockReads w))) in
  status (fst (invest rt env b w)) = 200 /\
  (clockReads w + 3 < clockReads (snd (invest rt env b w)))%nat /\
  match findDoc a (users w) with
  | Some d =>
      users (snd (invest rt env b w)) = replaceFirst a (touch t d) (users w)
  | None =>
      users (snd (invest rt env b w)) =
      (users w ++
       [inserted a t
          (if rt_setDefaultsOnInsertDefault rt
           then [ ("firstSeen", JDate (Some (clock env (S (S (S (clockReads w))))))) ]
           else [])])%list
  end.
Proof.
  intros Ht Hw Hs Hm a t. subst a t.
  rewrite (invest_transferred env b w price txHash Ht). rewrite Hw, Hs.
  cbv [tryCatch bind callToLowerCase now ret].
  rewrite (User_update_run _ _ _ _ _ _ (cast_push_investments _ _)).
  unfold setsDefaults. simpl.
  destruct (findDoc (toLowerCase s) (users w)) as [d|] eqn:Hf.
  - destruct (rt_setDefaultsOnInsertDefault rt);
      rewrite userWrite_found with (d := d) by assumption; simpl;
      (split; [reflexivity|]); (split; [lia | reflexivity]).
  - destruct (rt_setDefaultsOnInsertDefault rt);
      rewrite userWrite_upsert by (assumption || reflexivity); simpl;
      (split; [reflexivity|]); (split; [lia | reflexivity]).
Qed.

(** ** The first-seen timestamp *)

(** C7.  The [firstSeen] of a User document is set when the document is
    made and no request changes it afterwards: whatever the request, a
    document that was there is there after it with the same [firstSeen];
    a POST /api/user that makes the document gives it a reading of the
    clock taken while the request is served, and so does a POST
    /api/invest that makes it, when Mongoose sets defaults on upsert. *)
Theorem firstSeen_set_once (env : Env) (w : world) :
  (forall req a d,
     findDoc a (users w) = Some d ->
     exists d',
       findDoc a (users (snd (handle rt env req w))) = Some d' /\
       firstSeenOf d' = firstSeenOf d) /\
  (forall b s,
     field b "walletAddress" = JStr s ->
     truthy (JStr s) = true ->
     mongo env = None ->
     validSeen rt b ->
     findDoc (toLowerCase s) (users w) = None ->
     exists d' n,
       findDoc (toLowerCase s) (users (snd (handle rt env (PostUser b) w)))
         = Some d' /\
       firstSeenOf d' = JDate (Some (clock env n)) /\
       (clockReads w <= n < clockReads (snd (handle rt env (PostUser b) w)))%nat) /\
  (forall b price txHash s,
     transferred env b price txHash ->
     field b "walletAddress" = JStr s ->
     truthy (JStr s) = true ->
     mongo env = None ->
     rt_setDefaultsOnInsertDefault rt = true ->
     findDoc (toLowerCase s) (users w) = None ->
     exists d' n,
       findDoc (toLowerCase s) (users (snd (handle rt env (PostInvest b) w)))
         = Some d' /\
       firstSeenOf d' = JDate (Some (clock env n)) /\
       (clockReads w <= n < clockReads (snd (handle rt env (PostInvest b) w)))%nat).
Proof.
  split; [|split].
  - intros req a d Hd.
    destruct (step_lookup _ _ _ a d (handle_step env req w) Hd)
      as [d' [Hd' [-> | [t [_ ->]]]]].
    + eauto.
    + exists (touch t d). split; [assumption | apply firstSeenOf_touch].
  - intros b s Hb Hs Hm Hv Hf. simpl.
    destruct (validSeen_stamp env b w Hv) as [t Ht].
    destruct (postUser_created env b w s t Hb Hs Hm Ht Hf)
      as [_ [_ [Hfd Hck]]].
    eexists. exists (readsBeforeDefault b w).
    split; [exact Hfd|]. split; [reflexivity|].
    rewrite Hck. unfold readsBeforeDefault.
    destruct (truthy (field b "lastSeen")); lia.
  - intros b price txHash s Ht Hb Hs Hm Hdef Hf. simpl.
    destruct (invest_recorded env b w price txHash s Ht Hb Hs Hm)
      as [_ [Hck Hus]].
    simpl in Hus. rewrite Hf, Hdef in Hus.
    eexists. exists (S (S (S (clockReads w)))).
    rewrite Hus, findDoc_app, Hf.
    match goal with
    | |- context [matchesWallet ?a ?d] =>
        replace (matchesWallet a d) with true
          by (symmetry; apply matchesWallet_field; reflexivity)
    end.
    split; [reflexivity|]. split; [reflexivity | lia].
Qed.

(** ** The last-seen timestamp *)


(** ** GET /api/fetchsonicprice *)

Lemma priceBody_fields (usd : jsval) (stamp : string) :
  let fs := jsonBody rt [ ("success", JBool true);
                          ("price", usd);
                          ("currency", JStr "USD");
                          ("token_id", JStr "sonic-3");
                          ("timestamp", JStr stamp) ] in
  field fs "success" = JBool true /\ field fs "token_id" = JStr "sonic-3".
Proof.
  destruct usd as [ | |x|q|s|[t|]|l|fs]; split; reflexivity.
Qed.

Lemma priceBody_quote (usd : jsval) (stamp : string) :
  let fs := jsonBody rt [ ("success", JBool true);
                          ("price", usd);
                          ("currency", JStr "USD");
                          ("token_id", JStr "sonic-3");
                          ("timestamp", JStr stamp) ] in
  field fs "price" = toJSON rt usd /\
  (lookup "price" fs = None <-> usd = JUndefined).
Proof.
  destruct usd as [ | |x|q|s|[t|]|l|fs]; (split; [reflexivity|]);
    split; intros H; (reflexivity || discriminate H).
Qed.

Lemma toJSON_number (v : jsval) (q : Q) :
  toJSON rt v = JNum q <-> v = JNum q.
Proof.
  destruct v as [ | |x|q'|s|[t|]|l|fs]; simpl; split; intros H;
    (exact H || discriminate H).
Qed.

(** A successful answer: the provider answered with an object, and the
    response is made of its quote for the token. *)
Lemma fetchsonicprice_200 (env : Env) (w : world) :
  status (fst (fetchsonicprice rt env w)) = 200 ->
  exists dfs,
    priceApi env = Ok (JObj dfs) /\
    fst (fetchsonicprice rt env w) =
    send rt 200 [ ("success", JBool true);
                  ("price", providerQuote dfs);
                  ("currency", JStr "USD");
                  ("token_id", JStr "sonic-3");
                  ("timestamp",
                   JStr (rt_toISOString rt (clock env (clockReads w)))) ].
Proof.
  unfold providerQuote.
  destruct (priceApi env) as [data|e] eqn:Hp.
  - destruct data as [ | |x|q|s|t|l|dfs];
      try (unfold fetchsonicprice, catchAll, bind, emit, liftOutcome; simpl;
           rewrite Hp; simpl; discriminate).
    intros Hst. exists dfs. split; [reflexivity|]. revert Hst.
    unfold fetchsonicprice, catchAll, bind, emit, liftOutcome; simpl.
    rewrite Hp; simpl.
    destruct (field dfs "sonic-3") as [ | |x|q|s|t|l|efs]; simpl;
      intros Hst; (discriminate Hst || reflexivity).
  - unfold fetchsonicprice, catchAll, bind, emit, liftOutcome; simpl.
    rewrite Hp. simpl. destruct (hasResponse e); discriminate.
Qed.

(** C6 (as amended).  On success GET /api/fetchsonicprice answers with
    [token_id] 'sonic-3' and, as [price], the [usd] value that the price
    provider reported for 'sonic-3', passed through as it came: the
    response has the quote, serialized, under [price], and no [price]
    when the provider gave none; the price is a number exactly when the
    quote is that number, and so a positive number exactly when the
    provider's quote is one. *)
Theorem fetchsonicprice_success (env : Env) (w : world) :
  status (fst (fetchsonicprice rt env w)) = 200 ->
  field (body (fst (fetchsonicprice rt env w))) "success" = JBool true /\
  field (body (fst (fetchsonicprice rt env w))) "token_id" = JStr "sonic-3" /\
  exists dfs,
    priceApi env = Ok (JObj dfs) /\
    field (body (fst (fetchsonicprice rt env w))) "price"
      = toJSON rt (providerQuote dfs) /\
    (lookup "price" (body (fst (fetchsonicprice rt env w))) = None <->
     providerQuote dfs = JUndefined) /\
    (forall q,
       field (body (fst (fetchsonicprice rt env w))) "price" = JNum q <->
       providerQuote dfs = JNum q) /\
    ((exists q,
        field (body (fst (fetchsonicprice rt env w))) "price" = JNum q /\
        (0 < q)%Q) <->
     (exists q, providerQuote dfs = JNum q /\ (0 < q)%Q)).
Proof.
  intros Hst.
  destruct (fetchsonicprice_200 env w Hst) as [dfs [Hp Hrun]].
  rewrite Hrun. cbn [body send].
  destruct (priceBody_quote (providerQuote dfs)
              (rt_toISOString rt (clock env (clockReads w)))) as [Hprice Hnone].
  cbv zeta in Hprice, Hnone.
  split; [apply priceBody_fields|]. split; [apply priceBody_fields|].
  exists dfs. split; [exact Hp|]. split; [exact Hprice|].
  split; [exact Hnone|].
  assert (Hq : forall q,
             field (jsonBody rt
                      [ ("success", JBool true);
                        ("price", providerQuote dfs);
                        ("currency", JStr "USD");
                        ("token_id", JStr "sonic-3");
                        ("timestamp",
                         JStr (rt_toISOString rt (clock env (clockReads w)))) ])
                   "price" = JNum q <->
             providerQuote dfs = JNum q).
  { intros q. rewrite Hprice. apply toJSON_number. }
  split; [exact Hq|].
  split; intros [q [Hnum Hpos]]; exists q; (split; [now apply Hq | exact Hpos]).
Qed.

(** ** The investment history *)

(** No request ever changes the [investments] of a document that was
    there, and the documents that the requests make carry none. *)
Lemma investments_never_stored (env : Env) (req : request) (w : world) :
  (forall a d,
     findDoc a (users w) = Some d ->
     exists d',
       findDoc a (users (snd (handle rt env req w))) = Some d' /\
       investmentsOf d' = investmentsOf d) /\
  (Forall (fun d => lookup "investments" d = None) (users w) ->
   Forall (fun d => lookup "investments" d = None)
          (users (snd (handle rt env req w)))).
Proof.
  split.
  - intros a d Hd.
    destruct (step_lookup _ _ _ a d (handle_step env req w) Hd)
      as [d' [Hd' [-> | [t [_ ->]]]]].
    + eauto.
    + exists (touch t d). split; [assumption | apply investmentsOf_touch].
  - intros Hall.
    destruct (handle_step env req w)
      as [H | a d t Hf Ht H | a d Hf Hw Hl Hi H]; rewrite H.
    + assumption.
    + apply Forall_replaceFirst; [assumption|].
      unfold touch. rewrite lookup_setField_other by discriminate.
      apply findDoc_matches in Hf as [Hin _].
      rewrite Forall_forall in Hall. now apply Hall.
    + apply Forall_app. split; [assumption|]. constructor; [assumption|constructor].
Qed.

(** Had the schema of User a path [investments] holding an array, the
    same [findOneAndUpdate] would append the record. *)
Lemma push_appends_when_schema_has_path (env : Env) (a : string) (t : Z)
    (inv : jsval) (w : world) (d : document) :
  mongo env = None ->
  findDoc a (users w) = Some d ->
  lookup "investments" d = None \/
    (exists items, lookup "investments" d = Some (JArr items)) ->
  exists d',
    fst (findOneAndUpdate rt
           (userSchema ++ [plainPath "investments" TDocArray])%list env a
           (mkUpdate [ ("lastSeen", JDate (Some t)) ] [ ("investments", inv) ])
           (mkOptions true false None) w) = Ok (Some d') /\
    investmentsOf d' = (investmentsOf d ++ [inv])%list.
Proof.
  intros Hm Hf Hinv.
  set (sch := (userSchema ++ [plainPath "investments" TDocArray])%list).
  set (u := mkUpdate [ ("lastSeen", JDate (Some t)) ] [ ("investments", inv) ]).
  assert (Hrun : exists d0 w0,
             mongoFindOneAndUpdate env a u [] (mkOptions true false None) w
               = (Ok (Some d0), w0) /\
             investmentsOf d0 = (investmentsOf d ++ [inv])%list).
  { unfold mongoFindOneAndUpdate. cbv [bind emit getUsers liftOutcome]. simpl.
    rewrite Hm. cbn [users]. rewrite Hf.
    unfold applyUpdate. simpl. unfold pushField.
    rewrite lookup_setField_other by discriminate.
    unfold investmentsOf.
    destruct Hinv as [Hn | [items Hi]].
    - rewrite Hn. simpl. do 2 eexists. split; [reflexivity|].
      now rewrite lookup_setField_same.
    - rewrite Hi. simpl. do 2 eexists. split; [reflexivity|].
      now rewrite lookup_setField_same. }
  destruct Hrun as [d0 [w0 [Hrun Hi]]].
  destruct (hydrate_keeps env sch d0 w0) as [d' [w' [Hh [_ [_ [_ Hk]]]]]].
  exists d'. split.
  - unfold findOneAndUpdate. unfold bind at 1. unfold liftOutcome at 1.
    change (castUpdate rt sch u) with (Ok (A := update) u).
    unfold bind at 1. cbn [o_upsert andb]. unfold ret at 1.
    unfold bind at 1. rewrite Hrun.
    unfold hydrateResult, bind. now rewrite Hh.
  - unfold investmentsOf in *. rewrite Hk; [assumption|].
    intros p Hp Hdef.
    repeat (destruct Hp as [<- | Hp]; [try discriminate Hdef; discriminate|]).
    destruct Hp.
Qed.

End Properties.

(** * The properties on a running server *)

Lemma demo_transferred (b : fieldsT) :
  truthy (field b "amount") = true ->
  truthy (field b "riskLevel") = true ->
  transferred demoEnv b (1 # 2) "0xhash".
Proof.
  intros Ha Hr. constructor.
  - exact Ha.
  - exact Hr.
  - exists [ ("sonic-3", JObj [ ("usd", JNum (1 # 2)) ]) ], [ ("usd", JNum (1 # 2)) ].
    repeat split.
  - discriminate.
  - reflexivity.
Defined.


(** C2, on a database that is down. *)
Lemma invest_db_failure_swallowed_witness :
  let b := [ ("amount", JNum 100); ("riskLevel", JStr "low");
             ("walletAddress", JStr "0xABC") ] in
  let env := mkEnv (clock demoEnv) (priceApi demoEnv) (analyzeTokenRisk demoEnv)
                   (sendTransaction demoEnv)
                   (Some (JsError "connection refused")) in
  status (fst (invest demoRuntime env b demoWorld)) = 200 /\
  field (body (fst (invest demoRuntime env b demoWorld))) "success" = JBool true /\
  field (body (fst (invest demoRuntime env b demoWorld))) "transactionHash"
    = JStr "0xhash" /\
  lookup "error" (body (fst (invest demoRuntime env b demoWorld))) = None /\
  users (snd (invest demoRuntime env b demoWorld)) = users demoWorld /\
  In (EvConsoleError "Error recording investment in database:")
     (trace (snd (invest demoRuntime env b demoWorld))).
Proof.
  intros b env.
  apply (invest_db_failure_swallowed demoRuntime env b demoWorld (1 # 2)
           "0xhash" (JsError "connection refused")).
  - constructor.
    + reflexivity.
    + reflexivity.
    + exists [ ("sonic-3", JObj [ ("usd", JNum (1 # 2)) ]) ],
             [ ("usd", JNum (1 # 2)) ].
      repeat split.
    + discriminate.
    + reflexivity.
  - reflexivity.
  - reflexivity.
Defined.

(** C3, on an empty collection. *)
Lemma postUserInvestment_unknown_wallet_404_witness :
  let b := [ ("walletAddress", JStr "0xABC"); ("investment", demoInvestment) ] in
  status (fst (postUserInvestment demoRuntime demoEnv b emptyWorld)) = 404 /\
  users (snd (postUserInvestment demoRuntime demoEnv b emptyWorld))
    = users emptyWorld /\
  findDoc (toLowerCase "0xABC")
    (users (snd (postUserInvestment demoRuntime demoEnv b emptyWorld))) = None.
Proof.
  intros b.
  apply (postUserInvestment_unknown_wallet_404 demoRuntime demoEnv b
           emptyWorld "0xABC"); reflexivity.
Defined.

(** C4, on an empty collection: 0xABC and then 0xabc. *)
Lemma postUser_case_insensitive_single_record_witness :
  let b1 := [ ("walletAddress", JStr "0xABC") ] in
  let b2 := [ ("walletAddress", JStr "0xabc");
              ("lastSeen", JNum 5000) ] in
  let w1 := snd (postUser demoRuntime demoEnv b1 emptyWorld) in
  let w2 := snd (postUser demoRuntime demoEnv b2 w1) in
  countWalletCI "0xABC" (users w2) = 1%nat /\
  length (users w2) = length (users w1).
Proof.
  intros b1 b2 w1 w2.
  assert (Hwf : wellFormed (users emptyWorld)).
  { split; constructor. }
  assert (Hv1 : validSeen demoRuntime b1).
  { intros H. discriminate H. }
  assert (Hv2 : validSeen demoRuntime b2).
  { intros _. discriminate. }
  destruct (postUser_case_insensitive_single_record demoRuntime
              demoEnv demoEnv b1 b2 emptyWorld "0xABC" "0xabc"
              Hwf eq_refl eq_refl eq_refl eq_refl eq_refl eq_refl eq_refl
              Hv1 Hv2)
    as [_ [_ [_ [Hc [_ [Hl _]]]]]].
  split; [exact Hc | exact Hl].
Defined.

(** C5, on a body without [amount]. *)
Lemma invest_missing_field_400_witness :
  let b := [ ("riskLevel", JStr "low"); ("walletAddress", JStr "0xABC") ] in
  status (fst (invest demoRuntime demoEnv b demoWorld)) = 400 /\
  field (body (fst (invest demoRuntime demoEnv b demoWorld))) "success"
    = JBool false /\
  snd (invest demoRuntime demoEnv b demoWorld) = demoWorld.
Proof.
  intros b.
  apply (invest_missing_field_400 demoRuntime demoEnv b demoWorld).
  left. reflexivity.
Defined.

(** C10, on an amount of zero. *)
Lemma invest_zero_amount_400_witness :
  let b := [ ("amount", JNum 0); ("riskLevel", JStr "low") ] in
  status (fst (invest demoRuntime demoEnv b demoWorld)) = 400 /\
  snd (invest demoRuntime demoEnv b demoWorld) = demoWorld.
Proof.
  intros b.
  apply (invest_zero_amount_400 demoRuntime demoEnv b demoWorld).
  left. exists 0%Q. split; reflexivity.
Defined.

(** C9, on an empty collection. *)
Lemma invest_upserts_unknown_wallet_witness :
  let b := [ ("amount", JNum 100); ("riskLevel", JStr "low");
             ("walletAddress", JStr "0xABC") ] in
  status (fst (invest demoRuntime demoEnv b emptyWorld)) = 200 /\
  exists d,
    users (snd (invest demoRuntime demoEnv b emptyWorld))
      = (users emptyWorld ++ [d])%list /\
    field d "walletAddress" = JStr (toLowerCase "0xABC") /\
    findDoc (toLowerCase "0xABC")
      (users (snd (invest demoRuntime demoEnv b emptyWorld))) = Some d.
Proof.
  intros b.
  apply (invest_upserts_unknown_wallet demoRuntime demoEnv b emptyWorld
           (1 # 2) "0xhash" "0xABC").
  - apply demo_transferred; reflexivity.
  - reflexivity.
  - reflexivity.
  - reflexivity.
  - reflexivity.
Defined.

(** The answer is 200 with [success: true] and no price at all when the
    provider quotes none, and 200 with price 0 when it quotes zero. *)
Lemma price_not_always_positive :
  ~ price_positive_on_success demoRuntime.
Proof.
  intros H.
  destruct (H unquotedEnv emptyWorld eq_refl) as [q [Hq _]].
  vm_compute in Hq. discriminate Hq.
Qed.

Example zero_quote_passed_through :
  status (fst (fetchsonicprice demoRuntime zeroQuoteEnv emptyWorld)) = 200 /\
  field (body (fst (fetchsonicprice demoRuntime zeroQuoteEnv emptyWorld))) "price"
    = JNum 0.
Proof. split; reflexivity. Qed.

(** C6 as amended, on the provider quoting one half. *)
Lemma fetchsonicprice_success_witness :
  field (body (fst (fetchsonicprice demoRuntime demoEnv emptyWorld))) "token_id"
    = JStr "sonic-3" /\
  field (body (fst (fetchsonicprice demoRuntime demoEnv emptyWorld))) "price"
    = JNum (1 # 2).
Proof.
  destruct (fetchsonicprice_success demoRuntime demoEnv emptyWorld eq_refl)
    as [_ [Hid [dfs [Hp [_ [_ [Hprice _]]]]]]].
  split; [exact Hid|].
  injection Hp as <-.
  apply (Hprice (1 # 2)). reflexivity.
Defined.



(** C7, on the stored user and on an empty collection. *)
Lemma firstSeen_set_once_witness :
  (exists d',
     findDoc "0xabc"
       (users (snd (handle demoRuntime6 demoEnv
                      (PostUser [ ("walletAddress", JStr "0xABC") ]) demoWorld)))
       = Some d' /\
     firstSeenOf d' = JDate (Some 900)) /\
  (exists d' n,
     findDoc (toLowerCase "0xABC")
       (users (snd (handle demoRuntime6 demoEnv
                      (PostUser [ ("walletAddress", JStr "0xABC") ]) emptyWorld)))
       = Some d' /\
     firstSeenOf d' = JDate (Some (clock demoEnv n)) /\
     (clockReads emptyWorld <= n
      < clockReads (snd (handle demoRuntime6 demoEnv
                           (PostUser [ ("walletAddress", JStr "0xABC") ])
                           emptyWorld)))%nat) /\
  (exists d' n,
     findDoc (toLowerCase "0xABC")
       (users (snd (handle demoRuntime6 demoEnv
                      (PostInvest [ ("amount", JNum 100);
                                    ("riskLevel", JStr "low");
                                    ("walletAddress", JStr "0xABC") ])
                      emptyWorld)))
       = Some d' /\
     firstSeenOf d' = JDate (Some (clock demoEnv n)) /\
     (clockReads emptyWorld <= n
      < clockReads (snd (handle demoRuntime6 demoEnv
                           (PostInvest [ ("amount", JNum 100);
                                         ("riskLevel", JStr "low");
                                         ("walletAddress", JStr "0xABC") ])
                           emptyWorld)))%nat).
Proof.
  split; [|split].
  - destruct (firstSeen_set_once demoRuntime6 demoEnv demoWorld)
      as [Hkeep _].
    apply (Hkeep (PostUser [ ("walletAddress", JStr "0xABC") ]) "0xabc" demoUser).
    reflexivity.
  - destruct (firstSeen_set_once demoRuntime6 demoEnv emptyWorld)
      as [_ [Hmade _]].
    apply (Hmade [ ("walletAddress", JStr "0xABC") ] "0xABC");
      try reflexivity.
    intros H. discriminate H.
  - destruct (firstSeen_set_once demoRuntime6 demoEnv emptyWorld)
      as [_ [_ Hmade]].
    apply (Hmade [ ("amount", JNum 100); ("riskLevel", JStr "low");
                   ("walletAddress", JStr "0xABC") ] (1 # 2) "0xhash" "0xABC");
      try reflexivity.
    apply demo_transferred; reflexivity.
Defined.

(** * Further properties of the server *)

(** ** The trace of a computation *)

Lemma emitsOnly_ret {A} (P : event -> Prop) (a : A) : emitsOnly P (ret a).
Proof.
  intros w. exists []. simpl. now rewrite app_nil_r.
Qed.

Lemma emitsOnly_throw {A} (P : event -> Prop) (e : exn) :
  emitsOnly P (@throw A e).
Proof.
  intros w. exists []. simpl. now rewrite app_nil_r.
Qed.

Lemma emitsOnly_liftOutcome {A} (P : event -> Prop) (o : outcome A) :
  emitsOnly P (liftOutcome o).
Proof.
  intros w. exists []. simpl. now rewrite app_nil_r.
Qed.

Lemma emitsOnly_now (P : event -> Prop) (env : Env) : emitsOnly P (now env).
Proof.
  intros w. exists []. simpl. now rewrite app_nil_r.
Qed.

Lemma emitsOnly_getUsers (P : event -> Prop) : emitsOnly P getUsers.
Proof.
  intros w. exists []. simpl. now rewrite app_nil_r.
Qed.

Lemma emitsOnly_putUsers (P : event -> Prop) (us : list document) :
  emitsOnly P (putUsers us).
Proof.
  intros w. exists []. simpl. now rewrite app_nil_r.
Qed.

Lemma emitsOnly_emit (P : event -> Prop) (ev : event) :
  P ev -> emitsOnly P (emit ev).
Proof.
  intros H w. exists [ev]. simpl. split; [reflexivity | now constructor].
Qed.

Lemma emitsOnly_getProp (P : event -> Prop) (v : jsval) (k : string) :
  emitsOnly P (getProp v k).
Proof.
  destruct v; simpl; (apply emitsOnly_ret || apply emitsOnly_throw).
Qed.

Lemma emitsOnly_callToLowerCase (P : event -> Prop) (v : jsval) :
  emitsOnly P (callToLowerCase v).
Proof.
  destruct v; simpl; (apply emitsOnly_ret || apply emitsOnly_throw).
Qed.

Lemma emitsOnly_bind {A B} (P : event -> Prop) (m : M A) (k : A -> M B) :
  emitsOnly P m -> (forall a, emitsOnly P (k a)) -> emitsOnly P (bind m k).
Proof.
  intros Hm Hk w. unfold bind.
  destruct (Hm w) as [evs [Ht Hall]].
  destruct (m w) as [[a|e] w1]; simpl in *.
  - destruct (Hk a w1) as [evs' [Ht' Hall']].
    exists (evs ++ evs')%list. rewrite Ht', Ht, app_assoc.
    split; [reflexivity | now apply Forall_app].
  - exists evs. auto.
Qed.

Lemma emitsOnly_tryCatch {A} (P : event -> Prop) (m : M A)
    (h : exn -> M A) :
  emitsOnly P m -> (forall e, emitsOnly P (h e)) -> emitsOnly P (tryCatch m h).
Proof.
  intros Hm Hh w. unfold tryCatch.
  destruct (Hm w) as [evs [Ht Hall]].
  destruct (m w) as [[a|e] w1]; simpl in *.
  - exists evs. auto.
  - destruct (Hh e w1) as [evs' [Ht' Hall']].
    exists (evs ++ evs')%list. rewrite Ht', Ht, app_assoc.
    split; [reflexivity | now apply Forall_app].
Qed.

Lemma emitsOnly_catchAll (P : event -> Prop) (m : M response)
    (h : exn -> world -> response * world) :
  emitsOnly P m -> (forall e, emitsOnly P (h e)) -> emitsOnly P (catchAll m h).
Proof.
  intros Hm Hh w. unfold catchAll.
  destruct (Hm w) as [evs [Ht Hall]].
  destruct (m w) as [[a|e] w1]; simpl in *.
  - exists evs. auto.
  - destruct (Hh e w1) as [evs' [Ht' Hall']].
    exists (evs ++ evs')%list. rewrite Ht', Ht, app_assoc.
    split; [reflexivity | now apply Forall_app].
Qed.

Lemma emitsOnly_failing {X} (P : event -> Prop) (x : X) (label : string) :
  P (EvConsoleError label) ->
  emitsOnly P (fun w => (x, consoleError label w)).
Proof.
  intros H w. exists [EvConsoleError label]. simpl.
  split; [reflexivity | now constructor].
Qed.

Lemma emitsOnly_weaken {X} (P Q : event -> Prop) (f : world -> X * world) :
  (forall ev, P ev -> Q ev) -> emitsOnly P f -> emitsOnly Q f.
Proof.
  intros HPQ Hf w. destruct (Hf w) as [evs [Ht Hall]].
  exists evs. split; [assumption|].
  eapply Forall_impl; eassumption.
Qed.

Ltac emits_step :=
  first
    [ apply emitsOnly_ret
    | apply emitsOnly_throw
    | apply emitsOnly_liftOutcome
    | apply emitsOnly_now
    | apply emitsOnly_getUsers
    | apply emitsOnly_putUsers
    | apply emitsOnly_getProp
    | apply emitsOnly_callToLowerCase
    | apply emitsOnly_failing
    | apply emitsOnly_emit
    | apply emitsOnly_bind; [|intros ?]
    | apply emitsOnly_tryCatch; [|intros ?]
    | apply emitsOnly_catchAll; [|intros ?]
    | match goal with
      | |- emitsOnly _ (if ?c then _ else _) => destruct c eqn:?
      | |- emitsOnly _ (match ?x with _ => _ end) => destruct x eqn:?
      end ].

Lemma emitsOnly_mongoFindOneAndUpdate (P : event -> Prop) (env : Env)
    (a : string) (u : update) (soi : fieldsT) (opts : queryOptions) :
  P (EvDbWrite a) ->
  emitsOnly P (mongoFindOneAndUpdate env a u soi opts).
Proof.
  intros H. unfold mongoFindOneAndUpdate.
  repeat emits_step; assumption.
Qed.

Lemma emitsOnly_hydrate (P : event -> Prop) (env : Env) (sch : schema)
    (d : document) :
  emitsOnly P (hydrate env sch d).
Proof.
  revert d. induction sch as [|p rest IH]; intros d; simpl.
  - apply emitsOnly_ret.
  - destruct (_ && _)%bool; [|apply IH].
    apply emitsOnly_bind; [apply emitsOnly_now|]. intros t. apply IH.
Qed.

Lemma emitsOnly_hydrateResult (P : event -> Prop) (env : Env) (sch : schema)
    (r : option document) :
  emitsOnly P (hydrateResult env sch r).
Proof.
  destruct r as [d|]; simpl; [|apply emitsOnly_ret].
  apply emitsOnly_bind; [apply emitsOnly_hydrate|]. intros d'.
  apply emitsOnly_ret.
Qed.

Section ServerTraces.

Variable rt : Runtime.

Lemma emitsOnly_defaultsOnInsert (P : event -> Prop) (env : Env)
    (sch : schema) (u : update) :
  emitsOnly P (defaultsOnInsert env sch u).
Proof.
  induction sch as [|p rest IH]; simpl.
  - apply emitsOnly_ret.
  - destruct (_ && _)%bool; [|assumption].
    apply emitsOnly_bind; [apply emitsOnly_now|]. intros t.
    apply emitsOnly_bind; [assumption|]. intros more.
    apply emitsOnly_ret.
Qed.

Lemma emitsOnly_findOneAndUpdate (P : event -> Prop) (sch : schema)
    (env : Env) (a : string) (u : update) (opts : queryOptions) :
  P (EvDbWrite a) ->
  emitsOnly P (findOneAndUpdate rt sch env a u opts).
Proof.
  intros H. unfold findOneAndUpdate.
  apply emitsOnly_bind; [apply emitsOnly_liftOutcome|]. intros u'.
  apply emitsOnly_bind.
  - destruct (_ && _)%bool;
      [apply emitsOnly_defaultsOnInsert | apply emitsOnly_ret].
  - intros soi.
    apply emitsOnly_bind; [now apply emitsOnly_mongoFindOneAndUpdate|].
    intros r. apply emitsOnly_hydrateResult.
Qed.

Lemma emitsOnly_findOne (P : event -> Prop) (sch : schema) (env : Env)
    (a : string) :
  P (EvDbRead a) -> emitsOnly P (findOne sch env a).
Proof.
  intros H. unfold findOne.
  apply emitsOnly_bind; [now apply emitsOnly_emit|]. intros _.
  destruct (mongo env); [apply emitsOnly_throw|].
  apply emitsOnly_bind; [apply emitsOnly_getUsers|]. intros us.
  apply emitsOnly_hydrateResult.
Qed.

Lemma emitsOnly_userView (P : event -> Prop) (user : option document) :
  emitsOnly P (userView user).
Proof.
  unfold userView. repeat emits_step.
Qed.

Lemma emitsOnly_fetchsonicprice (P : event -> Prop) (env : Env) :
  (forall ids, P (EvPriceApi ids)) ->
  (forall label, P (EvConsoleLog label)) ->
  (forall label, P (EvConsoleError label)) ->
  emitsOnly P (fetchsonicprice rt env).
Proof.
  intros Hp Hl He. unfold fetchsonicprice.
  apply emitsOnly_catchAll.
  - repeat emits_step; auto.
  - intros e w. destruct (hasResponse e).
    + exists [EvConsoleError "Error fetching Sonic price:";
              EvConsoleError "Error details:"].
      simpl. rewrite <- app_assoc. split; [reflexivity|].
      repeat constructor; apply He.
    + exists [EvConsoleError "Error fetching Sonic price:"].
      simpl. split; [reflexivity|]. repeat constructor; apply He.
Qed.

Lemma emitsOnly_axiosGetPrice (P : event -> Prop) (env : Env) :
  (forall path, P (EvLoopback path)) ->
  (forall ids, P (EvPriceApi ids)) ->
  (forall label, P (EvConsoleLog label)) ->
  (forall label, P (EvConsoleError label)) ->
  emitsOnly P (axiosGetPrice rt env).
Proof.
  intros Hb Hp Hl He. unfold axiosGetPrice.
  apply emitsOnly_bind; [apply emitsOnly_emit, Hb|]. intros _ w.
  destruct (emitsOnly_fetchsonicprice P env Hp Hl He w) as [evs [Ht Hall]].
  destruct (fetchsonicprice rt env w) as [r w1]. simpl in Ht.
  exists evs.
  destruct (_ && _)%bool; simpl; auto.
Qed.

End ServerTraces.

(** ** The shape of every response *)

Section ServerReplies.

Variable rt : Runtime.

Lemma send_wellFormed (code : Z) (rest : fieldsT) :
  In code [200; 400; 404; 500] ->
  wellFormedReply (send rt code (("success", JBool (code =? 200)) :: rest)).
Proof.
  intros H. split; [exact H | reflexivity].
Qed.

Lemma failure_wellFormed (msg : string) (e : exn) :
  wellFormedReply (failure rt msg e).
Proof.
  apply (send_wellFormed 500). simpl. tauto.
Qed.

Lemma returnsReply_ret (r : response) :
  wellFormedReply r -> returnsReply (ret r).
Proof.
  intros H w r' w' [= <- _]. exact H.
Qed.

Lemma returnsReply_throw (e : exn) : returnsReply (throw e).
Proof.
  intros w r w' H. discriminate H.
Qed.

Lemma returnsReply_bind {A} (m : M A) (k : A -> M response) :
  (forall a, returnsReply (k a)) -> returnsReply (bind m k).
Proof.
  intros Hk w r w'. unfold bind.
  destruct (m w) as [[a|e] w1]; [apply Hk | discriminate].
Qed.

Lemma catchAll_wellFormed (m : M response)
    (h : exn -> world -> response * world) (w : world) :
  returnsReply m ->
  (forall e w', wellFormedReply (fst (h e w'))) ->
  wellFormedReply (fst (catchAll m h w)).
Proof.
  intros Hm Hh. unfold catchAll.
  destruct (m w) as [[r|e] w1] eqn:E; [|apply Hh].
  simpl. eapply Hm. eassumption.
Qed.

Ltac reply_step :=
  first
    [ apply returnsReply_throw
    | apply returnsReply_ret;
      first [ apply (send_wellFormed 200) | apply (send_wellFormed 400)
            | apply (send_wellFormed 404) | apply (send_wellFormed 500) ];
      simpl; tauto
    | apply returnsReply_bind; intros ?
    | match goal with
      | |- returnsReply (if ?c then _ else _) => destruct c
      | |- returnsReply (match ?x with _ => _ end) => destruct x
      end ].

(** X1.  Each of the six handlers of the API, given a request whose
    body [express.json()] has parsed into an object, answers with status
    200, 400, 404 or 500 whatever the price provider, the analysis, the
    wallet service and the database do, and the [success] flag of the
    body is true on 200 and false on the three others.  The page at
    GET /, the static files and the answer of the body parser to a body
    it rejects are not handlers of the API and are outside [request]. *)
Theorem api_reply_wellFormed (env : Env) (req : request) (w : world) :
  wellFormedReply (fst (handle rt env req w)).
Proof.
  destruct req as [ | |b|b|b|a]; simpl;
    apply catchAll_wellFormed;
    try (intros e w'; try destruct (hasResponse e); apply failure_wellFormed);
    cbv zeta; repeat reply_step.
Qed.

End ServerReplies.

(** ** Who may transfer and who may write *)

Section ServerEffects.

Variable rt : Runtime.

(** X2.  Every transfer that POST /api/invest asks of the wallet service
    goes to the fixed recipient wallet, never to the wallet address of
    the body, for the amount and the risk level of the body, both truthy,
    at a truthy token price; the handler never calls the analysis and
    never reads the collection. *)
Theorem invest_transfers_to_recipient_only (env : Env) (b : fieldsT) :
  emitsOnly (investEvent b) (invest rt env b).
Proof.
  unfold invest. cbv zeta.
  apply emitsOnly_catchAll; [|intros e; now apply emitsOnly_failing].
  destruct (falsy (field b "amount") || falsy (field b "riskLevel"))%bool
    eqn:Hguard; [apply emitsOnly_ret|].
  apply orb_false_elim in Hguard as [Ha Hr].
  unfold falsy in Ha, Hr. apply negb_false_iff in Ha, Hr.
  apply emitsOnly_bind.
  { apply emitsOnly_axiosGetPrice; intros; exact I. }
  intros data.
  destruct (falsy (field data "price")) eqn:Hp; [apply emitsOnly_throw|].
  unfold falsy in Hp. apply negb_false_iff in Hp.
  apply emitsOnly_bind.
  { apply emitsOnly_emit. simpl. auto 7. }
  intros _.
  apply emitsOnly_bind; [apply emitsOnly_liftOutcome|]. intros txHash.
  apply emitsOnly_bind.
  - destruct (truthy (field b "walletAddress")); [|apply emitsOnly_ret].
    apply emitsOnly_tryCatch.
    + apply emitsOnly_bind; [apply emitsOnly_callToLowerCase|]. intros a.
      apply emitsOnly_bind; [apply emitsOnly_now|]. intros t1.
      apply emitsOnly_bind; [apply emitsOnly_now|]. intros t2.
      apply emitsOnly_bind.
      * apply emitsOnly_findOneAndUpdate. exact I.
      * intros _. apply emitsOnly_emit. exact I.
    + intros e. apply emitsOnly_emit. exact I.
  - intros _. repeat emits_step.
Qed.

Lemma emitsOnly_handle_other (P : event -> Prop) (env : Env) (req : request) :
  isInvest req = false ->
  (forall ev, ~ isTransfer ev -> P ev) ->
  emitsOnly P (handle rt env req).
Proof.
  intros Hreq HP.
  assert (HE : forall label, P (EvConsoleError label)) by (intros; apply HP; intros []).
  assert (HL : forall label, P (EvConsoleLog label)) by (intros; apply HP; intros []).
  destruct req as [ | |b|b|b|a]; try discriminate; simpl.
  - apply emitsOnly_fetchsonicprice; auto; intros; apply HP; intros [].
  - unfold analyze. cbv zeta. apply emitsOnly_catchAll.
    + repeat emits_step. apply HP. intros [].
    + intros e. apply emitsOnly_failing. apply HE.
  - unfold postUser. cbv zeta. apply emitsOnly_catchAll.
    + destruct (falsy _); [apply emitsOnly_ret|].
      apply emitsOnly_bind; [apply emitsOnly_callToLowerCase|]. intros a.
      apply emitsOnly_bind; [repeat emits_step|]. intros seen.
      apply emitsOnly_bind.
      * apply emitsOnly_findOneAndUpdate. apply HP. intros [].
      * intros user. apply emitsOnly_bind; [apply emitsOnly_userView|].
        intros view. apply emitsOnly_ret.
    + intros e. apply emitsOnly_failing. apply HE.
  - unfold postUserInvestment. cbv zeta. apply emitsOnly_catchAll.
    + destruct (_ || _)%bool; [apply emitsOnly_ret|].
      apply emitsOnly_bind; [apply emitsOnly_callToLowerCase|]. intros a.
      apply emitsOnly_bind; [apply emitsOnly_now|]. intros t.
      apply emitsOnly_bind.
      * apply emitsOnly_findOneAndUpdate. apply HP. intros [].
      * intros [d|]; apply emitsOnly_ret.
    + intros e. apply emitsOnly_failing. apply HE.
  - unfold getUser. apply emitsOnly_catchAll.
    + destruct (String.eqb a EmptyString); [apply emitsOnly_ret|].
      apply emitsOnly_bind.
      * apply emitsOnly_findOne. apply HP. intros [].
      * intros [d|]; [|apply emitsOnly_ret].
        apply emitsOnly_bind; [apply emitsOnly_userView|].
        intros view. apply emitsOnly_ret.
    + intros e. apply emitsOnly_failing. apply HE.
Qed.

(** X3.  POST /api/invest is the only route that moves money: serving
    any other request adds no call of [sendTransaction] to the trace. *)
Theorem only_invest_transfers (env : Env) (req : request) :
  isInvest req = false ->
  emitsOnly (fun ev => ~ isTransfer ev) (handle rt env req).
Proof.
  intros Hreq. apply emitsOnly_handle_other; auto.
Qed.

Lemma emitsOnly_handle_get (env : Env) (req : request) :
  isGet req = true ->
  emitsOnly (fun ev => ~ isDbWrite ev /\ ~ isTransfer ev) (handle rt env req).
Proof.
  intros Hreq.
  assert (HP : forall ev, ~ isDbWrite ev -> ~ isTransfer ev ->
                          ~ isDbWrite ev /\ ~ isTransfer ev) by auto.
  destruct req as [ | |b|b|b|a]; try discriminate; simpl.
  - apply emitsOnly_fetchsonicprice; intros; apply HP; intros [].
  - unfold analyze. cbv zeta. apply emitsOnly_catchAll.
    + repeat emits_step. apply HP; intros [].
    + intros e. apply emitsOnly_failing. apply HP; intros [].
  - unfold getUser. apply emitsOnly_catchAll.
    + destruct (String.eqb a EmptyString); [apply emitsOnly_ret|].
      apply emitsOnly_bind.
      * apply emitsOnly_findOne. apply HP; intros [].
      * intros [d|]; [|apply emitsOnly_ret].
        apply emitsOnly_bind; [apply emitsOnly_userView|].
        intros view. apply emitsOnly_ret.
    + intros e. apply emitsOnly_failing. apply HP; intros [].
Qed.

(** X4.  The three GET routes only read: serving one leaves the
    collection as it is and adds neither a database write nor a transfer
    to the trace. *)
Theorem get_routes_read_only (env : Env) (req : request) :
  isGet req = true ->
  (forall w, users (snd (handle rt env req w)) = users w) /\
  emitsOnly (fun ev => ~ isDbWrite ev /\ ~ isTransfer ev) (handle rt env req).
Proof.
  intros Hreq. split; [|now apply emitsOnly_handle_get].
  intros w. destruct req as [ | |b|b|b|a]; try discriminate; simpl.
  - apply fetchsonicprice_frame.
  - apply analyze_frame.
  - apply getUser_frame.
Qed.

End ServerEffects.

(** ** The user routes *)

Section UserRoutes.

Variable rt : Runtime.

Lemma getUser_run (env : Env) (s : string) (w : world) :
  mongo env = None ->
  s <> EmptyString ->
  getUser rt env s w =
  match findDoc (toLowerCase s) (users w) with
  | Some d =>
      (userReply rt (hydrated env (clockReads w) d),
       mkWorld (users w) (defaultsTaken d + clockReads w)
               (trace w ++ [EvDbRead (toLowerCase s)]))
  | None =>
      (send rt 404 [ ("success", JBool false);
                     ("message", JStr "User not found") ],
       mkWorld (users w) (clockReads w)
               (trace w ++ [EvDbRead (toLowerCase s)]))
  end.
Proof.
  intros Hm Hs. unfold getUser, catchAll.
  destruct (String.eqb s EmptyString) eqn:E;
    [apply String.eqb_eq in E; contradiction|].
  unfold bind at 1. rewrite User_findOne_run, Hm.
  destruct (findDoc (toLowerCase s) (users w)) as [d|]; reflexivity.
Qed.

Lemma toLowerCase_empty (s : string) :
  toLowerCase s = EmptyString -> s = EmptyString.
Proof.
  destruct s; [reflexivity | discriminate].
Qed.

Lemma truthy_JStr (s : string) :
  truthy (JStr s) = true <-> s <> EmptyString.
Proof.
  simpl. rewrite negb_true_iff. apply String.eqb_neq.
Qed.

(** X5.  GET /api/user/:walletAddress looks the address up in lower
    case.  On a database that answers it replies 404 when no record has
    the address, and otherwise 200 with the wallet address of the record
    and with [firstSeen] and [lastSeen], each the stored date where the
    record has one and otherwise the default of the schema, [Date.now]
    read while the request is served.  The collection is left as it is,
    the trace gains the one read, and the clock is read once for every
    default taken. *)
Theorem getUser_answers_from_collection (env : Env) (s : string) (w : world) :
  mongo env = None ->
  s <> EmptyString ->
  (findDoc (toLowerCase s) (users w) = None ->
   status (fst (getUser rt env s w)) = 404 /\
   clockReads (snd (getUser rt env s w)) = clockReads w) /\
  (forall d,
     findDoc (toLowerCase s) (users w) = Some d ->
     status (fst (getUser rt env s w)) = 200 /\
     field (body (fst (getUser rt env s w))) "user" =
     toJSON rt
       (JObj [ ("walletAddress", field d "walletAddress");
               ("firstSeen",
                seenOr (firstSeenOf d) (clock env (clockReads w)));
               ("lastSeen",
                seenOr (lastSeenOf d)
                       (clock env (if isUndefined (firstSeenOf d)
                                   then S (clockReads w)
                                   else clockReads w))) ]) /\
     clockReads (snd (getUser rt env s w))
       = (defaultsTaken d + clockReads w)%nat) /\
  users (snd (getUser rt env s w)) = users w /\
  trace (snd (getUser rt env s w))
    = (trace w ++ [EvDbRead (toLowerCase s)])%list.
Proof.
  intros Hm Hs. rewrite (getUser_run env s w Hm Hs).
  split; [|split; [|split]].
  - intros ->. split; reflexivity.
  - intros d ->. cbn [fst snd clockReads].
    split; [reflexivity|]. split; [|reflexivity].
    destruct (hydrated_seen env (clockReads w) d) as [Hf Hl].
    unfold firstSeenOf, lastSeenOf in Hf, Hl.
    unfold userReply. rewrite Hf, Hl.
    rewrite (hydrated_fields env (clockReads w) d "walletAddress")
      by discriminate.
    reflexivity.
  - destruct (findDoc (toLowerCase s) (users w)); reflexivity.
  - destruct (findDoc (toLowerCase s) (users w)); reflexivity.
Qed.

(** X6.  What POST /api/user stores, GET /api/user/:walletAddress gives
    back.  When the address is new, or its record stores a [firstSeen],
    then after a POST that the database accepts a GET for the same
    address in any letter case is answered with the very response the
    POST got, and leaves the collection as the POST left it. *)
Theorem postUser_then_getUser (env1 env2 : Env) (b : fieldsT) (w : world)
    (s s' : string) :
  field b "walletAddress" = JStr s ->
  s <> EmptyString ->
  validSeen rt b ->
  mongo env1 = None ->
  mongo env2 = None ->
  toLowerCase s' = toLowerCase s ->
  (forall d,
     findDoc (toLowerCase s) (users w) = Some d ->
     isUndefined (firstSeenOf d) = false) ->
  let w1 := snd (postUser rt env1 b w) in
  status (fst (postUser rt env1 b w)) = 200 /\
  fst (getUser rt env2 s' w1) = fst (postUser rt env1 b w) /\
  users (snd (getUser rt env2 s' w1)) = users w1.
Proof.
  intros Hb Hs Hv Hm1 Hm2 Hlow Hfirst w1.
  assert (Hs' : s' <> EmptyString).
  { intros ->. simpl in Hlow. symmetry in Hlow.
    now apply toLowerCase_empty in Hlow. }
  apply truthy_JStr in Hs.
  destruct (validSeen_stamp rt env1 b w Hv) as [t Ht].
  assert (Hdoc : exists doc,
             fst (postUser rt env1 b w) = userReply rt doc /\
             findDoc (toLowerCase s) (users w1) = Some doc /\
             storesDates doc).
  { unfold w1.
    destruct (findDoc (toLowerCase s) (users w)) as [d|] eqn:Hf.
    - destruct (postUser_found rt env1 b w s t d Hb Hs Hm1 Ht Hf)
        as [_ [_ Hfd]].
      pose proof (storesDates_touch t d (Hfirst d eq_refl)) as Hst.
      exists (touch t d). split; [|split; [exact Hfd | exact Hst]].
      rewrite (postUser_run rt env1 b w s t Hb Hs Hm1 Ht), Hf.
      cbn [fst].
      now destruct (hydrated_storesDates env1 (S (readsBeforeDefault b w))
                      (touch t d) Hst) as [-> _].
    - destruct (postUser_created rt env1 b w s t Hb Hs Hm1 Ht Hf)
        as [_ [_ [Hfd _]]].
      eexists. split; [|split; [exact Hfd | split; reflexivity]].
      rewrite (postUser_run rt env1 b w s t Hb Hs Hm1 Ht), Hf. reflexivity. }
  destruct Hdoc as [doc [Hreply [Hfd Hst]]].
  rewrite (getUser_run env2 s' w1 Hm2 Hs'), Hlow, Hfd, Hreply.
  destruct (hydrated_storesDates env2 (clockReads w1) doc Hst) as [-> _].
  repeat split.
Qed.

(** X7.  POST /api/user and POST /api/user/investment check their
    required fields first: a falsy [walletAddress] (absent, null, empty)
    or, for the investment route, a falsy [investment] is answered 400
    and the world is left untouched. *)
Theorem user_routes_require_fields (env : Env) (b : fieldsT) (w : world) :
  (truthy (field b "walletAddress") = false ->
   status (fst (postUser rt env b w)) = 400 /\
   snd (postUser rt env b w) = w) /\
  (truthy (field b "walletAddress") = false \/
   truthy (field b "investment") = false ->
   status (fst (postUserInvestment rt env b w)) = 400 /\
   snd (postUserInvestment rt env b w) = w).
Proof.
  split.
  - intros H. unfold postUser, catchAll, falsy. rewrite H. split; reflexivity.
  - intros H. unfold postUserInvestment, catchAll, falsy.
    replace (negb (truthy (field b "walletAddress"))
             || negb (truthy (field b "investment")))%bool with true.
    + split; reflexivity.
    + destruct H as [H | H]; rewrite H; simpl;
        [reflexivity | now rewrite orb_true_r].
Qed.

End UserRoutes.

(** ** When something fails *)

Section Failures.

Variable rt : Runtime.

Lemma failure_fields (msg : string) (e : exn) :
  status (failure rt msg e) = 500 /\
  field (body (failure rt msg e)) "message" = JStr msg /\
  field (body (failure rt msg e)) "error" = JStr (errorMessage e).
Proof.
  repeat split.
Qed.

(** X8.  When MongoDB rejects the command, the three user routes answer
    500 with the text of the database error under [error], and the
    collection is what it was. *)
Theorem user_routes_db_rejection_500 (env : Env) (w : world) (e : exn) :
  mongo env = Some e ->
  (forall b s,
     field b "walletAddress" = JStr s ->
     s <> EmptyString ->
     validSeen rt b ->
     status (fst (postUser rt env b w)) = 500 /\
     field (body (fst (postUser rt env b w))) "error" = JStr (errorMessage e) /\
     users (snd (postUser rt env b w)) = users w) /\
  (forall b s,
     field b "walletAddress" = JStr s ->
     s <> EmptyString ->
     truthy (field b "investment") = true ->
     status (fst (postUserInvestment rt env b w)) = 500 /\
     field (body (fst (postUserInvestment rt env b w))) "error"
       = JStr (errorMessage e) /\
     users (snd (postUserInvestment rt env b w)) = users w) /\
  (forall s,
     s <> EmptyString ->
     status (fst (getUser rt env s w)) = 500 /\
     field (body (fst (getUser rt env s w))) "error" = JStr (errorMessage e) /\
     users (snd (getUser rt env s w)) = users w).
Proof.
  intros Hm. split; [|split].
  - intros b s Hb Hs Hv. apply truthy_JStr in Hs.
    destruct (validSeen_stamp rt env b w Hv) as [t Ht].
    unfold postUser, catchAll, falsy, postUserStamp in *.
    rewrite Hb, Hs.
    destruct (truthy (field b "lastSeen")).
    + cbv [bind callToLowerCase now ret negb]. rewrite Ht.
      rewrite (User_update_run _ _ _ _ _ _ _ (cast_user_update rt (Some t) _)).
      simpl. rewrite (userWrite_rejected _ _ _ _ _ _ _ Hm).
      repeat split.
    + cbv [bind callToLowerCase now ret negb].
      rewrite (User_update_run _ _ _ _ _ _ _ (cast_user_update rt (Some _) _)).
      simpl. rewrite (userWrite_rejected _ _ _ _ _ _ _ Hm).
      repeat split.
  - intros b s Hb Hs Hi. apply truthy_JStr in Hs.
    unfold postUserInvestment, catchAll, falsy.
    rewrite Hb, Hs, Hi.
    cbv [bind callToLowerCase now ret negb orb].
    rewrite (User_update_run _ _ _ _ _ _ _ (cast_push_investments rt _ _)).
    simpl. rewrite (userWrite_rejected _ _ _ _ _ _ _ Hm).
    repeat split.
  - intros s Hs. unfold getUser, catchAll.
    destruct (String.eqb s EmptyString) eqn:E;
      [apply String.eqb_eq in E; contradiction|].
    unfold User_findOne, findOne. cbv [bind emit getUsers ret].
    rewrite Hm. repeat split.
Qed.

(** X9.  A POST /api/user whose [lastSeen] is not a date that [new Date]
    can read is answered 500: the cast of the update fails before any
    command reaches MongoDB, so no user is made or changed and the trace
    gains the error log alone. *)
Theorem postUser_invalid_lastSeen_500 (env : Env) (b : fieldsT) (w : world)
    (s : string) :
  field b "walletAddress" = JStr s ->
  s <> EmptyString ->
  truthy (field b "lastSeen") = true ->
  rt_DateOf rt (field b "lastSeen") = None ->
  status (fst (postUser rt env b w)) = 500 /\
  users (snd (postUser rt env b w)) = users w /\
  trace (snd (postUser rt env b w)) =
    (trace w ++ [EvConsoleError "Error saving user data:"])%list.
Proof.
  intros Hb Hs Hl Hd. apply truthy_JStr in Hs.
  unfold postUser, catchAll, falsy. rewrite Hb, Hs, Hl.
  cbv [bind callToLowerCase now ret negb]. rewrite Hd.
  rewrite (User_update_cast_fail _ _ _ _ _ _ _ (cast_user_update rt None _)).
  repeat split.
Qed.

(** X10.  The [chainId] that a POST /api/user carries is not stored: the
    schema has no such path, so the document the request makes has the
    wallet address, [lastSeen] and [firstSeen] and nothing else, and a
    document it updates keeps whatever it had under [chainId]. *)
Theorem postUser_drops_chainId (env : Env) (b : fieldsT) (w : world)
    (s : string) :
  field b "walletAddress" = JStr s ->
  s <> EmptyString ->
  validSeen rt b ->
  mongo env = None ->
  exists d',
    findDoc (toLowerCase s) (users (snd (postUser rt env b w))) = Some d' /\
    match findDoc (toLowerCase s) (users w) with
    | Some d => lookup "chainId" d' = lookup "chainId" d
    | None => map fst d' = [ "walletAddress"; "lastSeen"; "firstSeen" ]
    end.
Proof.
  intros Hb Hs Hv Hm. apply truthy_JStr in Hs.
  destruct (validSeen_stamp rt env b w Hv) as [t Ht].
  destruct (findDoc (toLowerCase s) (users w)) as [d|] eqn:Hf.
  - destruct (postUser_found rt env b w s t d Hb Hs Hm Ht Hf) as [_ [_ Hfd]].
    exists (touch t d). split; [exact Hfd|].
    unfold touch. now rewrite lookup_setField_other.
  - destruct (postUser_created rt env b w s t Hb Hs Hm Ht Hf)
      as [_ [_ [Hfd _]]].
    eexists. split; [exact Hfd | reflexivity].
Qed.

End Failures.

(** ** POST /api/invest, step by step *)

Section InvestRoute.

Variable rt : Runtime.

Lemma transferred_quoted (env : Env) (b : fieldsT) (price : Q)
    (txHash : string) :
  transferred env b price txHash ->
  quoted env b price /\ sendTransaction env (transferArgs b price) = Ok txHash.
Proof.
  intros [Ha Hr Hq Hp Htx]. split; [constructor|]; assumption.
Qed.

Lemma invest_quoted_failed (env : Env) (b : fieldsT) (w : world)
    (price : Q) (e : exn) :
  quoted env b price ->
  sendTransaction env (transferArgs b price) = Throw e ->
  invest rt env b w =
  (failure rt "Failed to process investment" e,
   consoleError "Error processing investment:"
     (mkWorld (users w) (S (clockReads w)) (sentTrace b price w))).
Proof.
  intros [Ha Hr [dfs [efs [Hp [He Hu]]]] Hq] Htx.
  unfold invest, catchAll.
  unfold falsy. rewrite Ha, Hr. simpl.
  unfold bind at 1. unfold axiosGetPrice. unfold bind at 1. unfold emit at 1.
  rewrite (fetchsonicprice_ok rt _ _ _ _ Hp He). rewrite Hu. simpl.
  destruct (Qnum price =? 0) eqn:E; [apply Z.eqb_eq in E; contradiction|].
  simpl.
  unfold bind at 1. unfold bind at 1. unfold emit at 1. unfold liftOutcome at 1.
  simpl. rewrite !quoted_price.
  unfold transferArgs in Htx. rewrite Htx. reflexivity.
Qed.

(** X11.  When [sendTransaction] fails, POST /api/invest answers 500 with
    the text of the failure and records nothing: the collection is what
    it was and the trace ends with the call of [sendTransaction] and the
    error log, without any command to MongoDB. *)
Theorem invest_failed_transfer_500 (env : Env) (b : fieldsT) (w : world)
    (price : Q) (e : exn) :
  quoted env b price ->
  sendTransaction env (transferArgs b price) = Throw e ->
  status (fst (invest rt env b w)) = 500 /\
  field (body (fst (invest rt env b w))) "error" = JStr (errorMessage e) /\
  lookup "transactionHash" (body (fst (invest rt env b w))) = None /\
  users (snd (invest rt env b w)) = users w /\
  trace (snd (invest rt env b w)) =
    (sentTrace b price w ++ [EvConsoleError "Error processing investment:"])%list.
Proof.
  intros Hq Htx. rewrite (invest_quoted_failed env b w price e Hq Htx).
  repeat split.
Qed.

Lemma falsy_toJSON (v : jsval) :
  truthy v = false -> truthy (toJSON rt v) = false.
Proof.
  destruct v; simpl; auto; discriminate.
Qed.

Lemma priceBody_price (usd : jsval) (stamp : string) :
  field (jsonBody rt [ ("success", JBool true);
                       ("price", usd);
                       ("currency", JStr "USD");
                       ("token_id", JStr "sonic-3");
                       ("timestamp", JStr stamp) ]) "price" = toJSON rt usd.
Proof.
  destruct usd as [ | |x|q|s|[t|]|l|fs]; reflexivity.
Qed.

Lemma invest_falsy_quote (env : Env) (b : fieldsT) (w : world)
    (dfs efs : fieldsT) :
  truthy (field b "amount") = true ->
  truthy (field b "riskLevel") = true ->
  priceApi env = Ok (JObj dfs) ->
  field dfs "sonic-3" = JObj efs ->
  truthy (field efs "usd") = false ->
  invest rt env b w =
  (failure rt "Failed to process investment"
     (JsError "Failed to get current token price"),
   mkWorld (users w) (S (clockReads w))
     ((((trace w ++ [EvLoopback "/api/fetchsonicprice"])
        ++ [EvPriceApi "sonic-3"]) ++ [EvConsoleLog "API Response:"])
      ++ [EvConsoleError "Error processing investment:"])).
Proof.
  intros Ha Hr Hp He Hu.
  unfold invest, catchAll, falsy. rewrite Ha, Hr. simpl.
  unfold bind at 1. unfold axiosGetPrice. unfold bind at 1. unfold emit at 1.
  rewrite (fetchsonicprice_ok rt _ _ _ _ Hp He). simpl.
  rewrite !priceBody_price, (falsy_toJSON _ Hu). reflexivity.
Qed.

(** X12.  Without a usable price there is no transfer.  When the price
    provider fails, or answers for the token with a quote that is falsy
    (none, null, zero), POST /api/invest with [amount] and [riskLevel]
    answers 500, leaves the collection alone, and what it adds to the
    trace holds no call of [sendTransaction] and no command to MongoDB. *)
Theorem invest_without_price_500 (env : Env) (b : fieldsT) (w : world) :
  truthy (field b "amount") = true ->
  truthy (field b "riskLevel") = true ->
  (exists e, priceApi env = Throw e) \/
  (exists dfs efs,
     priceApi env = Ok (JObj dfs) /\
     field dfs "sonic-3" = JObj efs /\
     truthy (field efs "usd") = false) ->
  status (fst (invest rt env b w)) = 500 /\
  users (snd (invest rt env b w)) = users w /\
  exists evs,
    trace (snd (invest rt env b w)) = (trace w ++ evs)%list /\
    Forall isQuiet evs.
Proof.
  intros Ha Hr [[e Hp] | [dfs [efs [Hp [He Hu]]]]].
  - unfold invest, catchAll, falsy. rewrite Ha, Hr.
    unfold axiosGetPrice, fetchsonicprice, catchAll, bind, emit, liftOutcome.
    simpl. rewrite Hp. simpl.
    destruct (hasResponse e); simpl;
      (split; [reflexivity|]); (split; [reflexivity|]);
      eexists; rewrite <- !app_assoc; (split; [reflexivity|]);
      repeat constructor; intros [].
  - rewrite (invest_falsy_quote env b w dfs efs Ha Hr Hp He Hu). simpl.
    split; [reflexivity|]. split; [reflexivity|].
    eexists. rewrite <- !app_assoc. split; [reflexivity|].
    repeat constructor; intros [].
Qed.

(** X13.  A body without a wallet address that is a non-empty string does
    not reach the database: after the transfer POST /api/invest answers
    200 with the transaction hash, the collection is what it was and no
    command is sent to MongoDB, whether the address is absent or of
    another type (then the failed [toLowerCase] is logged and dropped). *)
Theorem invest_without_string_wallet (env : Env) (b : fieldsT) (w : world)
    (price : Q) (txHash : string) :
  transferred env b price txHash ->
  (forall s, field b "walletAddress" = JStr s -> s = EmptyString) ->
  status (fst (invest rt env b w)) = 200 /\
  field (body (fst (invest rt env b w))) "transactionHash" = JStr txHash /\
  users (snd (invest rt env b w)) = users w /\
  exists evs,
    trace (snd (invest rt env b w)) = (sentTrace b price w ++ evs)%list /\
    Forall (fun ev => ~ isDbAccess ev) evs.
Proof.
  intros Ht Hwa.
  rewrite (invest_transferred rt env b w price txHash Ht).
  destruct (field b "walletAddress") as [ | |x|q|s|t|l|fs] eqn:E; simpl.
  5: { rewrite (Hwa s eq_refl). simpl.
       repeat split. exists []. rewrite app_nil_r. auto. }
  all: try destruct x; try destruct (Qnum q =? 0); simpl;
    repeat split;
    first [ exists []; rewrite app_nil_r; split; [reflexivity | constructor]
          | eexists; split; [reflexivity|]; repeat constructor; intros [] ].
Qed.

(** X14.  POST /api/invest makes the user known: once it has recorded an
    investment for a wallet address, a POST /api/user/investment for
    that address, in any letter case, is answered 200 and not 404. *)
Theorem invest_then_postUserInvestment (env env' : Env) (b b' : fieldsT)
    (w : world) (price : Q) (txHash : string) (s s' : string) :
  transferred env b price txHash ->
  field b "walletAddress" = JStr s ->
  s <> EmptyString ->
  mongo env = None ->
  field b' "walletAddress" = JStr s' ->
  toLowerCase s' = toLowerCase s ->
  truthy (field b' "investment") = true ->
  mongo env' = None ->
  status (fst (invest rt env b w)) = 200 /\
  status (fst (postUserInvestment rt env' b' (snd (invest rt env b w)))) = 200.
Proof.
  intros Ht Hb Hs Hm Hb' Hlow Hi Hm'.
  assert (Hs' : truthy (JStr s') = true).
  { apply truthy_JStr. intros ->. simpl in Hlow. symmetry in Hlow.
    now apply toLowerCase_empty in Hlow. }
  apply truthy_JStr in Hs.
  destruct (invest_recorded rt env b w price txHash s Ht Hb Hs Hm)
    as [Hst [_ Hus]].
  split; [exact Hst|].
  rewrite (postUserInvestment_run rt env' b' _ s' Hb' Hs' Hi Hm'), Hlow.
  simpl in Hus.
  destruct (findDoc (toLowerCase s) (users w)) as [d|] eqn:Hf; rewrite Hus.
  - erewrite findDoc_replaceFirst_same; [reflexivity | eassumption |].
    unfold touch. rewrite matchesWallet_touch.
    now apply findDoc_matches in Hf.
  - rewrite findDoc_app, Hf.
    match goal with
    | |- context [matchesWallet ?a ?d] =>
        replace (matchesWallet a d) with true
          by (symmetry; apply matchesWallet_field;
              destruct (rt_setDefaultsOnInsertDefault rt); reflexivity)
    end.
    reflexivity.
Qed.

End InvestRoute.

(** ** The collection over the life of the server *)

Section Collection.

Variable rt : Runtime.



(** X16.  From an empty collection, whatever requests are served, every
    stored wallet address is a lower-case string and no two documents
    have the same one: a wallet address, in any letter case, names one
    document at most. *)
Theorem serve_unique_wallets (reqs : list (Env * request)) (a : string) :
  wellFormed (users (serve rt reqs emptyWorld)) /\
  (countWalletCI a (users (serve rt reqs emptyWorld)) <= 1)%nat.
Proof.
  pose proof (reachable_wellFormed rt reqs) as Hwf.
  split; [exact Hwf|].
  rewrite (wellFormed_count a _ Hwf).
  destruct (findDoc _ _); lia.
Qed.

End Collection.

(** ** The price and the analysis routes *)

Section PriceRoutes.

Variable rt : Runtime.

(** X17.  GET /api/fetchsonicprice answers 500, 'Failed to fetch Sonic
    token price', and no price, when the request to the provider fails
    (with the text of the failure under [error]) and when the provider's
    answer has no entry for 'sonic-3' (the read of [usd] off undefined is
    a TypeError); it leaves the collection alone. *)
Theorem fetchsonicprice_failure_500 (env : Env) (w : world) :
  (forall e,
     priceApi env = Throw e ->
     status (fst (fetchsonicprice rt env w)) = 500 /\
     field (body (fst (fetchsonicprice rt env w))) "message"
       = JStr "Failed to fetch Sonic token price" /\
     field (body (fst (fetchsonicprice rt env w))) "error"
       = JStr (errorMessage e) /\
     lookup "price" (body (fst (fetchsonicprice rt env w))) = None) /\
  (forall dfs,
     priceApi env = Ok (JObj dfs) ->
     lookup "sonic-3" dfs = None ->
     status (fst (fetchsonicprice rt env w)) = 500 /\
     field (body (fst (fetchsonicprice rt env w))) "message"
       = JStr "Failed to fetch Sonic token price" /\
     lookup "price" (body (fst (fetchsonicprice rt env w))) = None) /\
  users (snd (fetchsonicprice rt env w)) = users w.
Proof.
  split; [|split; [|apply fetchsonicprice_frame]].
  - intros e Hp.
    unfold fetchsonicprice, catchAll, bind, emit, liftOutcome. simpl.
    rewrite Hp. simpl. destruct (hasResponse e); repeat split.
  - intros dfs Hp Hn.
    unfold fetchsonicprice, catchAll, bind, emit, liftOutcome. simpl.
    rewrite Hp. simpl. unfold field. rewrite Hn. repeat split.
Qed.

Lemma analysisBody_fields (a : jsval) (stamp : string) :
  let fs := jsonBody rt [ ("success", JBool true);
                          ("token_id", JStr "sonic-3");
                          ("analysis", a);
                          ("timestamp", JStr stamp) ] in
  field fs "token_id" = JStr "sonic-3" /\ field fs "analysis" = toJSON rt a.
Proof.
  destruct a as [ | |x|q|s|[t|]|l|fs]; split; reflexivity.
Qed.

(** X18.  GET /api/analyze hands the analysis on as [analyzeTokenRisk]
    returned it, with [token_id] 'sonic-3', and answers 500, 'Failed to
    analyze token', with the text of the error when the analysis throws;
    either way the collection is left alone. *)
Theorem analyze_passes_analysis_on (env : Env) (w : world) :
  (forall a,
     analyzeTokenRisk env = Ok a ->
     status (fst (analyze rt env w)) = 200 /\
     field (body (fst (analyze rt env w))) "token_id" = JStr "sonic-3" /\
     field (body (fst (analyze rt env w))) "analysis" = toJSON rt a) /\
  (forall e,
     analyzeTokenRisk env = Throw e ->
     status (fst (analyze rt env w)) = 500 /\
     field (body (fst (analyze rt env w))) "message"
       = JStr "Failed to analyze token" /\
     field (body (fst (analyze rt env w))) "error" = JStr (errorMessage e)) /\
  users (snd (analyze rt env w)) = users w.
Proof.
  split; [|split; [|apply analyze_frame]].
  - intros a Ha. unfold analyze, catchAll, bind, emit, liftOutcome. simpl.
    rewrite Ha. simpl. split; [reflexivity|]. apply analysisBody_fields.
  - intros e Ha. unfold analyze, catchAll, bind, emit, liftOutcome. simpl.
    rewrite Ha. repeat split.
Qed.

End PriceRoutes.

(** * Properties of the page *)

Section ClientFacts.

Import Client.

(** ** Substrings *)

Lemma substring_whole (s : string) (m : nat) :
  (String.length s <= m)%nat -> String.substring 0 m s = s.
Proof.
  revert m. induction s as [|c r IH]; intros m Hm.
  - destruct m; reflexivity.
  - destruct m as [|m]; simpl in *; [lia|].
    rewrite IH by lia. reflexivity.
Qed.

Lemma substring_prefix (p r : string) :
  String.substring 0 (String.length p) (p ++ r) = p.
Proof.
  induction p as [|c p IH]; simpl.
  - destruct r; reflexivity.
  - now rewrite IH.
Qed.

Lemma substring_skip (p r : string) (n m : nat) :
  String.substring (String.length p + n) m (p ++ r) = String.substring n m r.
Proof.
  induction p as [|c p IH]; simpl; [reflexivity | exact IH].
Qed.

Lemma length_append (a b : string) :
  String.length (a ++ b) = (String.length a + String.length b)%nat.
Proof.
  induction a as [|c a IH]; simpl; [reflexivity | now rewrite IH].
Qed.

Lemma length_substring (n m : nat) (s : string) :
  (String.length (String.substring n m s) <= m)%nat.
Proof.
  revert n m. induction s as [|c r IH]; intros n m.
  - destruct n, m; simpl; lia.
  - destruct n as [|n].
    + destruct m as [|m]; simpl; [lia|]. specialize (IH 0%nat m). lia.
    + simpl. apply IH.
Qed.

(** X19.  [formatAddress] gives the first six and the last four
    characters of the address around three dots, for an address of any
    length: the first six are the whole address when it has fewer, the
    last four likewise, and the two overlap when it has fewer than ten.
    So an address of ten characters or more gives thirteen, a non-empty
    one of four or fewer is shown twice over, and no result is longer
    than thirteen; null and the empty string give the empty string. *)
Theorem formatAddress_shape :
  (forall s p r m q,
     s <> EmptyString ->
     s = p ++ r -> String.length p = Nat.min 6 (String.length s) ->
     s = m ++ q -> String.length q = Nat.min 4 (String.length s) ->
     formatAddress (Some s) = p ++ "..." ++ q) /\
  (forall p m q,
     String.length p = 6%nat -> String.length q = 4%nat ->
     formatAddress (Some (p ++ m ++ q)) = p ++ "..." ++ q) /\
  (forall s,
     s <> EmptyString -> (String.length s <= 4)%nat ->
     formatAddress (Some s) = s ++ "..." ++ s) /\
  (forall address, (String.length (formatAddress address) <= 13)%nat) /\
  formatAddress None = EmptyString /\
  formatAddress (Some EmptyString) = EmptyString.
Proof.
  split; [|split; [|split; [|split; [|split; reflexivity]]]].
  - intros s p r m q Hs Hp Hlp Hq Hlq. unfold formatAddress.
    destruct (String.eqb s EmptyString) eqn:E;
      [apply String.eqb_eq in E; contradiction|].
    unfold jsSubstring, clampIndex.
    assert (Hlen : String.length s = (String.length m + String.length q)%nat).
    { rewrite Hq at 1. apply length_append. }
    replace (Nat.min (Z.to_nat (Z.min (Z.max 0 0) (Z.of_nat (String.length s))))
                     (Z.to_nat (Z.min (Z.max 6 0) (Z.of_nat (String.length s)))))
      with 0%nat by lia.
    replace (Nat.max (Z.to_nat (Z.min (Z.max 0 0) (Z.of_nat (String.length s))))
                     (Z.to_nat (Z.min (Z.max 6 0) (Z.of_nat (String.length s))))
             - 0)%nat
      with (String.length p) by lia.
    rewrite Hp at 1. rewrite substring_prefix.
    do 2 f_equal.
    replace (Nat.min _ _) with (String.length m + 0)%nat by lia.
    replace (Nat.max _ _ - _)%nat with (String.length q) by lia.
    rewrite Hq at 1. rewrite substring_skip.
    apply substring_whole. lia.
  - intros p m q Hp Hq. unfold formatAddress.
    destruct (String.eqb (p ++ m ++ q) EmptyString) eqn:E.
    { apply String.eqb_eq in E. apply (f_equal String.length) in E.
      rewrite length_append in E. simpl in E. lia. }
    unfold jsSubstring, clampIndex.
    rewrite !length_append, Hp, Hq.
    replace (Nat.min _ _) with 0%nat by lia.
    replace (Nat.max _ _ - 0)%nat with (String.length p) by lia.
    rewrite substring_prefix.
    do 2 f_equal.
    replace (Nat.min _ _) with (String.length p + String.length m)%nat by lia.
    replace (Nat.max _ _ - _)%nat with (String.length q) by lia.
    rewrite substring_skip.
    replace (String.length m) with (String.length m + 0)%nat at 1 by lia.
    rewrite substring_skip.
    apply substring_whole. lia.
  - intros s Hs Hlen. unfold formatAddress.
    destruct (String.eqb s EmptyString) eqn:E;
      [apply String.eqb_eq in E; contradiction|].
    unfold jsSubstring, clampIndex.
    replace (Nat.min _ _) with 0%nat by lia.
    replace (Nat.max _ _ - 0)%nat with (String.length s) by lia.
    rewrite substring_whole by lia. do 2 f_equal.
    replace (Nat.min _ _) with 0%nat by lia.
    replace (Nat.max _ _ - 0)%nat with (String.length s) by lia.
    apply substring_whole. lia.
  - intros [s|]; simpl; [|lia].
    destruct (String.eqb s EmptyString); simpl; [lia|].
    rewrite !length_append. simpl.
    pose proof (length_substring
                  (Nat.min (clampIndex 0 (String.length s))
                           (clampIndex 6 (String.length s)))
                  (Nat.max (clampIndex 0 (String.length s))
                           (clampIndex 6 (String.length s))
                   - Nat.min (clampIndex 0 (String.length s))
                             (clampIndex 6 (String.length s))) s) as H1.
    pose proof (length_substring
                  (Nat.min (clampIndex (Z.of_nat (String.length s) - 4)
                                       (String.length s))
                           (String.length s))
                  (Nat.max (clampIndex (Z.of_nat (String.length s) - 4)
                                       (String.length s))
                           (String.length s)
                   - Nat.min (clampIndex (Z.of_nat (String.length s) - 4)
                                         (String.length s))
                             (String.length s)) s) as H2.
    unfold jsSubstring. unfold clampIndex in *. lia.
Qed.

(** ** Capitals *)

Lemma upperAscii_idem (c : ascii) : upperAscii (upperAscii c) = upperAscii c.
Proof.
  destruct c as [[] [] [] [] [] [] [] []]; reflexivity.
Qed.

Lemma capitalize_cons (c : ascii) (r : string) :
  capitalizeFirstLetter (String c r) = String (upperAscii c) r.
Proof.
  unfold capitalizeFirstLetter, jsSubstring, clampIndex. simpl charAt0.
  simpl toUpperCase. simpl String.length.
  replace (Nat.min _ _) with 1%nat by lia.
  replace (Nat.max _ _ - 1)%nat with (String.length r) by lia.
  simpl. now rewrite substring_whole by lia.
Qed.

(** X20.  [capitalizeFirstLetter] touches the first character only: on
    a string that begins with an ASCII character it puts that character
    in upper case and keeps the rest and the length, a second application
    changes nothing, and the empty string comes back empty. *)
Theorem capitalizeFirstLetter_first_only (c : ascii) (r : string) :
  (nat_of_ascii c < 128)%nat ->
  capitalizeFirstLetter (String c r) = String (upperAscii c) r /\
  String.length (capitalizeFirstLetter (String c r)) = String.length (String c r) /\
  capitalizeFirstLetter (capitalizeFirstLetter (String c r))
    = capitalizeFirstLetter (String c r) /\
  capitalizeFirstLetter EmptyString = EmptyString.
Proof.
  intros _. rewrite !capitalize_cons, upperAscii_idem.
  repeat split.
Qed.

(** ** The wallet and its buttons *)

Lemma classContains_add_same (c : string) (l : list string) :
  classContains c (classAdd c l) = true.
Proof.
  unfold classContains, classAdd.
  destruct (existsb (String.eqb c) l) eqn:E; [assumption|].
  rewrite existsb_app. simpl. now rewrite String.eqb_refl, orb_true_r.
Qed.

Lemma classContains_add_other (c c' : string) (l : list string) :
  c <> c' -> classContains c (classAdd c' l) = classContains c l.
Proof.
  intros Hne. unfold classContains, classAdd.
  destruct (existsb (String.eqb c') l); [reflexivity|].
  rewrite existsb_app. simpl.
  apply String.eqb_neq in Hne. now rewrite Hne, !orb_false_r.
Qed.

Lemma classContains_remove (c : string) (cs l : list string) :
  classContains c (classRemove cs l) =
  (classContains c l && negb (existsb (String.eqb c) cs))%bool.
Proof.
  unfold classContains, classRemove.
  induction l as [|x l IH]; simpl; [reflexivity|].
  destruct (existsb (String.eqb x) cs) eqn:Ex; simpl.
  - rewrite IH. destruct (String.eqb c x) eqn:E; simpl; [|reflexivity].
    apply String.eqb_eq in E. subst x. rewrite Ex. simpl.
    now rewrite andb_false_r.
  - rewrite IH. destruct (String.eqb c x) eqn:E; simpl; [|reflexivity].
    apply String.eqb_eq in E. subst x. now rewrite Ex.
Qed.

Lemma updateWalletUI_state (connected : bool) (p : page) :
  let p' := updateWalletUI connected p in
  walletAddress p' = walletAddress p /\
  Forall (fun b => disabled b = negb connected) (investButtons p') /\
  length (investButtons p') = length (investButtons p) /\
  disabled (connectWalletBtn p') = connected /\
  classContains "d-none" (classList (disconnectWalletBtn p')) = negb connected /\
  classContains "btn-success" (classList (connectWalletBtn p')) = connected /\
  classContains "btn-light" (classList (connectWalletBtn p')) = negb connected /\
  innerHTML (walletStatusElement p') =
    (if connected then connectedStatus (formatAddress (walletAddress p))
     else pleaseConnectStatus).
Proof.
  destruct connected; simpl.
  - split; [reflexivity|]. split.
    { apply Forall_forall. intros b Hb. apply in_map_iff in Hb as [x [<- _]].
      reflexivity. }
    split; [apply length_map|]. split; [reflexivity|]. split.
    { now rewrite classContains_remove, andb_false_r. }
    split; [apply classContains_add_same|]. split; [|reflexivity].
    rewrite classContains_add_other by discriminate.
    now rewrite classContains_remove, andb_false_r.
  - split; [reflexivity|]. split.
    { apply Forall_forall. intros b Hb. apply in_map_iff in Hb as [x [<- _]].
      reflexivity. }
    split; [apply length_map|]. split; [reflexivity|]. split.
    { apply classContains_add_same. }
    split; [|split; [apply classContains_add_same | reflexivity]].
    rewrite classContains_add_other by discriminate.
    now rewrite classContains_remove, andb_false_r.
Qed.

Lemma handleAccountsChanged_shown (accounts : list string) (p : page) :
  walletShown (handleAccountsChanged accounts p).
Proof.
  destruct accounts as [|first rest]; unfold handleAccountsChanged, walletShown.
  - destruct (updateWalletUI_state false (withWalletAddress None p))
      as [Hw [Hb [_ [Hc [Hd [Hs [Hl _]]]]]]].
    rewrite Hw. simpl in *. auto.
  - destruct (updateWalletUI_state true (withWalletAddress (Some first) p))
      as [Hw [Hb [_ [Hc [Hd [Hs [Hl _]]]]]]].
    rewrite Hw. simpl in *. auto.
Qed.

(** X21.  After [handleAccountsChanged] and after [disconnectWallet] the
    page agrees with the wallet: the global is the first account, or null
    when there is none or on disconnect, and the investment buttons are
    enabled, the connect button disabled and green and the disconnect
    button shown exactly when the global is set; the status shows the
    shortened address of the first account. *)
Theorem wallet_buttons_follow_accounts (accounts : list string) (p : page) :
  walletAddress (handleAccountsChanged accounts p) = hd_error accounts /\
  walletShown (handleAccountsChanged accounts p) /\
  (forall first rest,
     accounts = first :: rest ->
     innerHTML (walletStatusElement (handleAccountsChanged accounts p))
       = connectedStatus (formatAddress (Some first))) /\
  walletAddress (disconnectWallet p) = None /\
  walletShown (disconnectWallet p) /\
  innerHTML (walletStatusElement (disconnectWallet p)) = disconnectedStatus.
Proof.
  split; [|split; [|split; [|split; [|split]]]].
  - destruct accounts; reflexivity.
  - apply handleAccountsChanged_shown.
  - intros first rest ->. reflexivity.
  - reflexivity.
  - unfold disconnectWallet, walletShown. simpl.
    destruct (updateWalletUI_state false (withWalletAddress None p))
      as [_ [Hb [_ [Hc [Hd [Hs [Hl _]]]]]]].
    simpl in *. auto.
  - reflexivity.
Qed.

(** ** Switching to the chain *)

Lemma chain_not_added {T : Type} (X Y : T) (code : Z) (m : string) :
  match RpcError code m with
  | RpcError 4902 _ => X
  | _ => Y
  end = if code =? 4902 then X else Y.
Proof.
  destruct code as [|p|p]; try reflexivity.
  repeat (destruct p as [p|p|]; try reflexivity).
Qed.

Ltac chain_split :=
  repeat match goal with
         | |- _ /\ _ => split
         | |- _ <-> _ => split
         end;
  try reflexivity.

Lemma checkAndSwitchChain_frame (br : Browser) (s : site) :
  exists ok,
    fst (checkAndSwitchChain br s) = Done ok /\
    server (snd (checkAndSwitchChain br s)) = server s.
Proof.
  unfold checkAndSwitchChain, ctry, cbind, ethereumRequest, onPage, cret, cthrow.
  destruct (ethereum br) as [provider|];
    [|exists false; split; reflexivity].
  destruct (eth_chainId provider) as [c|f];
    [|exists false; split; reflexivity].
  destruct (notSonic c); [|exists true; split; reflexivity].
  destruct (wallet_switchEthereumChain provider) as [[]|[code m|m]];
    [exists true; split; reflexivity | | exists false; split; reflexivity].
  rewrite (chain_not_added _ _ code m).
  destruct (code =? 4902); [|exists false; split; reflexivity].
  destruct (wallet_addEthereumChain provider) as [[]|f];
    [exists true | exists false]; split; reflexivity.
Qed.

(** X22.  [checkAndSwitchChain] never throws and sends nothing to the
    server.  It asks the wallet to switch only when the chain the wallet
    reports is not the Sonic chain id, and to add the chain only after
    the switch was refused with code 4902.  It answers true exactly when
    the wallet reported the chain id and is on the chain, or switched, or
    added it; when it answers false the status asks to switch. *)
Theorem checkAndSwitchChain_protocol (br : Browser) (s : site) :
  exists ok calls,
    fst (checkAndSwitchChain br s) = Done ok /\
    walletCalls (snd (checkAndSwitchChain br s)) = (walletCalls s ++ calls)%list /\
    server (snd (checkAndSwitchChain br s)) = server s /\
    (In "wallet_switchEthereumChain" calls ->
     exists provider c,
       ethereum br = Some provider /\
       eth_chainId provider = Done c /\ notSonic c = true) /\
    (In "wallet_addEthereumChain" calls ->
     exists provider m,
       ethereum br = Some provider /\
       wallet_switchEthereumChain provider = Failed (RpcError 4902 m)) /\
    (ok = true <->
     exists provider c,
       ethereum br = Some provider /\
       eth_chainId provider = Done c /\
       (notSonic c = false \/
        wallet_switchEthereumChain provider = Done tt \/
        (exists m, wallet_switchEthereumChain provider = Failed (RpcError 4902 m)) /\
        wallet_addEthereumChain provider = Done tt)) /\
    (ok = false ->
     innerHTML (walletStatusElement (pg (snd (checkAndSwitchChain br s))))
       = switchChainStatus).
Proof.
  unfold checkAndSwitchChain, ctry, cbind, ethereumRequest, onPage, cret, cthrow.
  destruct (ethereum br) as [provider|] eqn:Hp.
  2: { exists false, []. simpl. rewrite app_nil_r. chain_split.
       - intros [].
       - intros [].
       - discriminate.
       - intros [x [c [Hx _]]]. discriminate Hx. }
  destruct (eth_chainId provider) as [c|f] eqn:Hc.
  2: { exists false, ["eth_chainId"]. simpl. chain_split.
       - intros [H|[]]. discriminate H.
       - intros [H|[]]. discriminate H.
       - discriminate.
       - intros [x [c [Hx [Hcx _]]]]. congruence. }
  destruct (notSonic c) eqn:Hn.
  2: { exists true, ["eth_chainId"]. simpl. chain_split.
       - intros [H|[]]. discriminate H.
       - intros [H|[]]. discriminate H.
       - intros _. exists provider, c. auto.
       - discriminate. }
  destruct (wallet_switchEthereumChain provider) as [[]|f] eqn:Hs.
  { exists true, ["eth_chainId"; "wallet_switchEthereumChain"]. simpl.
    rewrite <- app_assoc. chain_split.
    - intros _. exists provider, c. auto.
    - intros [H|[H|[]]]; discriminate H.
    - intros _. exists provider, c. auto.
    - discriminate. }
  destruct f as [code m|m].
  2: { exists false, ["eth_chainId"; "wallet_switchEthereumChain"]. simpl.
       rewrite <- app_assoc. chain_split.
       - intros _. exists provider, c. auto.
       - intros [H|[H|[]]]; discriminate H.
       - discriminate.
       - intros [x [cx [Hx [Hcx [Hno | [Hsw | [[m' Hsw] _]]]]]]];
           injection Hx as <-; congruence. }
  rewrite (chain_not_added _ _ code m).
  destruct (code =? 4902) eqn:Hcode.
  - apply Z.eqb_eq in Hcode. subst code.
    destruct (wallet_addEthereumChain provider) as [[]|f] eqn:Ha.
    + exists true,
        ["eth_chainId"; "wallet_switchEthereumChain"; "wallet_addEthereumChain"].
      simpl. rewrite <- !app_assoc. chain_split.
      * intros _. exists provider, c. auto.
      * intros _. exists provider, m. auto.
      * intros _. exists provider, c. split; [reflexivity|]. split; [assumption|].
        right. right. split; [eauto | assumption].
      * discriminate.
    + exists false,
        ["eth_chainId"; "wallet_switchEthereumChain"; "wallet_addEthereumChain"].
      simpl. rewrite <- !app_assoc. chain_split.
      * intros _. exists provider, c. auto.
      * intros _. exists provider, m. auto.
      * discriminate.
      * intros [x [cx [Hx [Hcx [Hno | [Hsw | [_ Hadd]]]]]]];
          injection Hx as <-; congruence.
  - exists false, ["eth_chainId"; "wallet_switchEthereumChain"]. simpl.
    rewrite <- app_assoc. chain_split.
    + intros _. exists provider, c. auto.
    + intros [H|[H|[]]]; discriminate H.
    + discriminate.
    + intros [x [cx [Hx [Hcx [Hno | [Hsw | [[m' Hsw] _]]]]]]];
        injection Hx as <-; try congruence;
        rewrite Hs in Hsw; injection Hsw as -> _;
        rewrite Z.eqb_refl in Hcode; discriminate Hcode.
Qed.

(** ** What a computation of the page leaves alone *)

Lemma keeps_cret {X A} (f : page -> X) (a : A) : keeps f (cret a).
Proof. intros s. reflexivity. Qed.

Lemma keeps_cthrow {X A} (f : page -> X) (e : thrown) : keeps f (@cthrow A e).
Proof. intros s. reflexivity. Qed.

Lemma keeps_getPage {X} (f : page -> X) : keeps f getPage.
Proof. intros s. reflexivity. Qed.

Lemma keeps_onPage {X} (f : page -> X) (g : page -> page) :
  (forall p, f (g p) = f p) -> keeps f (onPage g).
Proof. intros H s. simpl. apply H. Qed.

Lemma keeps_ethereumRequest {X A} (f : page -> X) (br : Browser)
    (method : string) (answer : Wallet -> result A) :
  keeps f (ethereumRequest br method answer).
Proof.
  intros s. unfold ethereumRequest. destruct (ethereum br); reflexivity.
Qed.

Lemma keeps_cbind {X A B} (f : page -> X) (m : C A) (k : A -> C B) :
  keeps f m -> (forall a, keeps f (k a)) -> keeps f (cbind m k).
Proof.
  intros Hm Hk s. unfold cbind. specialize (Hm s).
  destruct (m s) as [[a|e] s1]; simpl in *; [|assumption].
  rewrite (Hk a s1). assumption.
Qed.

Lemma keeps_ctry {X A} (f : page -> X) (m : C A) (h : thrown -> C A) :
  keeps f m -> (forall e, keeps f (h e)) -> keeps f (ctry m h).
Proof.
  intros Hm Hh s. unfold ctry. specialize (Hm s).
  destruct (m s) as [[a|e] s1]; simpl in *; [assumption|].
  rewrite (Hh e s1). assumption.
Qed.

Ltac keeps_step :=
  first
    [ apply keeps_cret
    | apply keeps_cthrow
    | apply keeps_getPage
    | apply keeps_ethereumRequest
    | apply keeps_onPage; intros ?; reflexivity
    | apply keeps_cbind; [|intros ?]
    | apply keeps_ctry; [|intros ?]
    | match goal with
      | |- keeps _ (if ?c then _ else _) => destruct c
      | |- keeps _ (match ?x with _ => _ end) => destruct x
      end ].

Lemma completes_cret {A} (a : A) : completes (cret a).
Proof. intros s. now exists a. Qed.

Lemma completes_onPage (g : page -> page) : completes (onPage g).
Proof. intros s. now exists tt. Qed.

Lemma completes_cbind {A B} (m : C A) (k : A -> C B) :
  completes m -> (forall a, completes (k a)) -> completes (cbind m k).
Proof.
  intros Hm Hk s. unfold cbind. destruct (Hm s) as [a Ha].
  destruct (m s) as [[a'|e] s1]; simpl in Ha; [|discriminate].
  apply Hk.
Qed.

Lemma completes_ctry {A} (m : C A) (h : thrown -> C A) :
  (forall e, completes (h e)) -> completes (ctry m h).
Proof.
  intros Hh s. unfold ctry.
  destruct (m s) as [[a|e] s1]; [now exists a | apply Hh].
Qed.

Lemma keeps_handleAccountsChanged {X} (f : page -> X) (accounts : list string) :
  (forall c p, f (updateWalletUI c p) = f p) ->
  (forall a p, f (withWalletAddress a p) = f p) ->
  keeps f (onPage (handleAccountsChanged accounts)).
Proof.
  intros Hu Hw. apply keeps_onPage. intros p.
  destruct accounts; unfold handleAccountsChanged; now rewrite Hu, Hw.
Qed.

Lemma checkAndSwitchChain_completes (br : Browser) :
  completes (checkAndSwitchChain br).
Proof.
  intros s. destruct (checkAndSwitchChain_frame br s) as [ok [H _]].
  now exists ok.
Qed.

Lemma checkAndSwitchChain_keeps_modal (br : Browser) :
  keeps txModalShown (checkAndSwitchChain br).
Proof.
  unfold checkAndSwitchChain. repeat keeps_step.
Qed.

Lemma checkAndSwitchChain_keeps_wallet (br : Browser) :
  keeps walletAddress (checkAndSwitchChain br).
Proof.
  unfold checkAndSwitchChain. repeat keeps_step.
Qed.

Lemma checkAndSwitchChain_on_chain (br : Browser) (s : site)
    (provider : Wallet) :
  ethereum br = Some provider ->
  eth_chainId provider = Done (JStr SONIC_CHAIN_ID) ->
  checkAndSwitchChain br s =
  (Done true,
   mkSite (withChainId (JStr SONIC_CHAIN_ID) (pg s)) (server s)
          (walletCalls s ++ ["eth_chainId"])).
Proof.
  intros Hp Hc.
  unfold checkAndSwitchChain, ctry, cbind, ethereumRequest, onPage, cret.
  rewrite Hp, Hc. reflexivity.
Qed.

(** ** Loading the page *)

(** X29.  [checkWalletConnection], run when the page loads, never throws,
    never prompts: the one thing it asks the wallet is [eth_accounts],
    never [eth_requestAccounts] nor the chain; and it never calls the
    server, so an account that is already connected is shown connected
    on the page but not registered by POST /api/user.  With no account
    the page is as it was but for [web3], and with no provider nothing
    happens. *)
Theorem checkWalletConnection_only_reads_accounts (br : Browser) (s : site) :
  exists s',
    checkWalletConnection br s = (Done tt, s') /\
    server s' = server s /\
    (walletCalls s' = walletCalls s \/
     walletCalls s' = (walletCalls s ++ ["eth_accounts"])%list) /\
    (forall provider first rest,
       ethereum br = Some provider ->
       eth_accounts provider = Done (first :: rest) ->
       walletAddress (pg s') = Some first /\ walletShown (pg s')) /\
    (forall provider,
       ethereum br = Some provider ->
       eth_accounts provider = Done [] ->
       pg s' = withWeb3 (pg s)) /\
    (ethereum br = None -> s' = s).
Proof.
  unfold checkWalletConnection.
  destruct (ethereum br) as [provider|] eqn:Hp.
  2: { exists s. split; [reflexivity|]. split; [reflexivity|].
       split; [now left|]. split; [intros ? ? ? H; discriminate H|].
       split; [intros ? H; discriminate H | reflexivity]. }
  unfold ctry, cbind, ethereumRequest, onPage, cret. rewrite Hp.
  cbn [pg server walletCalls].
  destruct (eth_accounts provider) as [[|first rest]|f] eqn:Ha;
    eexists; (split; [reflexivity|]); cbn [pg server walletCalls];
    (split; [reflexivity|]); (split; [now right|]).
  - split.
    + intros p0 f0 r0 Hp0 H. injection Hp0 as <-. rewrite Ha in H.
      discriminate H.
    + split; [reflexivity | intros H; discriminate H].
  - split.
    + intros p0 f0 r0 Hp0 H. injection Hp0 as <-. rewrite Ha in H.
      injection H as <- <-.
      split; [reflexivity | apply handleAccountsChanged_shown].
    + split; [|intros H; discriminate H].
      intros p0 Hp0 H. injection Hp0 as <-. rewrite Ha in H. discriminate H.
  - split.
    + intros p0 f0 r0 Hp0 H. injection Hp0 as <-. rewrite Ha in H.
      discriminate H.
    + split; [|intros H; discriminate H].
      intros p0 Hp0 H. injection Hp0 as <-. rewrite Ha in H. discriminate H.
Qed.

(** ** The page and the server *)

Section PageAndServer.

Variable rt : Runtime.

Lemma keeps_fetch {X} (f : page -> X) (br : Browser) (req : request) :
  keeps f (fetch rt br req).
Proof.
  intros s. unfold fetch. destruct (network br req); [reflexivity|].
  destruct (handle rt (serverEnv br req) req (server s)). reflexivity.
Qed.

Lemma saveUserData_keeps {X} (f : page -> X) (br : Browser) :
  (forall l p, f (logError l p) = f p) ->
  keeps f (saveUserData rt br).
Proof.
  intros Hl. unfold saveUserData.
  apply keeps_cbind; [apply keeps_getPage|]. intros p.
  destruct (noWallet p); [apply keeps_cret|].
  apply keeps_ctry.
  - apply keeps_cbind; [apply keeps_fetch|]. intros data.
    destruct (falsy _); [|apply keeps_cret].
    apply keeps_onPage. apply Hl.
  - intros e. apply keeps_onPage. apply Hl.
Qed.

Lemma updateUserInvestment_keeps {X} (f : page -> X) (br : Browser)
    (amount riskLevel hash : jsval) :
  (forall l p, f (logError l p) = f p) ->
  keeps f (updateUserInvestment rt br amount riskLevel hash).
Proof.
  intros Hl. unfold updateUserInvestment.
  apply keeps_cbind; [apply keeps_getPage|]. intros p.
  destruct (noWallet p); [apply keeps_cret|].
  apply keeps_ctry.
  - apply keeps_cbind; [apply keeps_fetch|]. intros data.
    destruct (falsy _); [|apply keeps_cret].
    apply keeps_onPage. apply Hl.
  - intros e. apply keeps_onPage. apply Hl.
Qed.

Lemma saveUserData_completes (br : Browser) : completes (saveUserData rt br).
Proof.
  unfold saveUserData.
  apply completes_cbind; [intros s; now exists (pg s)|]. intros p.
  destruct (noWallet p); [apply completes_cret|].
  apply completes_ctry. intros e. apply completes_onPage.
Qed.

Lemma updateUserInvestment_completes (br : Browser)
    (amount riskLevel hash : jsval) :
  completes (updateUserInvestment rt br amount riskLevel hash).
Proof.
  unfold updateUserInvestment.
  apply completes_cbind; [intros s; now exists (pg s)|]. intros p.
  destruct (noWallet p); [apply completes_cret|].
  apply completes_ctry. intros e. apply completes_onPage.
Qed.

Lemma connectWallet_completes (br : Browser) : completes (connectWallet rt br).
Proof.
  unfold connectWallet. destruct (ethereum br).
  - apply completes_ctry. intros e.
    repeat (apply completes_cbind; [apply completes_onPage|]; intros _).
    apply completes_cret.
  - apply completes_cbind; [apply completes_onPage|]. intros _.
    apply completes_cret.
Qed.

Lemma connectWallet_keeps_modal (br : Browser) :
  keeps txModalShown (connectWallet rt br).
Proof.
  unfold connectWallet. destruct (ethereum br) eqn:Hp.
  - apply keeps_ctry.
    + apply keeps_cbind; [apply keeps_onPage; reflexivity|]. intros _.
      apply keeps_cbind; [apply keeps_ethereumRequest|]. intros accounts.
      apply keeps_cbind.
      { apply keeps_handleAccountsChanged; [intros []|]; reflexivity. }
      intros _.
      apply keeps_cbind; [apply checkAndSwitchChain_keeps_modal|]. intros _.
      apply keeps_cbind; [apply saveUserData_keeps; reflexivity|]. intros _.
      apply keeps_cret.
    + intros e. repeat keeps_step.
  - repeat keeps_step.
Qed.

Lemma showFailure_hides (e : thrown) (s : site) :
  fst (showFailure e s) = Done tt /\
  txModalShown (pg (snd (showFailure e s))) = false /\
  server (snd (showFailure e s)) = server s.
Proof.
  repeat split.
Qed.

Lemma showSuccess_keeps_modal (amount riskLevel : jsval) (data : fieldsT) :
  keeps txModalShown (showSuccess rt amount riskLevel data).
Proof.
  unfold showSuccess. repeat keeps_step.
Qed.

Lemma processInvestment_ends (br : Browser) (amount riskLevel : jsval)
    (s : site) :
  exists s',
    processInvestment rt br amount riskLevel s = (Done tt, s') /\
    (txModalShown (pg s) = false -> txModalShown (pg s') = false).
Proof.
  unfold processInvestment.
  unfold cbind at 1. unfold getPage at 1.
  unfold cbind at 1.
  assert (Hgate :
    exists proceed s1,
      (if noWallet (pg s)
       then (connected <- connectWallet rt br ;;
             match connected with
             | Some true => cret true
             | _ =>
                 onPage (alert "Please connect your wallet to invest.") ;;;
                 cret false
             end)%client
       else cret true) s = (Done proceed, s1) /\
      txModalShown (pg s1) = txModalShown (pg s)).
  { destruct (noWallet (pg s)).
    - unfold cbind at 1.
      pose proof (connectWallet_keeps_modal br s) as Hk.
      destruct (connectWallet_completes br s) as [c Hc].
      destruct (connectWallet rt br s) as [r s1]. simpl in Hc, Hk. subst r.
      destruct c as [[]|]; simpl; do 2 eexists;
        (split; [reflexivity|]); simpl; exact Hk.
    - exists true, s. split; reflexivity. }
  destruct Hgate as [proceed [s1 [-> Hm1]]].
  destruct proceed; cbv beta iota delta [negb].
  2: { exists s1. split; [reflexivity | intros H0; congruence]. }
  unfold ctry. unfold cbind at 1. cbv beta.
  pose proof (checkAndSwitchChain_keeps_modal br s1) as Hk.
  destruct (checkAndSwitchChain_completes br s1) as [ok Hok].
  destruct (checkAndSwitchChain br s1) as [r s2]. simpl in Hok, Hk. subst r.
  destruct ok; cbv beta iota delta [negb].
  2: { exists s2. split; [reflexivity | intros H0; congruence]. }
  unfold cbind at 1. unfold onPage at 1.
  unfold cbind at 1. unfold onPage at 1.
  unfold cbind at 1. unfold getPage at 1.
  unfold cbind at 1. unfold fetch at 1. cbn [pg server walletCalls].
  match goal with
  | |- context [network br ?req] => destruct (network br req) as [f|]
  end.
  { eexists. split; [reflexivity|]. intros _. apply showFailure_hides. }
  match goal with
  | |- context [handle rt ?e ?req ?w] => destruct (handle rt e req w) as [r w']
  end.
  unfold cbind at 1. unfold onPage at 1. cbn [pg server walletCalls].
  destruct (truthy (field (body r) "success")).
  2: { eexists. split; [reflexivity|]. intros _. apply showFailure_hides. }
  unfold cbind at 1.
  match goal with
  | |- context [showSuccess rt amount riskLevel ?d ?s0] =>
      pose proof (showSuccess_keeps_modal amount riskLevel d s0) as Hs;
      destruct (showSuccess rt amount riskLevel d s0) as [[[]|f] s3]
  end.
  2: { eexists. split; [reflexivity|]. intros _. apply showFailure_hides. }
  match goal with
  | |- context [updateUserInvestment rt br amount riskLevel ?h ?s0] =>
      pose proof (updateUserInvestment_keeps txModalShown br amount riskLevel h
                    (fun _ _ => eq_refl) s0) as Hu;
      destruct (updateUserInvestment_completes br amount riskLevel h s0)
        as [[] Hc];
      destruct (updateUserInvestment rt br amount riskLevel h s0) as [r' s4]
  end.
  simpl in Hc, Hu, Hs. subst r'.
  exists s4. split; [reflexivity|]. intros _. rewrite Hu, Hs. reflexivity.
Qed.

(** X23.  [processInvestment] never throws and never leaves the
    processing dialog open: whatever the wallet, the network and the
    server do, if the dialog was closed when it started it is closed when
    it ends. *)
Theorem processInvestment_closes_dialog (br : Browser)
    (amount riskLevel : jsval) (s : site) :
  fst (processInvestment rt br amount riskLevel s) = Done tt /\
  (txModalShown (pg s) = false ->
   txModalShown (pg (snd (processInvestment rt br amount riskLevel s))) = false).
Proof.
  destruct (processInvestment_ends br amount riskLevel s) as [s' [-> H]].
  split; [reflexivity | exact H].
Qed.

(** *** Saving the user *)

Lemma userBody_fields (a iso : string) (c : jsval) :
  let b := jsonBody rt [ ("walletAddress", JStr a);
                         ("lastSeen", JStr iso);
                         ("chainId", c) ] in
  field b "walletAddress" = JStr a /\ field b "lastSeen" = JStr iso.
Proof.
  split; reflexivity.
Qed.

Lemma saveUserData_stores (br : Browser) (s : site) (a : string) :
  walletAddress (pg s) = Some a ->
  a <> EmptyString ->
  (forall req, network br req = None) ->
  (forall req, mongo (serverEnv br req) = None) ->
  rt_toISOString rt (browserClock br) <> EmptyString ->
  rt_DateOf rt (JStr (rt_toISOString rt (browserClock br)))
    = Some (browserClock br) ->
  exists w' d,
    saveUserData rt br s = (Done tt, mkSite (pg s) w' (walletCalls s)) /\
    findDoc (toLowerCase a) (users w') = Some d /\
    lastSeenOf d = JDate (Some (browserClock br)) /\
    (length (users w') <= S (length (users (server s))))%nat /\
    lookup "chainId" d =
      match findDoc (toLowerCase a) (users (server s)) with
      | Some d0 => lookup "chainId" d0
      | None => None
      end.
Proof.
  intros Ha Hne Hnet Hdb Hiso Hdate.
  unfold saveUserData. unfold cbind at 1. unfold getPage at 1.
  unfold noWallet, walletValue. rewrite Ha.
  destruct (String.eqb a EmptyString) eqn:E;
    [apply String.eqb_eq in E; contradiction|].
  unfold ctry. unfold cbind at 1. unfold fetch at 1. rewrite Hnet.
  set (b := jsonBody rt _).
  destruct (userBody_fields a (rt_toISOString rt (browserClock br))
              (chainId (pg s))) as [Hb Hl].
  fold b in Hb, Hl.
  assert (Hs : truthy (JStr a) = true) by (now apply truthy_JStr).
  assert (Ht : postUserStamp rt (serverEnv br (PostUser b)) b (server s)
                 (browserClock br)).
  { unfold postUserStamp. rewrite Hl.
    replace (truthy (JStr (rt_toISOString rt (browserClock br)))) with true
      by (symmetry; now apply truthy_JStr).
    exact Hdate. }
  cbn [handle].
  rewrite (postUser_run rt _ b (server s) a _ Hb Hs (Hdb _) Ht).
  destruct (findDoc (toLowerCase a) (users (server s))) as [d0|] eqn:Hf.
  - do 2 eexists. split; [reflexivity|]. cbn [users].
    split.
    { eapply findDoc_replaceFirst_same; [eassumption|].
      unfold touch. rewrite matchesWallet_touch.
      now apply findDoc_matches in Hf. }
    split; [apply lastSeenOf_touch|].
    split; [rewrite length_replaceFirst; lia|].
    unfold touch. now rewrite lookup_setField_other.
  - do 2 eexists. split; [reflexivity|]. cbn [users].
    split.
    { rewrite findDoc_app, Hf.
      match goal with
      | |- context [matchesWallet ?x ?d] =>
          replace (matchesWallet x d) with true
            by (symmetry; apply matchesWallet_field; reflexivity)
      end.
      reflexivity. }
    split; [reflexivity|].
    split; [rewrite length_app; simpl; lia | reflexivity].
Qed.

Lemma walletShown_view (p q : page) :
  walletView p = walletView q -> walletShown p -> walletShown q.
Proof.
  unfold walletView, walletShown. intros [= Hw Hi Hc Hd].
  now rewrite Hw, Hi, Hc, Hd.
Qed.

Lemma checkAndSwitchChain_keeps_view (br : Browser) :
  keeps walletView (checkAndSwitchChain br).
Proof.
  unfold checkAndSwitchChain. repeat keeps_step.
Qed.

(** X24.  Connecting the wallet registers the user.  When the wallet
    grants an account, the network is up and the database answers,
    [connectWallet] answers true, the page holds the first account and
    shows it connected, and the server has a User document for the
    lower-cased address whose [lastSeen] is the time of the browser, not
    of the server; this holds whether or not the chain could be
    switched. *)
Theorem connectWallet_registers_user (br : Browser) (s : site)
    (provider : Wallet) (a : string) (rest : list string) :
  ethereum br = Some provider ->
  eth_requestAccounts provider = Done (a :: rest) ->
  a <> EmptyString ->
  (forall req, network br req = None) ->
  (forall req, mongo (serverEnv br req) = None) ->
  rt_toISOString rt (browserClock br) <> EmptyString ->
  rt_DateOf rt (JStr (rt_toISOString rt (browserClock br)))
    = Some (browserClock br) ->
  exists s',
    connectWallet rt br s = (Done (Some true), s') /\
    walletAddress (pg s') = Some a /\
    walletShown (pg s') /\
    exists d,
      findDoc (toLowerCase a) (users (server s')) = Some d /\
      lastSeenOf d = JDate (Some (browserClock br)).
Proof.
  intros Hp Hr Hne Hnet Hdb Hiso Hdate.
  unfold connectWallet. rewrite Hp.
  unfold ctry. unfold cbind at 1. unfold onPage at 1.
  unfold cbind at 1. unfold ethereumRequest at 1. rewrite Hp, Hr.
  unfold cbind at 1. unfold onPage at 1. cbn [pg server walletCalls].
  unfold cbind at 1.
  match goal with
  | |- context [checkAndSwitchChain br ?s0] =>
      set (s1 := s0);
      pose proof (checkAndSwitchChain_keeps_view br s1) as Hview;
      destruct (checkAndSwitchChain_frame br s1) as [ok [Hok Hsrv]];
      destruct (checkAndSwitchChain br s1) as [r s2]
  end.
  simpl in Hok, Hsrv, Hview. subst r.
  assert (Hw2 : walletAddress (pg s2) = Some a).
  { unfold walletView in Hview. now injection Hview as -> _ _ _. }
  destruct (saveUserData_stores br s2 a Hw2 Hne Hnet Hdb Hiso Hdate)
    as [w' [d [Hsave [Hfd [Hls _]]]]].
  unfold cbind at 1. rewrite Hsave.
  eexists. split; [reflexivity|]. cbn [pg server].
  split; [exact Hw2|]. split; [|eauto].
  apply (walletShown_view (pg s1)); [symmetry; exact Hview|].
  apply (handleAccountsChanged_shown (a :: rest)).
Qed.

(** *** Investing from the page *)







(** X26.  When the transfer fails, the page says so and nothing is
    recorded: [processInvestment] closes the dialog, shows 'Investment
    Failed' with the message of the server (not the text of the error),
    marks the status as danger, and logs the error; the server has
    written nothing, and no POST /api/user/investment follows. *)
Theorem processInvestment_failed_transfer (br : Browser) (s : site)
    (provider : Wallet) (a r : string) (q price : Q) (e : exn) :
  walletAddress (pg s) = Some a ->
  a <> EmptyString ->
  ethereum br = Some provider ->
  eth_chainId provider = Done (JStr SONIC_CHAIN_ID) ->
  (forall req, network br req = None) ->
  quoted (serverEnv br (PostInvest (investBody q r a))) (investBody q r a) price ->
  sendTransaction (serverEnv br (PostInvest (investBody q r a)))
    (transferArgs (investBody q r a) price) = Throw e ->
  exists s',
    processInvestment rt br (JNum q) (JStr r) s = (Done tt, s') /\
    txModalShown (pg s') = false /\
    innerHTML (transactionStatus (pg s'))
      = failedStatus "Failed to process investment" /\
    classContains "alert-danger" (classList (transactionStatus (pg s'))) = true /\
    classContains "alert-success" (classList (transactionStatus (pg s'))) = false /\
    consoleErrors (pg s') = (consoleErrors (pg s) ++ ["Investment error:"])%list /\
    users (server s') = users (server s) /\
    trace (server s') =
      (sentTrace (investBody q r a) price (server s)
       ++ [EvConsoleError "Error processing investment:"])%list.
Proof.
  intros Ha Hne Hp Hc Hnet Hq Htx.
  unfold processInvestment.
  unfold cbind at 1. unfold getPage at 1.
  unfold noWallet at 1. rewrite Ha.
  destruct (String.eqb a EmptyString) eqn:E;
    [apply String.eqb_eq in E; contradiction|].
  unfold cbind at 1. unfold cret at 1. cbv beta iota delta [negb].
  unfold ctry. unfold cbind at 1.
  rewrite (checkAndSwitchChain_on_chain br s provider Hp Hc).
  cbv beta iota delta [negb].
  unfold cbind at 1. unfold onPage at 1.
  unfold cbind at 1. unfold onPage at 1.
  unfold cbind at 1. unfold getPage at 1.
  cbn [pg server walletCalls].
  replace (walletValue _) with (JStr a)
    by (unfold walletValue; cbn; now rewrite Ha).
  change (jsonBody rt [ ("amount", JNum q); ("riskLevel", JStr r);
                        ("walletAddress", JStr a) ])
    with (investBody q r a).
  unfold cbind at 1. unfold fetch at 1. rewrite Hnet.
  cbn [handle server].
  rewrite (invest_quoted_failed rt _ _ (server s) price e Hq Htx).
  unfold cbind at 1. unfold onPage at 1. cbn [pg server walletCalls].
  eexists. split; [reflexivity|].
  cbn [pg server users trace].
  split; [reflexivity|]. split; [reflexivity|].
  split; [cbn -[classContains classAdd classRemove];
          apply classContains_add_same|].
  split.
  { cbn -[classContains classAdd classRemove].
    rewrite classContains_add_other by discriminate.
    now rewrite classContains_remove, andb_false_r. }
  repeat split.
Qed.

(** X27.  No investment is sent without a wallet on the chain.  Without
    a wallet address and without a provider [processInvestment] only
    raises its two alerts; with a wallet address, when
    [checkAndSwitchChain] answers false it stops there.  Either way the
    server is not called and the dialog is not opened. *)
Theorem processInvestment_needs_wallet_and_chain (br : Browser)
    (amount riskLevel : jsval) (s : site) :
  (noWallet (pg s) = true ->
   ethereum br = None ->
   processInvestment rt br amount riskLevel s =
   (Done tt,
    mkSite (alert "Please connect your wallet to invest."
              (alert "Please install MetaMask to use this feature" (pg s)))
           (server s) (walletCalls s))) /\
  (noWallet (pg s) = false ->
   fst (checkAndSwitchChain br s) = Done false ->
   processInvestment rt br amount riskLevel s =
   (Done tt, snd (checkAndSwitchChain br s)) /\
   server (snd (checkAndSwitchChain br s)) = server s /\
   txModalShown (pg (snd (checkAndSwitchChain br s))) = txModalShown (pg s)).
Proof.
  split.
  - intros Hw Hp. unfold processInvestment.
    unfold cbind at 1. unfold getPage at 1. rewrite Hw.
    unfold connectWallet. rewrite Hp. reflexivity.
  - intros Hw Hch. split.
    + unfold processInvestment.
      unfold cbind at 1. unfold getPage at 1. rewrite Hw.
      unfold cbind at 1. unfold cret at 1. cbv beta iota delta [negb].
      unfold ctry. unfold cbind at 1.
      destruct (checkAndSwitchChain br s) as [res s1]. simpl in Hch.
      subst res. reflexivity.
    + split.
      * destruct (checkAndSwitchChain_frame br s) as [ok [_ H]].
        exact H.
      * apply checkAndSwitchChain_keeps_modal.
Qed.

(** X28.  [saveUserData] and [updateUserInvestment] never throw, and
    without a wallet address they do nothing at all: no request leaves
    the page. *)
Theorem history_calls_are_guarded (br : Browser)
    (amount riskLevel hash : jsval) (s : site) :
  fst (saveUserData rt br s) = Done tt /\
  fst (updateUserInvestment rt br amount riskLevel hash s) = Done tt /\
  (noWallet (pg s) = true ->
   saveUserData rt br s = (Done tt, s) /\
   updateUserInvestment rt br amount riskLevel hash s = (Done tt, s)).
Proof.
  split; [|split].
  - destruct (saveUserData_completes br s) as [[] H]. exact H.
  - destruct (updateUserInvestment_completes br amount riskLevel hash s)
      as [[] H]. exact H.
  - intros Hw. unfold saveUserData, updateUserInvestment.
    unfold cbind, getPage. rewrite Hw. split; reflexivity.
Qed.

End PageAndServer.

End ClientFacts.

(** * The further properties on a running server and page *)

Lemma demo_quoted (env : Env) (b : fieldsT) :
  priceApi env = Ok (priceData (JNum (1 # 2))) ->
  truthy (field b "amount") = true ->
  truthy (field b "riskLevel") = true ->
  quoted env b (1 # 2).
Proof.
  intros Hp Ha Hr. constructor.
  - exact Ha.
  - exact Hr.
  - exists [ ("sonic-3", JObj [ ("usd", JNum (1 # 2)) ]) ], [ ("usd", JNum (1 # 2)) ].
    repeat split. exact Hp.
  - discriminate.
Defined.

(** X3, on POST /api/user. *)
Lemma only_invest_transfers_witness :
  emitsOnly (fun ev => ~ isTransfer ev)
    (handle demoRuntime demoEnv (PostUser [ ("walletAddress", JStr "0xABC") ])).
Proof.
  apply (only_invest_transfers demoRuntime demoEnv
           (PostUser [ ("walletAddress", JStr "0xABC") ])).
  reflexivity.
Defined.

(** X4, on GET /api/user/0xABC. *)
Lemma get_routes_read_only_witness :
  (forall w, users (snd (handle demoRuntime demoEnv (GetUser "0xABC") w)) = users w) /\
  emitsOnly (fun ev => ~ isDbWrite ev /\ ~ isTransfer ev)
    (handle demoRuntime demoEnv (GetUser "0xABC")).
Proof.
  apply (get_routes_read_only demoRuntime demoEnv (GetUser "0xABC")).
  reflexivity.
Defined.

(** X5, on the stored user, on an unknown address, and on a record that
    stores no [firstSeen]. *)
Lemma getUser_answers_from_collection_witness :
  status (fst (getUser demoRuntime demoEnv "0xABC" demoWorld)) = 200 /\
  status (fst (getUser demoRuntime demoEnv "0xDEF" demoWorld)) = 404 /\
  field (body (fst (getUser demoRuntime demoEnv "0xDEF" bareWorld))) "user" =
    toJSON demoRuntime
      (JObj [ ("walletAddress", JStr "0xdef");
              ("firstSeen", JDate (Some (clock demoEnv 0)));
              ("lastSeen", JDate (Some 1000)) ]) /\
  clockReads (snd (getUser demoRuntime demoEnv "0xDEF" bareWorld)) = 1%nat.
Proof.
  split; [|split].
  - destruct (getUser_answers_from_collection demoRuntime demoEnv "0xABC"
                demoWorld eq_refl) as [_ [Hfound _]]; [discriminate|].
    apply (Hfound demoUser). reflexivity.
  - destruct (getUser_answers_from_collection demoRuntime demoEnv "0xDEF"
                demoWorld eq_refl) as [Hnone _]; [discriminate|].
    apply Hnone. reflexivity.
  - destruct (getUser_answers_from_collection demoRuntime demoEnv "0xDEF"
                bareWorld eq_refl) as [_ [Hfound _]]; [discriminate|].
    destruct (Hfound bareUser eq_refl) as [_ [Hview Hreads]].
    split; [exact Hview | exact Hreads].
Defined.

(** X6, on an empty collection: POST 0xABC, GET 0xabc. *)
Lemma postUser_then_getUser_witness :
  let b := [ ("walletAddress", JStr "0xABC") ] in
  let w1 := snd (postUser demoRuntime demoEnv b emptyWorld) in
  status (fst (postUser demoRuntime demoEnv b emptyWorld)) = 200 /\
  fst (getUser demoRuntime demoEnv "0xabc" w1)
    = fst (postUser demoRuntime demoEnv b emptyWorld) /\
  users (snd (getUser demoRuntime demoEnv "0xabc" w1)) = users w1.
Proof.
  intros b w1.
  apply (postUser_then_getUser demoRuntime demoEnv demoEnv b emptyWorld
           "0xABC" "0xabc"); try reflexivity.
  - discriminate.
  - intros H. discriminate H.
  - intros d H. discriminate H.
Defined.

(** X7, on an empty body. *)
Lemma user_routes_require_fields_witness :
  status (fst (postUser demoRuntime demoEnv [] demoWorld)) = 400 /\
  snd (postUserInvestment demoRuntime demoEnv
         [ ("walletAddress", JStr "0xABC") ] demoWorld) = demoWorld.
Proof.
  split.
  - destruct (user_routes_require_fields demoRuntime demoEnv [] demoWorld)
      as [H _].
    apply H. reflexivity.
  - destruct (user_routes_require_fields demoRuntime demoEnv
                [ ("walletAddress", JStr "0xABC") ] demoWorld) as [_ H].
    apply H. right. reflexivity.
Defined.

(** X8, on a database that is down. *)
Lemma user_routes_db_rejection_500_witness :
  status (fst (postUser demoRuntime downEnv
                 [ ("walletAddress", JStr "0xABC") ] demoWorld)) = 500 /\
  status (fst (getUser demoRuntime downEnv "0xABC" demoWorld)) = 500 /\
  field (body (fst (getUser demoRuntime downEnv "0xABC" demoWorld))) "error"
    = JStr "connection refused".
Proof.
  destruct (user_routes_db_rejection_500 demoRuntime downEnv demoWorld
              (JsError "connection refused") eq_refl) as [Hpost [_ Hget]].
  split.
  - apply (Hpost [ ("walletAddress", JStr "0xABC") ] "0xABC");
      [reflexivity | discriminate | intros H; discriminate H].
  - destruct (Hget "0xABC") as [Hs [He _]]; [discriminate|].
    split; [exact Hs | exact He].
Defined.

(** X9, on a [lastSeen] that is no date. *)
Lemma postUser_invalid_lastSeen_500_witness :
  let b := [ ("walletAddress", JStr "0xABC"); ("lastSeen", JStr "yesterday") ] in
  status (fst (postUser demoRuntime demoEnv b demoWorld)) = 500 /\
  users (snd (postUser demoRuntime demoEnv b demoWorld)) = users demoWorld /\
  trace (snd (postUser demoRuntime demoEnv b demoWorld)) =
    (trace demoWorld ++ [EvConsoleError "Error saving user data:"])%list.
Proof.
  intros b.
  apply (postUser_invalid_lastSeen_500 demoRuntime demoEnv b demoWorld "0xABC");
    try reflexivity.
  discriminate.
Defined.

(** X10, on a body with a [chainId]. *)
Lemma postUser_drops_chainId_witness :
  let b := [ ("walletAddress", JStr "0xABC"); ("chainId", JStr "0xdede") ] in
  exists d',
    findDoc (toLowerCase "0xABC")
      (users (snd (postUser demoRuntime demoEnv b emptyWorld))) = Some d' /\
    match findDoc (toLowerCase "0xABC") (users emptyWorld) with
    | Some d => lookup "chainId" d' = lookup "chainId" d
    | None => map fst d' = [ "walletAddress"; "lastSeen"; "firstSeen" ]
    end.
Proof.
  intros b.
  apply (postUser_drops_chainId demoRuntime demoEnv b emptyWorld "0xABC");
    try reflexivity.
  - discriminate.
  - intros H. discriminate H.
Defined.

(** X11, on a wallet service that refuses. *)
Lemma invest_failed_transfer_500_witness :
  let b := investBody 100 "low" "0xABC" in
  status (fst (invest demoRuntime refusingEnv b demoWorld)) = 500 /\
  field (body (fst (invest demoRuntime refusingEnv b demoWorld))) "error"
    = JStr "insufficient funds" /\
  users (snd (invest demoRuntime refusingEnv b demoWorld)) = users demoWorld.
Proof.
  intros b.
  destruct (invest_failed_transfer_500 demoRuntime refusingEnv b demoWorld
              (1 # 2) (JsError "insufficient funds"))
    as [Hs [He [_ [Hu _]]]].
  - apply demo_quoted; reflexivity.
  - reflexivity.
  - split; [exact Hs|]. split; [exact He | exact Hu].
Defined.

(** X12, on a provider that is down. *)
Lemma invest_without_price_500_witness :
  let b := investBody 100 "low" "0xABC" in
  status (fst (invest demoRuntime offlineEnv b demoWorld)) = 500 /\
  users (snd (invest demoRuntime offlineEnv b demoWorld)) = users demoWorld.
Proof.
  intros b.
  destruct (invest_without_price_500 demoRuntime offlineEnv b demoWorld)
    as [Hs [Hu _]].
  - reflexivity.
  - reflexivity.
  - left. exists (JsError "Network Error"). reflexivity.
  - split; [exact Hs | exact Hu].
Defined.

(** X13, on a body without a wallet address. *)
Lemma invest_without_string_wallet_witness :
  let b := [ ("amount", JNum 100); ("riskLevel", JStr "low") ] in
  status (fst (invest demoRuntime demoEnv b demoWorld)) = 200 /\
  users (snd (invest demoRuntime demoEnv b demoWorld)) = users demoWorld.
Proof.
  intros b.
  destruct (invest_without_string_wallet demoRuntime demoEnv b demoWorld
              (1 # 2) "0xhash") as [Hs [_ [Hu _]]].
  - apply demo_transferred; reflexivity.
  - intros s H. discriminate H.
  - split; [exact Hs | exact Hu].
Defined.

(** X14, on an empty collection. *)
Lemma invest_then_postUserInvestment_witness :
  let b := investBody 100 "low" "0xABC" in
  let b' := [ ("walletAddress", JStr "0xabc"); ("investment", demoInvestment) ] in
  status (fst (invest demoRuntime demoEnv b emptyWorld)) = 200 /\
  status (fst (postUserInvestment demoRuntime demoEnv b'
                 (snd (invest demoRuntime demoEnv b emptyWorld)))) = 200.
Proof.
  intros b b'.
  apply (invest_then_postUserInvestment demoRuntime demoEnv demoEnv b b'
           emptyWorld (1 # 2) "0xhash" "0xABC" "0xabc"); try reflexivity.
  - apply demo_transferred; reflexivity.
  - discriminate.
Defined.


(** X17, on a provider that is down. *)
Lemma fetchsonicprice_failure_500_witness :
  status (fst (fetchsonicprice demoRuntime offlineEnv demoWorld)) = 500 /\
  field (body (fst (fetchsonicprice demoRuntime offlineEnv demoWorld))) "error"
    = JStr "Network Error".
Proof.
  destruct (fetchsonicprice_failure_500 demoRuntime offlineEnv demoWorld)
    as [Hthrow _].
  destruct (Hthrow (JsError "Network Error") eq_refl) as [Hs [_ [He _]]].
  split; [exact Hs | exact He].
Defined.

(** X18, on an analysis that answers and on one that fails. *)
Lemma analyze_passes_analysis_on_witness :
  field (body (fst (analyze demoRuntime demoEnv demoWorld))) "analysis"
    = JObj [ ("riskLevel", JStr "low") ] /\
  status (fst (analyze demoRuntime offlineEnv demoWorld)) = 500.
Proof.
  split.
  - destruct (analyze_passes_analysis_on demoRuntime demoEnv demoWorld)
      as [Hok _].
    destruct (Hok (JObj [ ("riskLevel", JStr "low") ]) eq_refl) as [_ [_ Ha]].
    exact Ha.
  - destruct (analyze_passes_analysis_on demoRuntime offlineEnv demoWorld)
      as [_ [Hfail _]].
    destruct (Hfail (JsError "no data") eq_refl) as [Hs _].
    exact Hs.
Defined.

(** X19, on an address of forty-two characters, on one of seven and on
    one of three. *)
Lemma formatAddress_shape_witness :
  Client.formatAddress (Some "0x486BEa6B90243d2Ff3EE2723a47605C3361c3d95")
    = "0x486B...3d95" /\
  Client.formatAddress (Some "abcdefg") = "abcdef...defg" /\
  Client.formatAddress (Some "0xA") = "0xA...0xA".
Proof.
  destruct formatAddress_shape as [Hany [Hlong [Hshort _]]].
  split; [|split].
  - apply (Hlong "0x486B" "Ea6B90243d2Ff3EE2723a47605C3361c" "3d95");
      reflexivity.
  - apply (Hany "abcdefg" "abcdef" "g" "abc" "defg");
      [discriminate | reflexivity | reflexivity | reflexivity | reflexivity].
  - apply (Hshort "0xA"); [discriminate | simpl; lia].
Defined.

(** X20, on 'medium'. *)
Lemma capitalizeFirstLetter_first_only_witness :
  Client.capitalizeFirstLetter "medium" = "Medium".
Proof.
  destruct (capitalizeFirstLetter_first_only "m" "edium") as [H _].
  - apply Nat.ltb_lt. reflexivity.
  - exact H.
Defined.

(** X21, on one account. *)
Lemma wallet_buttons_follow_accounts_witness :
  Client.innerHTML
    (Client.walletStatusElement (Client.handleAccountsChanged [ "0xABC" ] demoPage))
  = Client.connectedStatus (Client.formatAddress (Some "0xABC")).
Proof.
  destruct (wallet_buttons_follow_accounts [ "0xABC" ] demoPage)
    as [_ [_ [H _]]].
  apply (H "0xABC" []). reflexivity.
Defined.

(** X22, on a wallet that is on the chain. *)
Lemma checkAndSwitchChain_protocol_witness :
  fst (Client.checkAndSwitchChain demoBrowser demoSite) = Client.Done true.
Proof.
  destruct (checkAndSwitchChain_protocol demoBrowser demoSite)
    as [ok [calls [Hfst [_ [_ [_ [_ [Hok _]]]]]]]].
  rewrite Hfst. f_equal. apply Hok.
  exists demoWallet, (JStr "57054").
  split; [reflexivity|]. split; [reflexivity|]. left. reflexivity.
Defined.

(** X23, on the connected page. *)
Lemma processInvestment_closes_dialog_witness :
  Client.txModalShown
    (Client.pg (snd (Client.processInvestment demoRuntime demoBrowser
                       (JNum 100) (JStr "low") connectedSite))) = false.
Proof.
  destruct (processInvestment_closes_dialog demoRuntime demoBrowser
              (JNum 100) (JStr "low") connectedSite) as [_ H].
  apply H. reflexivity.
Defined.

(** X24, on the wallet that gives 0xABC. *)
Lemma connectWallet_registers_user_witness :
  exists s',
    Client.connectWallet browserRuntime demoBrowser demoSite
      = (Client.Done (Some true), s') /\
    Client.walletAddress (Client.pg s') = Some "0xABC" /\
    walletShown (Client.pg s') /\
    exists d,
      findDoc (toLowerCase "0xABC") (users (Client.server s')) = Some d /\
      lastSeenOf d = JDate (Some (Client.browserClock demoBrowser)).
Proof.
  apply (connectWallet_registers_user browserRuntime demoBrowser
           demoSite demoWallet "0xABC" []); try reflexivity; discriminate.
Defined.


(** X26, on a wallet service that refuses. *)
Lemma processInvestment_failed_transfer_witness :
  let br := Client.mkBrowser (Some demoWallet) 5000 (fun _ => None)
              (fun _ => refusingEnv) in
  exists s',
    Client.processInvestment demoRuntime br (JNum 100) (JStr "low") connectedSite
      = (Client.Done tt, s') /\
    Client.innerHTML (Client.transactionStatus (Client.pg s'))
      = Client.failedStatus "Failed to process investment" /\
    users (Client.server s') = users (Client.server connectedSite).
Proof.
  intros br.
  destruct (processInvestment_failed_transfer demoRuntime br
              connectedSite demoWallet "0xABC" "low" 100 (1 # 2)
              (JsError "insufficient funds"))
    as [s' [Hrun [_ [Hh [_ [_ [_ [Hu _]]]]]]]];
    try reflexivity.
  - discriminate.
  - apply demo_quoted; reflexivity.
  - exists s'. split; [exact Hrun|]. split; [exact Hh | exact Hu].
Defined.

(** X27, on a browser without a wallet provider. *)
Lemma processInvestment_needs_wallet_and_chain_witness :
  let br := Client.mkBrowser None 5000 (fun _ => None) (fun _ => demoEnv) in
  Client.server (snd (Client.processInvestment demoRuntime br (JNum 100)
                        (JStr "low") demoSite)) = Client.server demoSite.
Proof.
  intros br.
  destruct (processInvestment_needs_wallet_and_chain demoRuntime br
              (JNum 100) (JStr "low") demoSite) as [H _].
  rewrite H; reflexivity.
Defined.

(** X28, on the page without a wallet. *)
Lemma history_calls_are_guarded_witness :
  Client.saveUserData demoRuntime demoBrowser demoSite
    = (Client.Done tt, demoSite).
Proof.
  destruct (history_calls_are_guarded demoRuntime demoBrowser
              (JNum 100) (JStr "low") (JStr "0xhash") demoSite) as [_ [_ H]].
  destruct H as [Hsave _]; [reflexivity | exact Hsave].
Defined.

(** X29, on a wallet that is already connected. *)
Lemma checkWalletConnection_only_reads_accounts_witness :
  exists s',
    Client.checkWalletConnection demoBrowser demoSite = (Client.Done tt, s') /\
    Client.walletAddress (Client.pg s') = Some "0xABC" /\
    Client.server s' = Client.server demoSite.
Proof.
  destruct (checkWalletConnection_only_reads_accounts demoBrowser demoSite)
    as [s' [Hrun [Hsrv [_ [Hacc _]]]]].
  exists s'. split; [exact Hrun|]. split; [|exact Hsrv].
  apply (Hacc demoWallet "0xABC" []); reflexivity.
Defined.
